(** * footballapi: the reconciliation engine, embedded and verified

    A shallow embedding of [footballapi/normalize.py] and
    [footballapi/service.py]:

    - Python [str] values are sequences of Unicode code points ([pystr]);
    - the provider rows ([dict[str, Any]] of one fixed shape) are records whose
      fields are [option]s, [None] standing for an absent key or a Python
      [None] (the code reads every field with [.get]);
    - a Python float is a binary64 value, written as the rational it is
      equal to; the arithmetic of the code is the arithmetic of IEEE 754,
      every operation rounding its exact result to the nearest binary64 value
      ([round64], [fadd], [fsub], [fmul], [fdiv]), and [round(x, 2)] is
      [round2];
    - functions of the Python standard library whose tables or algorithms are
      not part of this repository (Unicode normalisation, [str.lower],
      [difflib.SequenceMatcher], [datetime.fromisoformat]) are the fields of
      the class [PyRuntime]; every definition below is generic in that
      runtime;
    - the [ZeroDivisionError] of the linker when [max_minutes_diff] is zero
      is a value of the type [service.result]. The other exception the code
      can raise is the [OverflowError] of [datetime.astimezone] on a
      timestamp whose UTC instant is outside the years 1 to 9999:
      [normalize.parse_iso_utc_raises] tells when, the functions below give
      what the code computes when it does not, and the properties that say
      what the code returns are stated for such timestamps.

    The definitions come first, in the order of the two modules; the proofs
    follow, and with them the properties of the specification: idempotence of
    the normalizer, the guarantees of the record linker, the merge stages and
    the quality gate. *)

From Stdlib Require Import QArith Qabs Qround ZArith String Ascii Lia.
From Stdlib Require Import Numbers.DecimalString.
From stdpp Require Import option list gmap.

(** ** Python values *)

Definition codepoint := N.
Definition pystr := list codepoint.

(** An ASCII literal as a Python string. *)
Definition ustr (s : string) : pystr := map N_of_ascii (list_ascii_of_string s).

(** [bool(s)] for an optional string: [None] and [""] are falsy. *)
Definition truthy (v : option pystr) : bool :=
  match v with
  | Some (_ :: _) => true
  | _ => false
  end.

(** [str(v or fallback)] for an optional string. *)
Definition str_or (v : option pystr) (fallback : pystr) : pystr :=
  match v with
  | Some (c :: s) => c :: s
  | _ => fallback
  end.

(** [str.isspace] on one code point (CPython's [_PyUnicode_IsWhitespace]). *)
Definition py_isspace (c : codepoint) : bool :=
  ((9 <=? c) && (c <=? 13) || (28 <=? c) && (c <=? 32) || (c =? 133)
   || (c =? 160) || (c =? 5760) || (8192 <=? c) && (c <=? 8202)
   || (c =? 8232) || (c =? 8233) || (c =? 8239) || (c =? 8287)
   || (c =? 12288))%N.

Fixpoint lstrip (s : pystr) : pystr :=
  match s with
  | c :: s' => if py_isspace c then lstrip s' else s
  | [] => []
  end.

(** [s.strip()] *)
Definition strip (s : pystr) : pystr := rev (lstrip (rev (lstrip s))).

(** [str.split()] without arguments: the maximal runs of non-whitespace.
    [split_aux] returns the token that starts at the head of the string (empty
    when the string starts with whitespace) and the tokens after it. *)
Definition push_word (w : pystr) (ws : list pystr) : list pystr :=
  match w with
  | [] => ws
  | _ :: _ => w :: ws
  end.

Fixpoint split_aux (s : pystr) : pystr * list pystr :=
  match s with
  | [] => ([], [])
  | c :: s' =>
      let '(w, ws) := split_aux s' in
      if py_isspace c then ([], push_word w ws) else (c :: w, ws)
  end.

Definition split (s : pystr) : list pystr :=
  let '(w, ws) := split_aux s in push_word w ws.

(** [sep.join(parts)] *)
Fixpoint join (sep : pystr) (parts : list pystr) : pystr :=
  match parts with
  | [] => []
  | p :: ps =>
      match ps with
      | [] => p
      | _ :: _ => p ++ sep ++ join sep ps
      end
  end.

(** [s.split(sep)] for a separator of one character: every occurrence
    splits, empty pieces are kept. *)
Fixpoint split_on (sep : codepoint) (s : pystr) : list pystr :=
  match s with
  | [] => [[]]
  | c :: s' =>
      if (c =? sep)%N then [] :: split_on sep s'
      else
        match split_on sep s' with
        | w :: ws => (c :: w) :: ws
        | [] => [[c]]
        end
  end.

(** [s.startswith(p)] and [needle in haystack] *)
Fixpoint startswith (p s : pystr) : bool :=
  match p, s with
  | [], _ => true
  | _ :: _, [] => false
  | x :: p', y :: s' => (x =? y)%N && startswith p' s'
  end.

Fixpoint contains (needle haystack : pystr) : bool :=
  startswith needle haystack
  || match haystack with
     | [] => false
     | _ :: rest => contains needle rest
     end.

(** [str(n)] for an integer. *)
Definition str_of_int (n : Z) : pystr :=
  ustr (NilEmpty.string_of_int (Z.to_int n)).

(** Float comparisons, and the two-argument [min] and [max] builtins: both
    return their first argument unless the second is strictly better. *)
Definition Qltb (x y : Q) : bool := negb (Qle_bool y x).
Definition Qgtb (x y : Q) : bool := Qltb y x.
Definition Qgeb (x y : Q) : bool := Qle_bool y x.

Definition py_min (a b : Q) : Q := if Qltb b a then b else a.
Definition py_max (a b : Q) : Q := if Qgtb b a then b else a.

(** *** Float arithmetic

    A float is a binary64 value: a sign, a significand of 53 bits and an
    exponent, the least positive value being [2 ^ -1074]. Such a value is a
    rational, and the model writes a float as that rational; comparisons of
    floats are comparisons of rationals. A rational that is not a binary64
    value, such as the decimal literal [0.10] of the source, stands for the
    binary64 value nearest to it, which is what Python reads the literal as:
    the operations below round their operands to it before they compute.
    Every operation returns the binary64 value nearest to its exact result,
    the one with an even significand when two are as near. A literal that is
    compared with a computed float is left as it is written: each of the
    thresholds 0.76, 0.78 and 0.80 of the code is below the binary64 value
    it stands for ([thresholds_as_floats]), and no binary64 value lies
    between the two, so that a computed score is below the one exactly when
    it is below the other. Infinities and NaN are not values of the model:
    no operation of the modelled code overflows on the scores, gaps and ages
    it computes. *)

(** [2 ^ e] *)
Definition pow2 (e : Z) : Q :=
  if (0 <=? e)%Z then inject_Z (2 ^ e) else (1 # Z.to_pos (2 ^ (- e))).

(** The nearest integer, the even one of two that are as near. *)
Definition round_half_even (q : Q) : Z :=
  let below := Qfloor q in
  match Qcompare (q - inject_Z below) (1 # 2) with
  | Lt => below
  | Gt => (below + 1)%Z
  | Eq => if Z.even below then below else (below + 1)%Z
  end.

(** For [q > 0], the exponent [e] with [2 ^ e <= q < 2 ^ (e + 1)]. *)
Definition binade (q : Q) : Z :=
  let e := (Z.log2 (Qnum q) - Z.log2 (Zpos (Qden q)))%Z in
  if Qle_bool (pow2 e) q then e else (e - 1)%Z.

(** For [q > 0], the nearest multiple of the unit in the last place of the
    binade of [q]: 53 bits from the leading one on, and never below
    [2 ^ -1074]. *)
Definition round64_pos (q : Q) : Q :=
  let ulp := pow2 (Z.max (binade q - 52) (-1074)) in
  (inject_Z (round_half_even (q / ulp)) * ulp)%Q.

(** Rounding to the nearest binary64 value, ties to even. *)
Definition round64 (q : Q) : Q :=
  match Qnum q with
  | Z0 => 0%Q
  | Zpos n => round64_pos (Zpos n # Qden q)
  | Zneg n => (- round64_pos (Zpos n # Qden q))%Q
  end.


(** [x + y], [x - y], [x * y] and [x / y] on floats; the division is only
    used with a divisor that is not zero. *)
Definition fadd (x y : Q) : Q := round64 (round64 x + round64 y).
Definition fsub (x y : Q) : Q := round64 (round64 x - round64 y).
Definition fmul (x y : Q) : Q := round64 (round64 x * round64 y).
Definition fdiv (x y : Q) : Q := round64 (round64 x / round64 y).

(** [round(x, 2)]: the float [x] rounded to the nearest hundredth, the even
    one when [x] is half way. The result is written as that decimal; it
    stands for the float nearest to it, as a literal does. *)
Definition round2 (x : Q) : Q := (round_half_even (round64 x * 100) # 100)%Q.

(** A [datetime]: the wall-clock reading in microseconds since the epoch and
    the UTC offset of its [tzinfo], [None] for a naive value. *)
Record datetime := {
  wall_us : Z;
  utcoffset_us : option Z
}.

(** ** The Python runtime the code calls into *)

Class PyRuntime := {
  (** [unicodedata.normalize("NFKD", s)] *)
  nfkd : pystr -> pystr;
  (** [unicodedata.combining(ch)], the canonical combining class *)
  combining : codepoint -> N;
  (** [s.lower()] *)
  lower : pystr -> pystr;
  (** [SequenceMatcher(None, a, b).ratio()], a float *)
  ratio : pystr -> pystr -> Q;
  (** [datetime.fromisoformat(s)], [None] when it raises [ValueError] *)
  fromisoformat : pystr -> option datetime
}.

(** ** normalize.py *)

Module normalize.

Definition TEAM_STOP_WORDS : list pystr :=
  map ustr
    ["ac"; "afc"; "athletic"; "atletico"; "cf"; "club"; "fc"; "fk"; "foot";
     "football"; "if"; "nk"; "rc"; "sc"; "sk"; "sporting"; "sv"]%string.

(** The character class [[a-z0-9 ]] of the regular expression. *)
Definition re_keep (c : codepoint) : bool :=
  ((97 <=? c) && (c <=? 122) || (48 <=? c) && (c <=? 57) || (c =? 32))%N.

(** [re.sub(r"[^a-z0-9 ]+", " ", text)]: every maximal run of characters
    outside the class becomes one space. [in_run] tells whether the previous
    character was already outside the class. *)
Fixpoint re_sub_aux (in_run : bool) (text : pystr) : pystr :=
  match text with
  | [] => []
  | c :: text' =>
      if re_keep c then c :: re_sub_aux false text'
      else if in_run then re_sub_aux true text'
      else 32%N :: re_sub_aux true text'
  end.

Definition re_sub (text : pystr) : pystr := re_sub_aux false text.

Section Normalize.
Context `{PyRuntime}.

Definition normalize_team_name (name : option pystr) : pystr :=
  if negb (truthy name) then []
  else
    let text := nfkd (default [] name) in
    let text := filter (fun ch => combining ch = 0%N) text in
    let text := lower text in
    let text := re_sub text in
    let parts :=
      filter (fun p => p ≠ [] ∧ p ∉ TEAM_STOP_WORDS) (split text) in
    match parts with
    | [] => []
    | _ :: _ => join (ustr " ") parts
    end.

Definition similarity (left_name right_name : option pystr) : Q :=
  let left_norm := normalize_team_name left_name in
  let right_norm := normalize_team_name right_name in
  match left_norm, right_norm with
  | [], [] => 1%Q
  | [], _ | _, [] => 0%Q
  | _, _ => ratio left_norm right_norm
  end.

Definition team_pair_similarity (home_a away_a home_b away_b : pystr)
  : Q * bool :=
  let direct :=
    fdiv
      (fadd (similarity (Some home_a) (Some home_b))
         (similarity (Some away_a) (Some away_b)))
      2 in
  let swapped :=
    fdiv
      (fadd (similarity (Some home_a) (Some away_b))
         (similarity (Some away_a) (Some home_b)))
      2 in
  if Qgeb direct swapped then (direct, false) else (swapped, true).

(** [dt.astimezone(timezone.utc)] subtracts the offset of an aware [dt]
    from its wall clock and raises [OverflowError] when the result is before
    [0001-01-01T00:00:00] or after [9999-12-31T23:59:59.999999]; a naive [dt]
    has been given the zone UTC by [replace], and is returned as it is. *)
Definition DATETIME_MIN_US : Z := (-62135596800000000)%Z.
Definition DATETIME_MAX_US : Z := 253402300799999999%Z.

Definition astimezone_raises (dt : datetime) : bool :=
  match utcoffset_us dt with
  | None => false
  | Some offset =>
      negb ((DATETIME_MIN_US <=? wall_us dt - offset)%Z
            && (wall_us dt - offset <=? DATETIME_MAX_US)%Z)
  end.

(** The parsed timestamp is the UTC instant, in microseconds. The call to
    [astimezone] is outside the [try] of the source: [parse_iso_utc_raises]
    below tells when it raises, and [parse_iso_utc] is what the function
    returns when it does not. *)
Definition parse_iso_utc (value : option pystr) : option Z :=
  if negb (truthy value) then None
  else
    let cleaned := strip (default [] value) in
    match cleaned with
    | [] => None
    | _ :: _ =>
        let cleaned :=
          match rev cleaned with
          | 90%N :: front => rev front ++ ustr "+00:00"
          | _ => cleaned
          end in
        match fromisoformat cleaned with
        | None => None
        | Some dt => Some (wall_us dt - default 0 (utcoffset_us dt))%Z
        end
    end.

(** [parse_iso_utc(value)] raises [OverflowError]. *)
Definition parse_iso_utc_raises (value : option pystr) : bool :=
  if negb (truthy value) then false
  else
    let cleaned := strip (default [] value) in
    match cleaned with
    | [] => false
    | _ :: _ =>
        let cleaned :=
          match rev cleaned with
          | 90%N :: front => rev front ++ ustr "+00:00"
          | _ => cleaned
          end in
        match fromisoformat cleaned with
        | None => false
        | Some dt => astimezone_raises dt
        end
    end.

(** [(left - right).total_seconds()]: the microseconds of the difference
    over [10 ** 6], a true division of integers, which rounds once. *)
Definition total_seconds (left_dt right_dt : Z) : Q :=
  round64 ((left_dt - right_dt)%Z # 1000000).

Definition minutes_between (left_iso right_iso : option pystr) : option Q :=
  match parse_iso_utc left_iso, parse_iso_utc right_iso with
  | Some left_dt, Some right_dt =>
      Some (fdiv (Qabs (total_seconds left_dt right_dt)) 60)
  | _, _ => None
  end.
End Normalize.

End normalize.

(** ** The rows

    One record for the rows of all stages: the seventeen keys every provider
    emits, the four keys [merge_provider_matches] adds to a canonical row and
    the three annotations of the quality gate. The canonical keys of a raw
    provider row hold placeholders: the code overwrites all four when it seeds
    a canonical row and never reads them before. *)

Record Row := {
  provider : option pystr;
  provider_match_id : option pystr;
  competition : option pystr;
  home_team : option pystr;
  away_team : option pystr;
  home_score : option Z;
  away_score : option Z;
  status : option pystr;
  raw_status : option pystr;
  period : option pystr;
  minute : option Z;
  extra_minute : option Z;
  start_time_utc : option pystr;
  last_updated_utc : option pystr;
  venue : option pystr;
  streamed_watch_url : option pystr;
  discrepancies : list pystr;
  sources : list pystr;
  external_ids : gmap pystr (option pystr);
  confidence : Q;
  verification : option pystr;
  last_update_age_seconds : option Q;
  is_stale : option bool;
  staleness_reason : option pystr
}.

(** [row[key] = v], one setter per key the code assigns. *)
Definition set_competition (v : option pystr) (r : Row) : Row :=
  {| provider := provider r; provider_match_id := provider_match_id r;
     competition := v; home_team := home_team r; away_team := away_team r;
     home_score := home_score r; away_score := away_score r; status :=
     status r; raw_status := raw_status r; period := period r; minute :=
     minute r; extra_minute := extra_minute r; start_time_utc :=
     start_time_utc r; last_updated_utc := last_updated_utc r; venue :=
     venue r; streamed_watch_url := streamed_watch_url r; discrepancies :=
     discrepancies r; sources := sources r; external_ids := external_ids r;
     confidence := confidence r; verification := verification r;
     last_update_age_seconds := last_update_age_seconds r; is_stale :=
     is_stale r; staleness_reason := staleness_reason r |}.

Definition set_home_score (v : option Z) (r : Row) : Row :=
  {| provider := provider r; provider_match_id := provider_match_id r;
     competition := competition r; home_team := home_team r; away_team :=
     away_team r; home_score := v; away_score := away_score r; status :=
     status r; raw_status := raw_status r; period := period r; minute :=
     minute r; extra_minute := extra_minute r; start_time_utc :=
     start_time_utc r; last_updated_utc := last_updated_utc r; venue :=
     venue r; streamed_watch_url := streamed_watch_url r; discrepancies :=
     discrepancies r; sources := sources r; external_ids := external_ids r;
     confidence := confidence r; verification := verification r;
     last_update_age_seconds := last_update_age_seconds r; is_stale :=
     is_stale r; staleness_reason := staleness_reason r |}.

Definition set_away_score (v : option Z) (r : Row) : Row :=
  {| provider := provider r; provider_match_id := provider_match_id r;
     competition := competition r; home_team := home_team r; away_team :=
     away_team r; home_score := home_score r; away_score := v; status :=
     status r; raw_status := raw_status r; period := period r; minute :=
     minute r; extra_minute := extra_minute r; start_time_utc :=
     start_time_utc r; last_updated_utc := last_updated_utc r; venue :=
     venue r; streamed_watch_url := streamed_watch_url r; discrepancies :=
     discrepancies r; sources := sources r; external_ids := external_ids r;
     confidence := confidence r; verification := verification r;
     last_update_age_seconds := last_update_age_seconds r; is_stale :=
     is_stale r; staleness_reason := staleness_reason r |}.

Definition set_status (v : option pystr) (r : Row) : Row :=
  {| provider := provider r; provider_match_id := provider_match_id r;
     competition := competition r; home_team := home_team r; away_team :=
     away_team r; home_score := home_score r; away_score := away_score r;
     status := v; raw_status := raw_status r; period := period r; minute :=
     minute r; extra_minute := extra_minute r; start_time_utc :=
     start_time_utc r; last_updated_utc := last_updated_utc r; venue :=
     venue r; streamed_watch_url := streamed_watch_url r; discrepancies :=
     discrepancies r; sources := sources r; external_ids := external_ids r;
     confidence := confidence r; verification := verification r;
     last_update_age_seconds := last_update_age_seconds r; is_stale :=
     is_stale r; staleness_reason := staleness_reason r |}.

Definition set_last_updated_utc (v : option pystr) (r : Row) : Row :=
  {| provider := provider r; provider_match_id := provider_match_id r;
     competition := competition r; home_team := home_team r; away_team :=
     away_team r; home_score := home_score r; away_score := away_score r;
     status := status r; raw_status := raw_status r; period := period r;
     minute := minute r; extra_minute := extra_minute r; start_time_utc :=
     start_time_utc r; last_updated_utc := v; venue := venue r;
     streamed_watch_url := streamed_watch_url r; discrepancies :=
     discrepancies r; sources := sources r; external_ids := external_ids r;
     confidence := confidence r; verification := verification r;
     last_update_age_seconds := last_update_age_seconds r; is_stale :=
     is_stale r; staleness_reason := staleness_reason r |}.

Definition set_venue (v : option pystr) (r : Row) : Row :=
  {| provider := provider r; provider_match_id := provider_match_id r;
     competition := competition r; home_team := home_team r; away_team :=
     away_team r; home_score := home_score r; away_score := away_score r;
     status := status r; raw_status := raw_status r; period := period r;
     minute := minute r; extra_minute := extra_minute r; start_time_utc :=
     start_time_utc r; last_updated_utc := last_updated_utc r; venue := v;
     streamed_watch_url := streamed_watch_url r; discrepancies :=
     discrepancies r; sources := sources r; external_ids := external_ids r;
     confidence := confidence r; verification := verification r;
     last_update_age_seconds := last_update_age_seconds r; is_stale :=
     is_stale r; staleness_reason := staleness_reason r |}.

Definition set_streamed_watch_url (v : option pystr) (r : Row) : Row :=
  {| provider := provider r; provider_match_id := provider_match_id r;
     competition := competition r; home_team := home_team r; away_team :=
     away_team r; home_score := home_score r; away_score := away_score r;
     status := status r; raw_status := raw_status r; period := period r;
     minute := minute r; extra_minute := extra_minute r; start_time_utc :=
     start_time_utc r; last_updated_utc := last_updated_utc r; venue :=
     venue r; streamed_watch_url := v; discrepancies := discrepancies r;
     sources := sources r; external_ids := external_ids r; confidence :=
     confidence r; verification := verification r; last_update_age_seconds
     := last_update_age_seconds r; is_stale := is_stale r; staleness_reason
     := staleness_reason r |}.

Definition set_discrepancies (v : list pystr) (r : Row) : Row :=
  {| provider := provider r; provider_match_id := provider_match_id r;
     competition := competition r; home_team := home_team r; away_team :=
     away_team r; home_score := home_score r; away_score := away_score r;
     status := status r; raw_status := raw_status r; period := period r;
     minute := minute r; extra_minute := extra_minute r; start_time_utc :=
     start_time_utc r; last_updated_utc := last_updated_utc r; venue :=
     venue r; streamed_watch_url := streamed_watch_url r; discrepancies :=
     v; sources := sources r; external_ids := external_ids r; confidence :=
     confidence r; verification := verification r; last_update_age_seconds
     := last_update_age_seconds r; is_stale := is_stale r; staleness_reason
     := staleness_reason r |}.

Definition set_sources (v : list pystr) (r : Row) : Row :=
  {| provider := provider r; provider_match_id := provider_match_id r;
     competition := competition r; home_team := home_team r; away_team :=
     away_team r; home_score := home_score r; away_score := away_score r;
     status := status r; raw_status := raw_status r; period := period r;
     minute := minute r; extra_minute := extra_minute r; start_time_utc :=
     start_time_utc r; last_updated_utc := last_updated_utc r; venue :=
     venue r; streamed_watch_url := streamed_watch_url r; discrepancies :=
     discrepancies r; sources := v; external_ids := external_ids r;
     confidence := confidence r; verification := verification r;
     last_update_age_seconds := last_update_age_seconds r; is_stale :=
     is_stale r; staleness_reason := staleness_reason r |}.

Definition set_external_ids (v : gmap pystr (option pystr)) (r : Row) : Row :=
  {| provider := provider r; provider_match_id := provider_match_id r;
     competition := competition r; home_team := home_team r; away_team :=
     away_team r; home_score := home_score r; away_score := away_score r;
     status := status r; raw_status := raw_status r; period := period r;
     minute := minute r; extra_minute := extra_minute r; start_time_utc :=
     start_time_utc r; last_updated_utc := last_updated_utc r; venue :=
     venue r; streamed_watch_url := streamed_watch_url r; discrepancies :=
     discrepancies r; sources := sources r; external_ids := v; confidence :=
     confidence r; verification := verification r; last_update_age_seconds
     := last_update_age_seconds r; is_stale := is_stale r; staleness_reason
     := staleness_reason r |}.

Definition set_confidence (v : Q) (r : Row) : Row :=
  {| provider := provider r; provider_match_id := provider_match_id r;
     competition := competition r; home_team := home_team r; away_team :=
     away_team r; home_score := home_score r; away_score := away_score r;
     status := status r; raw_status := raw_status r; period := period r;
     minute := minute r; extra_minute := extra_minute r; start_time_utc :=
     start_time_utc r; last_updated_utc := last_updated_utc r; venue :=
     venue r; streamed_watch_url := streamed_watch_url r; discrepancies :=
     discrepancies r; sources := sources r; external_ids := external_ids r;
     confidence := v; verification := verification r;
     last_update_age_seconds := last_update_age_seconds r; is_stale :=
     is_stale r; staleness_reason := staleness_reason r |}.

Definition set_verification (v : option pystr) (r : Row) : Row :=
  {| provider := provider r; provider_match_id := provider_match_id r;
     competition := competition r; home_team := home_team r; away_team :=
     away_team r; home_score := home_score r; away_score := away_score r;
     status := status r; raw_status := raw_status r; period := period r;
     minute := minute r; extra_minute := extra_minute r; start_time_utc :=
     start_time_utc r; last_updated_utc := last_updated_utc r; venue :=
     venue r; streamed_watch_url := streamed_watch_url r; discrepancies :=
     discrepancies r; sources := sources r; external_ids := external_ids r;
     confidence := confidence r; verification := v; last_update_age_seconds
     := last_update_age_seconds r; is_stale := is_stale r; staleness_reason
     := staleness_reason r |}.

Definition set_last_update_age_seconds (v : option Q) (r : Row) : Row :=
  {| provider := provider r; provider_match_id := provider_match_id r;
     competition := competition r; home_team := home_team r; away_team :=
     away_team r; home_score := home_score r; away_score := away_score r;
     status := status r; raw_status := raw_status r; period := period r;
     minute := minute r; extra_minute := extra_minute r; start_time_utc :=
     start_time_utc r; last_updated_utc := last_updated_utc r; venue :=
     venue r; streamed_watch_url := streamed_watch_url r; discrepancies :=
     discrepancies r; sources := sources r; external_ids := external_ids r;
     confidence := confidence r; verification := verification r;
     last_update_age_seconds := v; is_stale := is_stale r; staleness_reason
     := staleness_reason r |}.

Definition set_is_stale (v : option bool) (r : Row) : Row :=
  {| provider := provider r; provider_match_id := provider_match_id r;
     competition := competition r; home_team := home_team r; away_team :=
     away_team r; home_score := home_score r; away_score := away_score r;
     status := status r; raw_status := raw_status r; period := period r;
     minute := minute r; extra_minute := extra_minute r; start_time_utc :=
     start_time_utc r; last_updated_utc := last_updated_utc r; venue :=
     venue r; streamed_watch_url := streamed_watch_url r; discrepancies :=
     discrepancies r; sources := sources r; external_ids := external_ids r;
     confidence := confidence r; verification := verification r;
     last_update_age_seconds := last_update_age_seconds r; is_stale := v;
     staleness_reason := staleness_reason r |}.

Definition set_staleness_reason (v : option pystr) (r : Row) : Row :=
  {| provider := provider r; provider_match_id := provider_match_id r;
     competition := competition r; home_team := home_team r; away_team :=
     away_team r; home_score := home_score r; away_score := away_score r;
     status := status r; raw_status := raw_status r; period := period r;
     minute := minute r; extra_minute := extra_minute r; start_time_utc :=
     start_time_utc r; last_updated_utc := last_updated_utc r; venue :=
     venue r; streamed_watch_url := streamed_watch_url r; discrepancies :=
     discrepancies r; sources := sources r; external_ids := external_ids r;
     confidence := confidence r; verification := verification r;
     last_update_age_seconds := last_update_age_seconds r; is_stale :=
     is_stale r; staleness_reason := v |}.

(** ** service.py *)

Module service.

Definition STATUS_PRIORITY : gmap pystr Z :=
  list_to_map
    [(ustr "live", 5%Z); (ustr "finished", 4%Z); (ustr "postponed", 3%Z);
     (ustr "cancelled", 2%Z); (ustr "scheduled", 1%Z); (ustr "unknown", 0%Z)].

(** [STATUS_PRIORITY.get(status, 0)] *)
Definition status_priority (status : pystr) : Z :=
  default 0%Z (STATUS_PRIORITY !! status).

Record MatchLink := {
  base_index : nat;
  candidate_index : nat;
  similarity : Q;
  swapped : bool
}.

(** What a Python call returns: a value, or the one exception the modelled
    code can raise (the float division by [max_minutes_diff]). *)
Inductive result (A : Type) : Type :=
  | Ok (a : A)
  | ZeroDivisionError.
Arguments Ok {A} a.
Arguments ZeroDivisionError {A}.

Definition bind {A B} (m : result A) (k : A -> result B) : result B :=
  match m with
  | Ok a => k a
  | ZeroDivisionError => ZeroDivisionError
  end.

Notation "x <- m ;; k" := (bind m (fun x => k))
  (at level 100, m at next level, right associativity).

Definition _preferred_status (first second : pystr) : pystr :=
  let first_priority := status_priority first in
  let second_priority := status_priority second in
  if (second_priority >? first_priority)%Z then second else first.

Definition _score_pair (row : Row) : option Z * option Z :=
  (home_score row, away_score row).

(** [None in pair] *)
Definition has_none (pair : option Z * option Z) : bool :=
  match pair with
  | (Some _, Some _) => false
  | _ => true
  end.

Section Service.
Context `{PyRuntime}.

Definition _max_timestamp (left_iso right_iso : option pystr)
  : option pystr :=
  match normalize.parse_iso_utc left_iso with
  | None => right_iso
  | Some left_dt =>
      match normalize.parse_iso_utc right_iso with
      | None => left_iso
      | Some right_dt =>
          if (left_dt >=? right_dt)%Z then left_iso else right_iso
      end
  end.

(** *** The record linker *)

(** The body of the inner loop for one unused candidate: [Ok None] when the
    candidate is skipped for its time gap, otherwise the final score and the
    orientation. *)
Definition candidate_score (max_minutes_diff : Q) (base candidate : Row)
  : result (option (Q * bool)) :=
  let minute_gap :=
    normalize.minutes_between (start_time_utc base)
      (start_time_utc candidate) in
  let too_far :=
    match minute_gap with
    | Some gap => Qgtb gap max_minutes_diff
    | None => false
    end in
  if too_far then Ok None
  else
    let '(similarity, swapped) :=
      normalize.team_pair_similarity
        (str_or (home_team base) []) (str_or (away_team base) [])
        (str_or (home_team candidate) []) (str_or (away_team candidate) []) in
    match minute_gap with
    | None => Ok (Some (similarity, swapped))
    | Some gap =>
        if Qeq_bool max_minutes_diff 0 then ZeroDivisionError
        else
          Ok (Some
                (fadd similarity
                   (fmul (py_max 0 (fsub 1 (fdiv gap max_minutes_diff)))
                      0.10),
                 swapped))
    end.

(** [for candidate_index, candidate in enumerate(candidate_rows)], from
    [candidate_index] on. *)
Fixpoint scan_candidates (max_minutes_diff : Q) (used_candidates : gset nat)
    (base_index : nat) (base : Row) (candidate_index : nat)
    (candidate_rows : list Row) (best : option MatchLink)
  : result (option MatchLink) :=
  match candidate_rows with
  | [] => Ok best
  | candidate :: rest =>
      if bool_decide (candidate_index ∈ used_candidates) then
        scan_candidates max_minutes_diff used_candidates base_index base
          (S candidate_index) rest best
      else
        scored <- candidate_score max_minutes_diff base candidate ;;
        match scored with
        | None =>
            scan_candidates max_minutes_diff used_candidates base_index base
              (S candidate_index) rest best
        | Some (similarity', swapped') =>
            let better :=
              match best with
              | None => true
              | Some b => Qgtb similarity' (similarity b)
              end in
            scan_candidates max_minutes_diff used_candidates base_index base
              (S candidate_index) rest
              (if better then
                 Some {| base_index := base_index;
                         candidate_index := candidate_index;
                         similarity := similarity';
                         swapped := swapped' |}
               else best)
        end
  end.

(** [for base_index, base in enumerate(base_rows)], from [base_index] on,
    with the links and the used candidates collected so far. *)
Fixpoint match_loop (candidate_rows : list Row)
    (max_minutes_diff min_similarity : Q) (base_index : nat)
    (base_rows : list Row) (links : list MatchLink)
    (used_candidates : gset nat) : result (list MatchLink) :=
  match base_rows with
  | [] => Ok links
  | base :: rest =>
      best <- scan_candidates max_minutes_diff used_candidates base_index
                base 0 candidate_rows None ;;
      match best with
      | None =>
          match_loop candidate_rows max_minutes_diff min_similarity
            (S base_index) rest links used_candidates
      | Some b =>
          if Qltb (similarity b) min_similarity then
            match_loop candidate_rows max_minutes_diff min_similarity
              (S base_index) rest links used_candidates
          else
            match_loop candidate_rows max_minutes_diff min_similarity
              (S base_index) rest (links ++ [b])
              ({[candidate_index b]} ∪ used_candidates)
      end
  end.

Definition _match_records (base_rows candidate_rows : list Row)
    (max_minutes_diff min_similarity : Q) : result (list MatchLink) :=
  match_loop candidate_rows max_minutes_diff min_similarity 0 base_rows [] ∅.

(** *** The merge engine *)

Definition seed_goal (row : Row) : Row :=
  let merged_row := row in
  let merged_row := set_sources [ustr "goal"] merged_row in
  let merged_row := set_confidence 0.72 merged_row in
  let merged_row := set_verification (Some (ustr "single_source")) merged_row in
  set_external_ids {[ustr "goal" := provider_match_id row]} merged_row.

Definition seed_espn (espn_row : Row) : Row :=
  let row := espn_row in
  let row := set_sources [ustr "espn"] row in
  let row := set_confidence 0.68 row in
  let row := set_verification (Some (ustr "single_source")) row in
  set_external_ids {[ustr "espn" := provider_match_id row]} row.

Definition seed_sofa (sofa_row : Row) : Row :=
  let row := sofa_row in
  let row := set_sources [ustr "sofascore"] row in
  let row := set_confidence 0.74 row in
  let row := set_verification (Some (ustr "single_source")) row in
  set_external_ids {[ustr "sofascore" := provider_match_id row]} row.

(** [f"{score}"] for one side of a score pair. *)
Definition format_score (score : option Z) : pystr :=
  match score with
  | Some n => str_of_int n
  | None => ustr "None"
  end.

Definition score_message (who : string) (ours : option Z * option Z)
    (other : string) (theirs : option Z * option Z) : pystr :=
  ustr who ++ format_score ours.1 ++ ustr "-" ++ format_score ours.2
  ++ ustr other ++ format_score theirs.1 ++ ustr "-" ++ format_score theirs.2.

(** The body of the loop over [goal_espn_links], on the two rows of a link,
    in its four parts: the keys every link assigns, the comparison of the two
    score pairs, and the two fills. *)
Definition espn_attach (link : MatchLink) (goal_row espn_row : Row) : Row :=
  let goal_row := set_sources (sources goal_row ++ [ustr "espn"]) goal_row in
  let goal_row :=
    set_external_ids
      (<[ustr "espn" := provider_match_id espn_row]> (external_ids goal_row))
      goal_row in
  let goal_row :=
    set_confidence
      (round2 (py_min 0.98 (fadd 0.80 (fsub (similarity link) 0.75))))
      goal_row in
  let goal_row :=
    set_status
      (Some (_preferred_status (str_or (status goal_row) (ustr "unknown"))
               (str_or (status espn_row) (ustr "unknown"))))
      goal_row in
  set_last_updated_utc
    (_max_timestamp (last_updated_utc goal_row) (last_updated_utc espn_row))
    goal_row.

Definition espn_reconcile_scores (goal_row espn_row : Row) : Row :=
  let goal_scores := _score_pair goal_row in
  let espn_scores := _score_pair espn_row in
  if bool_decide (goal_scores = espn_scores) && negb (has_none goal_scores)
  then
    let goal_row :=
      set_verification (Some (ustr "confirmed_by_multiple_sources"))
        goal_row in
    set_confidence (py_max (confidence goal_row) 0.95) goal_row
  else if negb (has_none goal_scores) && negb (has_none espn_scores)
          && negb (bool_decide (goal_scores = espn_scores))
  then
    let goal_row := set_verification (Some (ustr "score_conflict")) goal_row in
    let goal_row :=
      set_confidence (py_min (confidence goal_row) 0.56) goal_row in
    set_discrepancies
      (discrepancies goal_row
       ++ [score_message "Goal score " goal_scores " differs from ESPN "
             espn_scores])
      goal_row
  else if has_none goal_scores && negb (has_none espn_scores)
  then
    let goal_row := set_home_score (home_score espn_row) goal_row in
    let goal_row := set_away_score (away_score espn_row) goal_row in
    let goal_row :=
      set_verification (Some (ustr "filled_from_espn")) goal_row in
    set_confidence (py_max (confidence goal_row) 0.83) goal_row
  else goal_row.

Definition fill_competition (row other : Row) : Row :=
  if negb (truthy (competition row)) && truthy (competition other)
  then set_competition (competition other) row
  else row.

Definition fill_venue (row other : Row) : Row :=
  if negb (truthy (venue row)) && truthy (venue other)
  then set_venue (venue other) row
  else row.

Definition merge_espn_row (link : MatchLink) (goal_row espn_row : Row) : Row :=
  let goal_row := espn_attach link goal_row espn_row in
  let goal_row := espn_reconcile_scores goal_row espn_row in
  let goal_row := fill_competition goal_row espn_row in
  fill_venue goal_row espn_row.

(** One turn of the loop over [goal_espn_links]; the state is [merged] and
    [linked_espn]. The indices of a link of [_match_records] are in range
    ([links_ok_in_range] below), so that the [IndexError] of an index out of
    range is not reachable: there the state is returned as it is. *)
Definition espn_step (espn_rows : list Row) (st : list Row * gset nat)
    (link : MatchLink) : list Row * gset nat :=
  let '(merged, linked_espn) := st in
  let linked_espn := {[candidate_index link]} ∪ linked_espn in
  match espn_rows !! candidate_index link with
  | Some espn_row =>
      (alter (fun goal_row => merge_espn_row link goal_row espn_row)
         (base_index link) merged,
       linked_espn)
  | None => (merged, linked_espn)
  end.

(** [for index, row in enumerate(rows): if index in linked: continue; ...
    merged.append(row)], from [index] on. *)
Fixpoint append_unlinked (seed : Row -> Row) (linked : gset nat) (index : nat)
    (rows : list Row) (merged : list Row) : list Row :=
  match rows with
  | [] => merged
  | row :: rest =>
      if bool_decide (index ∈ linked) then
        append_unlinked seed linked (S index) rest merged
      else append_unlinked seed linked (S index) rest (merged ++ [seed row])
  end.

(** The body of the loop over [merged_sofa_links], in its three parts. *)
Definition sofa_attach (merged_row sofa_row : Row) : Row :=
  let merged_row :=
    if bool_decide (ustr "sofascore" ∈ sources merged_row) then merged_row
    else set_sources (sources merged_row ++ [ustr "sofascore"]) merged_row in
  let merged_row :=
    set_external_ids
      (<[ustr "sofascore" := provider_match_id sofa_row]>
         (external_ids merged_row))
      merged_row in
  let merged_row :=
    set_status
      (Some (_preferred_status (str_or (status merged_row) (ustr "unknown"))
               (str_or (status sofa_row) (ustr "unknown"))))
      merged_row in
  set_last_updated_utc
    (_max_timestamp (last_updated_utc merged_row) (last_updated_utc sofa_row))
    merged_row.

Definition sofa_reconcile_scores (merged_row sofa_row : Row) : Row :=
  let merged_scores := _score_pair merged_row in
  let sofa_scores := _score_pair sofa_row in
  if bool_decide (merged_scores = sofa_scores) && negb (has_none merged_scores)
  then
    let merged_row :=
      set_verification (Some (ustr "confirmed_by_multiple_sources"))
        merged_row in
    set_confidence (py_max (confidence merged_row) 0.96) merged_row
  else if has_none merged_scores && negb (has_none sofa_scores)
  then
    let merged_row := set_home_score (home_score sofa_row) merged_row in
    let merged_row := set_away_score (away_score sofa_row) merged_row in
    let merged_row :=
      set_verification (Some (ustr "filled_from_sofascore")) merged_row in
    set_confidence (py_max (confidence merged_row) 0.86) merged_row
  else if negb (has_none merged_scores) && negb (has_none sofa_scores)
          && negb (bool_decide (merged_scores = sofa_scores))
  then
    let merged_row :=
      set_verification (Some (ustr "score_conflict")) merged_row in
    let merged_row :=
      set_confidence (py_min (confidence merged_row) 0.50) merged_row in
    set_discrepancies
      (discrepancies merged_row
       ++ [score_message "Merged score " merged_scores
             " differs from SofaScore " sofa_scores])
      merged_row
  else merged_row.

Definition merge_sofa_row (merged_row sofa_row : Row) : Row :=
  let merged_row := sofa_attach merged_row sofa_row in
  let merged_row := sofa_reconcile_scores merged_row sofa_row in
  fill_competition merged_row sofa_row.

Definition sofa_step (sofa_rows : list Row) (st : list Row * gset nat)
    (link : MatchLink) : list Row * gset nat :=
  let '(merged, linked_sofa) := st in
  let linked_sofa := {[candidate_index link]} ∪ linked_sofa in
  match sofa_rows !! candidate_index link with
  | Some sofa_row =>
      (alter (fun merged_row => merge_sofa_row merged_row sofa_row)
         (base_index link) merged,
       linked_sofa)
  | None => (merged, linked_sofa)
  end.

(** The body of the loop over [stream_links]. *)
Definition merge_streamed_row (merged_row streamed_row : Row) : Row :=
  let watch_url := streamed_watch_url streamed_row in
  if truthy watch_url then
    let merged_row := set_streamed_watch_url watch_url merged_row in
    let merged_row :=
      if bool_decide (ustr "streamed" ∈ sources merged_row) then merged_row
      else set_sources (sources merged_row ++ [ustr "streamed"]) merged_row in
    set_external_ids
      (<[ustr "streamed" := provider_match_id streamed_row]>
         (external_ids merged_row))
      merged_row
  else merged_row.

Definition stream_step (streamed_rows : list Row) (merged : list Row)
    (link : MatchLink) : list Row :=
  match streamed_rows !! candidate_index link with
  | Some streamed_row =>
      alter (fun merged_row => merge_streamed_row merged_row streamed_row)
        (base_index link) merged
  | None => merged
  end.

(** The sort key, and the order of Python on such tuples. *)
Definition _sort_key (row : Row) : Z * pystr * pystr :=
  let status := str_or (status row) (ustr "unknown") in
  let status_rank := status_priority status in
  let start := str_or (start_time_utc row) [] in
  let match_name :=
    str_or (home_team row) [] ++ ustr " vs " ++ str_or (away_team row) [] in
  ((- status_rank)%Z, start, lower match_name).

Fixpoint str_compare (a b : pystr) : comparison :=
  match a, b with
  | [], [] => Eq
  | [], _ :: _ => Lt
  | _ :: _, [] => Gt
  | x :: a', y :: b' =>
      match (x ?= y)%N with
      | Eq => str_compare a' b'
      | c => c
      end
  end.

Definition key_lt (k1 k2 : Z * pystr * pystr) : bool :=
  let '(rank1, start1, name1) := k1 in
  let '(rank2, start2, name2) := k2 in
  match (rank1 ?= rank2)%Z with
  | Lt => true
  | Gt => false
  | Eq =>
      match str_compare start1 start2 with
      | Lt => true
      | Gt => false
      | Eq =>
          match str_compare name1 name2 with
          | Lt => true
          | _ => false
          end
      end
  end.

(** [list.sort(key=...)] is stable: a row goes before the first row whose key
    is not smaller than its own. *)
Fixpoint insert_row (row : Row) (sorted : list Row) : list Row :=
  match sorted with
  | [] => [row]
  | other :: rest =>
      if key_lt (_sort_key other) (_sort_key row)
      then other :: insert_row row rest
      else row :: other :: rest
  end.

Definition sort_rows (rows : list Row) : list Row := foldr insert_row [] rows.

(** The list [merged] after each stage of [merge_provider_matches]. *)
Definition espn_stage (merged espn_rows : list Row)
    (goal_espn_links : list MatchLink) : list Row :=
  let '(merged, linked_espn) :=
    fold_left (espn_step espn_rows) goal_espn_links (merged, ∅) in
  append_unlinked seed_espn linked_espn 0 espn_rows merged.

Definition sofa_stage (merged sofa_rows : list Row)
    (merged_sofa_links : list MatchLink) : list Row :=
  let '(merged, linked_sofa) :=
    fold_left (sofa_step sofa_rows) merged_sofa_links (merged, ∅) in
  append_unlinked seed_sofa linked_sofa 0 sofa_rows merged.

Definition streamed_stage (merged streamed_rows : list Row)
    (stream_links : list MatchLink) : list Row :=
  fold_left (stream_step streamed_rows) stream_links merged.

Definition merge_provider_matches
    (goal_rows espn_rows streamed_rows : list Row)
    (sofa_rows : option (list Row)) : result (list Row) :=
  let sofa_rows := default [] sofa_rows in
  let merged := seed_goal <$> goal_rows in
  goal_espn_links <- _match_records merged espn_rows 180 0.76 ;;
  let merged := espn_stage merged espn_rows goal_espn_links in
  merged_sofa_links <- _match_records merged sofa_rows 180 0.78 ;;
  let merged := sofa_stage merged sofa_rows merged_sofa_links in
  stream_links <- _match_records merged streamed_rows 180 0.80 ;;
  let merged := streamed_stage merged streamed_rows stream_links in
  Ok (sort_rows merged).

(** *** The quality gate *)

(** The first half of the loop body of [_apply_quality_gate]: the annotated
    copy of the row, and [is_stale]. *)
Definition annotate (max_live_stale_seconds : Z) (reference_time : Z)
    (row : Row) : Row * bool :=
  let candidate := row in
  let last_updated := normalize.parse_iso_utc (last_updated_utc candidate) in
  let age_seconds :=
    match last_updated with
    | Some updated =>
        Some (py_max 0 (normalize.total_seconds reference_time updated))
    | None => None
    end in
  let candidate := set_last_update_age_seconds age_seconds candidate in
  let status := lower (str_or (status candidate) (ustr "unknown")) in
  let is_stale :=
    bool_decide (status = ustr "live")
    && match age_seconds with
       | None => true
       | Some age => Qgtb age (inject_Z max_live_stale_seconds)
       end in
  let candidate := set_is_stale (Some is_stale) candidate in
  let candidate :=
    if is_stale then
      set_staleness_reason
        (Some
           match age_seconds with
           | None => ustr "missing_last_update"
           | Some _ =>
               ustr "older_than_" ++ str_of_int max_live_stale_seconds
               ++ ustr "_seconds"
           end)
        candidate
    else candidate in
  (candidate, is_stale).

(** One turn of the loop; the state is [kept], [dropped_stale] and
    [dropped_conflicts]. *)
Definition gate_step (max_live_stale_seconds : Z) (reference_time : Z)
    (include_stale include_conflicts : bool) (st : list Row * nat * nat)
    (row : Row) : list Row * nat * nat :=
  let '(kept, dropped_stale, dropped_conflicts) := st in
  let '(candidate, is_stale) :=
    annotate max_live_stale_seconds reference_time row in
  if bool_decide (verification candidate = Some (ustr "score_conflict"))
     && negb include_conflicts
  then (kept, dropped_stale, S dropped_conflicts)
  else if is_stale && negb include_stale
  then (kept, S dropped_stale, dropped_conflicts)
  else (kept ++ [candidate], dropped_stale, dropped_conflicts).

(** [utc_now_iso] is the reading of the clock, taken by the caller. *)
Definition _apply_quality_gate (max_live_stale_seconds : Z)
    (utc_now_iso : pystr) (matches : list Row)
    (generated_at_utc : option pystr) (include_stale include_conflicts : bool)
  : list Row * nat * nat :=
  let reference_time :=
    match normalize.parse_iso_utc generated_at_utc with
    | Some t => Some t
    | None => normalize.parse_iso_utc (Some utc_now_iso)
    end in
  match reference_time with
  | None => (matches, 0, 0)
  | Some reference_time =>
      fold_left
        (gate_step max_live_stale_seconds reference_time include_stale
           include_conflicts)
        matches ([], 0, 0)
  end.

(** *** The filters and the query *)

Definition _filter_matches (matches : list Row)
    (status_arg source_arg league : option pystr) : list Row :=
  let filtered := matches in
  let normalized_status := lower (strip (str_or status_arg (ustr "all"))) in
  let filtered :=
    if bool_decide (normalized_status ≠ [])
       && negb (bool_decide (normalized_status ∈ [ustr "all"; ustr "*"]))
    then
      let wanted_statuses :=
        (fun entry => lower (strip entry))
        <$> filter (fun entry => strip entry ≠ [])
              (split_on 44%N normalized_status) in
      filter
        (fun row => lower (str_or (status row) []) ∈ wanted_statuses)
        filtered
    else filtered in
  let normalized_source := lower (strip (str_or source_arg (ustr "all"))) in
  let filtered :=
    if bool_decide (normalized_source ≠ [])
       && negb (bool_decide (normalized_source ∈ [ustr "all"; ustr "*"]))
    then
      filter (fun row => normalized_source ∈ lower <$> sources row) filtered
    else filtered in
  if truthy league then
    let needle := lower (strip (default [] league)) in
    match needle with
    | [] => filtered
    | _ :: _ =>
        filter
          (fun row =>
             contains needle (lower (str_or (competition row) [])) = true)
          filtered
    end
  else filtered.

(** The snapshot [_refresh_if_needed] returns, and the answer of
    [get_scores]. *)
Record ProviderState := {
  provider_ok : bool;
  provider_count : nat;
  provider_error : option pystr
}.

Record Payload := {
  generated_at_utc : option pystr;
  matches : list Row;
  count : nat;
  providers : gmap pystr ProviderState
}.

Record Scores := {
  scores_payload : Payload;
  quality_max_live_stale_seconds : Z;
  quality_include_stale : bool;
  quality_include_conflicts : bool;
  dropped_stale_count : nat;
  dropped_conflict_count : nat;
  filters_status : option pystr;
  filters_source : option pystr;
  filters_league : option pystr
}.

(** [get_scores] from the payload of the refresh on: the filters, the
    quality gate, and the answer. [utc_now_iso] is the reading of the clock
    the gate falls back on. *)
Definition get_scores (max_live_stale_seconds : Z) (utc_now_iso : pystr)
    (payload : Payload) (status source league : option pystr)
    (include_stale include_conflicts : bool) : Scores :=
  let filtered := _filter_matches (matches payload) status source league in
  let '(filtered, dropped_stale, dropped_conflicts) :=
    _apply_quality_gate max_live_stale_seconds utc_now_iso filtered
      (generated_at_utc payload) include_stale include_conflicts in
  {| scores_payload :=
       {| generated_at_utc := generated_at_utc payload;
          matches := filtered;
          count := length filtered;
          providers := providers payload |};
     quality_max_live_stale_seconds := max_live_stale_seconds;
     quality_include_stale := include_stale;
     quality_include_conflicts := include_conflicts;
     dropped_stale_count := dropped_stale;
     dropped_conflict_count := dropped_conflicts;
     filters_status := status;
     filters_source := source;
     filters_league := league |}.

(** *** What the linker guarantees *)

(** Candidate [j] can be claimed for [base]: it is not used yet and the
    inner loop gives it the final score [s] and the orientation [sw]. *)
Definition eligible (max_minutes_diff : Q) (used : gset nat) (base : Row)
    (candidate_rows : list Row) (j : nat) (s : Q) (sw : bool) : Prop :=
  (j ∉ used) ∧
  exists candidate,
    candidate_rows !! j = Some candidate ∧
    candidate_score max_minutes_diff base candidate = Ok (Some (s, sw)).

(** [best] is what the inner loop holds after the candidates of
    [candidate_rows]: nothing when none can be claimed, otherwise the first
    of the candidates with the greatest final score. *)
Definition best_of (max_minutes_diff : Q) (used : gset nat) (bi : nat)
    (base : Row) (candidate_rows : list Row) (best : option MatchLink)
  : Prop :=
  match best with
  | None =>
      forall j s sw,
        ¬ eligible max_minutes_diff used base candidate_rows j s sw
  | Some b =>
      base_index b = bi ∧
      eligible max_minutes_diff used base candidate_rows
        (candidate_index b) (similarity b) (swapped b) ∧
      forall j s sw,
        eligible max_minutes_diff used base candidate_rows j s sw ->
        (s <= similarity b)%Q ∧
        ((s == similarity b)%Q -> candidate_index b ≤ j)
  end.

(** The candidates used when a link is made are those of the links made
    before it. *)
Definition claimed (links : list MatchLink) : gset nat :=
  list_to_set (candidate_index <$> links).

(** Link [l], made after the links [earlier], is a correct choice. *)
Definition link_ok (base_rows candidate_rows : list Row)
    (max_minutes_diff min_similarity : Q) (earlier : list MatchLink)
    (l : MatchLink) : Prop :=
  (exists base,
      base_rows !! base_index l = Some base ∧
      best_of max_minutes_diff (claimed earlier) (base_index l) base
        candidate_rows (Some l)) ∧
  (min_similarity <= similarity l)%Q ∧
  Forall (fun e => base_index e < base_index l) earlier.

Definition links_ok (base_rows candidate_rows : list Row)
    (max_minutes_diff min_similarity : Q) (links : list MatchLink) : Prop :=
  forall earlier l later,
    links = earlier ++ l :: later ->
    link_ok base_rows candidate_rows max_minutes_diff min_similarity
      earlier l.

End Service.

End service.

(** ** A small executable runtime, and sample rows

    The definitions above run on any [PyRuntime]. To evaluate them on concrete
    rows this section gives one that covers the inputs of the test suite:
    ASCII text (which is its own NFKD form and has no combining marks), and
    timestamps of the one shape [YYYY-MM-DDTHH:MM:SS] followed by nothing or by
    [+00:00]. Its [ratio] is a stand-in for the matcher of [difflib] (twice the
    length of the common prefix over the total length): it agrees with it on
    equal strings and on strings that differ in the first character. *)

Module samples.

Definition lower_char (c : codepoint) : codepoint :=
  if ((65 <=? c) && (c <=? 90))%N then (c + 32)%N else c.

Fixpoint common_prefix (a b : pystr) : nat :=
  match a, b with
  | x :: a', y :: b' => if (x =? y)%N then S (common_prefix a' b') else 0
  | _, _ => 0
  end.

Definition prefix_ratio (a b : pystr) : Q :=
  match (length a + length b)%nat with
  | 0 => 1%Q
  | S n => (Z.of_nat (2 * common_prefix a b) # Pos.of_succ_nat n)%Q
  end.

Definition digit (c : codepoint) : option Z :=
  if ((48 <=? c) && (c <=? 57))%N then Some (Z.of_N c - 48)%Z else None.

Fixpoint digits (acc : Z) (s : pystr) : option Z :=
  match s with
  | [] => Some acc
  | c :: s' =>
      match digit c with
      | Some d => digits (10 * acc + d)%Z s'
      | None => None
      end
  end.

(** Days from 1970-01-01 to a date of the proleptic Gregorian calendar. *)
Definition days_from_civil (y m d : Z) : Z :=
  let y := (if m <=? 2 then y - 1 else y)%Z in
  let era := (y / 400)%Z in
  let yoe := (y - era * 400)%Z in
  let mp := ((m + 9) mod 12)%Z in
  let doy := ((153 * mp + 2) / 5 + d - 1)%Z in
  let doe := (yoe * 365 + yoe / 4 - yoe / 100 + doy)%Z in
  (era * 146097 + doe - 719468)%Z.

Definition field (s : pystr) (from len : nat) : option Z :=
  digits 0 (take len (drop from s)).

Definition iso_seconds (s : pystr) : option datetime :=
  if bool_decide
       (s !! 4 = Some 45%N ∧ s !! 7 = Some 45%N ∧ s !! 10 = Some 84%N
        ∧ s !! 13 = Some 58%N ∧ s !! 16 = Some 58%N)
  then
    match field s 0 4, field s 5 2, field s 8 2,
          field s 11 2, field s 14 2, field s 17 2 with
    | Some y, Some m, Some d, Some hh, Some mm, Some ss =>
        let wall :=
          ((days_from_civil y m d * 86400 + hh * 3600 + mm * 60 + ss)
           * 1000000)%Z in
        if bool_decide (drop 19 s = []) then
          Some {| wall_us := wall; utcoffset_us := None |}
        else if bool_decide (drop 19 s = ustr "+00:00") then
          Some {| wall_us := wall; utcoffset_us := Some 0%Z |}
        else None
    | _, _, _, _, _, _ => None
    end
  else None.

Definition runtime : PyRuntime := {|
  nfkd := fun s => s;
  combining := fun _ => 0%N;
  lower := map lower_char;
  ratio := prefix_ratio;
  fromisoformat := iso_seconds
|}.

(** The rows of [tests/footballapi/test_service.py], at a fixed time. *)
Definition noon : pystr := ustr "2024-05-01T12:00:00Z".

Definition goal_row (home away : Z) : Row := {|
  provider := Some (ustr "goal");
  provider_match_id := Some (ustr "goal-1");
  competition := Some (ustr "Cup");
  home_team := Some (ustr "Alpha FC");
  away_team := Some (ustr "Beta FC");
  home_score := Some home;
  away_score := Some away;
  status := Some (ustr "live");
  raw_status := Some (ustr "LIVE");
  period := Some (ustr "SECOND_HALF");
  minute := Some 77%Z;
  extra_minute := Some 0%Z;
  start_time_utc := Some noon;
  last_updated_utc := Some noon;
  venue := Some (ustr "Alpha Stadium");
  streamed_watch_url := None;
  discrepancies := [];
  sources := [];
  external_ids := ∅;
  confidence := 0;
  verification := None;
  last_update_age_seconds := None;
  is_stale := None;
  staleness_reason := None
|}.

Definition espn_row (home away : Z) : Row := {|
  provider := Some (ustr "espn");
  provider_match_id := Some (ustr "espn-1");
  competition := Some (ustr "Cup");
  home_team := Some (ustr "Alpha FC");
  away_team := Some (ustr "Beta FC");
  home_score := Some home;
  away_score := Some away;
  status := Some (ustr "live");
  raw_status := Some (ustr "STATUS_IN_PROGRESS");
  period := Some (ustr "Second Half");
  minute := Some 77%Z;
  extra_minute := Some 0%Z;
  start_time_utc := Some noon;
  last_updated_utc := Some noon;
  venue := Some (ustr "Alpha Stadium");
  streamed_watch_url := None;
  discrepancies := [];
  sources := [];
  external_ids := ∅;
  confidence := 0;
  verification := None;
  last_update_age_seconds := None;
  is_stale := None;
  staleness_reason := None
|}.

Definition streamed_row (watch_url : option pystr) : Row := {|
  provider := Some (ustr "streamed");
  provider_match_id := Some (ustr "alpha-vs-beta-123");
  competition := None;
  home_team := Some (ustr "Alpha FC");
  away_team := Some (ustr "Beta FC");
  home_score := None;
  away_score := None;
  status := Some (ustr "unknown");
  raw_status := None;
  period := None;
  minute := None;
  extra_minute := None;
  start_time_utc := Some noon;
  last_updated_utc := Some noon;
  venue := None;
  streamed_watch_url := watch_url;
  discrepancies := [];
  sources := [];
  external_ids := ∅;
  confidence := 0;
  verification := None;
  last_update_age_seconds := None;
  is_stale := None;
  staleness_reason := None
|}.

Definition watch_url : pystr :=
  ustr "https://streamed.pk/watch/alpha-vs-beta-123".

(** Two anchor rows of the same fixture against two identical ESPN rows:
    every pair has the same final score. *)
Definition twin_links : list service.MatchLink :=
  Eval vm_compute in
    match
      @service._match_records runtime [goal_row 2 1; goal_row 2 1]
        [espn_row 1 1; espn_row 1 1] 180 0.76
    with
    | service.Ok links => links
    | service.ZeroDivisionError => []
    end.

Definition twin_first : service.MatchLink :=
  Eval vm_compute in
    default (service.Build_MatchLink 0 0 0 false) (twin_links !! 0).

End samples.

(** ** Notions used to state the properties *)

Import service.

(** What the Unicode tables do on the characters of the class [[a-z0-9 ]]:
    they are their own NFKD form, they are not combining marks, and they are
    their own lower case. *)
Class AsciiStable (rt : PyRuntime) : Prop := {
  nfkd_kept :
    forall s, Forall (fun c => normalize.re_keep c = true) s -> nfkd s = s;
  combining_kept :
    forall c, normalize.re_keep c = true -> combining c = 0%N;
  lower_kept :
    forall s, Forall (fun c => normalize.re_keep c = true) s -> lower s = s
}.

(** A token: not empty, made of characters of the class other than blanks. *)
Definition token (w : pystr) : Prop :=
  w ≠ []
  ∧ Forall (fun c => normalize.re_keep c = true ∧ py_isspace c = false) w.

(** The loop bodies as updates of the base row of a link. *)
Definition espn_update `{PyRuntime} (espn_rows : list Row) (link : MatchLink)
    (goal_row : Row) : Row :=
  match espn_rows !! candidate_index link with
  | Some espn_row => merge_espn_row link goal_row espn_row
  | None => goal_row
  end.

Definition sofa_update `{PyRuntime} (sofa_rows : list Row) (link : MatchLink)
    (merged_row : Row) : Row :=
  match sofa_rows !! candidate_index link with
  | Some sofa_row => merge_sofa_row merged_row sofa_row
  | None => merged_row
  end.

Definition stream_update (streamed_rows : list Row) (link : MatchLink)
    (merged_row : Row) : Row :=
  match streamed_rows !! candidate_index link with
  | Some streamed_row => merge_streamed_row merged_row streamed_row
  | None => merged_row
  end.

(** A loop that updates, for each link, the element at the index of the
    link. *)
Definition fold_alter {A L : Type} (idx : L -> nat) (f : L -> A -> A)
    (links : list L) (m : list A) : list A :=
  fold_left (fun m l => alter (f l) (idx l) m) links m.

(** From [r] to [r'] no known score became unknown, and a fully known pair
    stayed as it was. *)
Definition keeps_scores (r r' : Row) : Prop :=
  (is_Some (home_score r) -> is_Some (home_score r')) ∧
  (is_Some (away_score r) -> is_Some (away_score r')) ∧
  (is_Some (home_score r) -> is_Some (away_score r) ->
   _score_pair r' = _score_pair r).

(** The adjustment of the confidence of a fresh link by the comparison of the
    two score pairs: the confirmation floor, the conflict ceiling, the fill
    floor, or nothing. *)
Definition score_adjustment (ours theirs : option Z * option Z)
    (confirm_floor conflict_ceiling fill_floor fresh : Q) : Q :=
  match ours, theirs with
  | (Some h, Some a), (Some h', Some a') =>
      if decide (h = h' ∧ a = a') then py_max fresh confirm_floor
      else py_min fresh conflict_ceiling
  | (Some h, Some a), _ => fresh
  | _, (Some _, Some _) => py_max fresh fill_floor
  | _, _ => fresh
  end.

(** Both scores of the pair are known. *)
Definition fully_known (pair : option Z * option Z) : Prop :=
  is_Some pair.1 ∧ is_Some pair.2.

(** [r'] is [r] up to the three keys the streamed stage may assign. *)
Definition same_but_stream_keys (r r' : Row) : Prop :=
  r' = set_external_ids (external_ids r')
         (set_sources (sources r')
            (set_streamed_watch_url (streamed_watch_url r') r)).

(** The reference time of the quality gate: the generation time of the
    snapshot, or else the reading of the clock. *)
Definition reference_time `{PyRuntime} (generated_at_utc : option pystr)
    (utc_now_iso : pystr) : option Z :=
  match normalize.parse_iso_utc generated_at_utc with
  | Some t => Some t
  | None => normalize.parse_iso_utc (Some utc_now_iso)
  end.

(** The age of a row at the reference time: [max(0, reference - updated)] in
    seconds when the last update parses, absent otherwise. *)
Definition row_age `{PyRuntime} (reference : Z) (row : Row) : option Q :=
  match normalize.parse_iso_utc (last_updated_utc row) with
  | Some updated => Some (py_max 0 (normalize.total_seconds reference updated))
  | None => None
  end.

(** The status the quality gate reads. *)
Definition gate_status `{PyRuntime} (row : Row) : pystr :=
  lower (str_or (status row) (ustr "unknown")).

(** A live row without age, or older than the threshold. *)
Definition stale_condition `{PyRuntime} (max_live_stale_seconds reference : Z)
    (row : Row) : Prop :=
  gate_status row = ustr "live" ∧
  (row_age reference row = None ∨
   exists age,
     row_age reference row = Some age
     ∧ (inject_Z max_live_stale_seconds < age)%Q).

(** A live row that was never updated and whose two sources disagree. *)
Definition conflicted_stale_row : Row :=
  set_verification (Some (ustr "score_conflict"))
    (set_last_updated_utc None (seed_goal (samples.goal_row 2 1))).

(** A second-source row of the sample fixture that carries no score. *)
Definition scoreless_espn_row : Row :=
  set_away_score None (set_home_score None (samples.espn_row 0 0)).

(** *** Provenance

    A canonical row with the provider rows it was built from, each under the
    id of its source, in the order they were folded in. *)
Definition Traced : Type := Row * list (pystr * Row).

Definition traced_seed (source : string) (seed : Row -> Row) (row : Row)
    : Traced :=
  (seed row, [(ustr source, row)]).

Definition traced_espn_update `{PyRuntime} (espn_rows : list Row)
    (link : MatchLink) (t : Traced) : Traced :=
  match espn_rows !! candidate_index link with
  | Some espn_row =>
      (merge_espn_row link t.1 espn_row, t.2 ++ [(ustr "espn", espn_row)])
  | None => t
  end.

Definition traced_sofa_update `{PyRuntime} (sofa_rows : list Row)
    (link : MatchLink) (t : Traced) : Traced :=
  match sofa_rows !! candidate_index link with
  | Some sofa_row =>
      (merge_sofa_row t.1 sofa_row, t.2 ++ [(ustr "sofascore", sofa_row)])
  | None => t
  end.

(** A streamed row contributes when its watch URL is attached. *)
Definition traced_stream_update (streamed_rows : list Row) (link : MatchLink)
    (t : Traced) : Traced :=
  match streamed_rows !! candidate_index link with
  | Some streamed_row =>
      (merge_streamed_row t.1 streamed_row,
       if truthy (streamed_watch_url streamed_row)
       then t.2 ++ [(ustr "streamed", streamed_row)]
       else t.2)
  | None => t
  end.

(** The rows [append_unlinked] seeds: those whose index no link has
    claimed. *)
Fixpoint unlinked_rows (linked : gset nat) (index : nat) (rows : list Row)
    : list Row :=
  match rows with
  | [] => []
  | row :: rest =>
      if bool_decide (index ∈ linked) then unlinked_rows linked (S index) rest
      else row :: unlinked_rows linked (S index) rest
  end.

(** [merge_provider_matches] before the final sort, with the provenance of
    every row. *)
Definition traced_merge `{PyRuntime}
    (goal_rows espn_rows streamed_rows : list Row)
    (sofa_rows : option (list Row)) : result (list Traced) :=
  let sofa_rows := default [] sofa_rows in
  let merged := traced_seed "goal" seed_goal <$> goal_rows in
  goal_espn_links <- _match_records (merged.*1) espn_rows 180 0.76 ;;
  let merged :=
    fold_alter base_index (traced_espn_update espn_rows) goal_espn_links
      merged
    ++ (traced_seed "espn" seed_espn
        <$> unlinked_rows (claimed goal_espn_links) 0 espn_rows) in
  merged_sofa_links <- _match_records (merged.*1) sofa_rows 180 0.78 ;;
  let merged :=
    fold_alter base_index (traced_sofa_update sofa_rows) merged_sofa_links
      merged
    ++ (traced_seed "sofascore" seed_sofa
        <$> unlinked_rows (claimed merged_sofa_links) 0 sofa_rows) in
  stream_links <- _match_records (merged.*1) streamed_rows 180 0.80 ;;
  Ok (fold_alter base_index (traced_stream_update streamed_rows) stream_links
        merged).

(** The status the merge reads from a row: absent or empty is [unknown]. *)
Definition observed_status (row : Row) : pystr :=
  str_or (status row) (ustr "unknown").

(** [s] is the highest-priority status of the list, the earliest one among
    those of equal priority. *)
Definition highest_priority_first (observed : list pystr) (s : pystr) : Prop :=
  exists k,
    observed !! k = Some s ∧
    (forall j t,
        observed !! j = Some t -> (status_priority t <= status_priority s)%Z) ∧
    (forall j t,
        j < k -> observed !! j = Some t ->
        (status_priority t < status_priority s)%Z).

(** The contributors whose status the merge consults: all but the streamed
    ones. *)
Definition scoring (contributors : list (pystr * Row)) : list (pystr * Row) :=
  filter (fun c => c.1 ≠ ustr "streamed") contributors.

(** Every contributor is a row of the input of its source. *)
Definition from_inputs (goal_rows espn_rows streamed_rows sofa_rows : list Row)
    (contributors : list (pystr * Row)) : Prop :=
  Forall
    (fun c =>
       (c.1 = ustr "goal" ∧ c.2 ∈ goal_rows)
       ∨ (c.1 = ustr "espn" ∧ c.2 ∈ espn_rows)
       ∨ (c.1 = ustr "sofascore" ∧ c.2 ∈ sofa_rows)
       ∨ (c.1 = ustr "streamed" ∧ c.2 ∈ streamed_rows))
    contributors.

(** A finished anchor row, and a streamed row of the same fixture that says
    live and has a watch URL. *)
Definition finished_goal_row : Row :=
  set_status (Some (ustr "finished")) (samples.goal_row 2 1).

Definition live_streamed_row : Row :=
  set_status (Some (ustr "live"))
    (samples.streamed_row (Some samples.watch_url)).

(** What holds of every canonical row [t.1] and its contributors [t.2]: they
    are rows of the inputs, their source ids are the sources of the row, and
    the status of the row is the highest-priority status, the earliest in case
    of a tie, among the contributors the merge consults; among all of them
    when the streamed rows only carry statuses of priority 0, as the rows of
    the streamed provider do. *)
Definition traced_ok (goal_rows espn_rows streamed_rows sofa_rows : list Row)
    (t : Traced) : Prop :=
  from_inputs goal_rows espn_rows streamed_rows sofa_rows t.2 ∧
  (forall src, src ∈ sources t.1 <-> src ∈ t.2.*1) ∧
  highest_priority_first (observed_status <$> (scoring t.2).*2)
    (observed_status t.1) ∧
  (Forall (fun row => status_priority (observed_status row) = 0%Z)
     streamed_rows ->
   highest_priority_first (observed_status <$> t.2.*2) (observed_status t.1)).

(** ** Notions used to state further properties *)

(** Base row [b] has no link and could not have one: every candidate that no
    link of an earlier base row has taken, and that the inner loop scores,
    scores below the threshold. *)
Definition no_candidate_left `{PyRuntime} (base_rows candidate_rows : list Row)
    (max_minutes_diff min_similarity : Q) (links : list MatchLink) (b : nat)
  : Prop :=
  forall base,
    base_rows !! b = Some base ->
    (forall l, l ∈ links -> base_index l ≠ b) ->
    forall j candidate s sw,
      candidate_rows !! j = Some candidate ->
      (forall l, l ∈ links -> base_index l < b -> candidate_index l ≠ j) ->
      candidate_score max_minutes_diff base candidate = Ok (Some (s, sw)) ->
      (s < min_similarity)%Q.

(** An ESPN row of another fixture, and its score against the sample anchor
    row. *)
Definition gamma_row : Row :=
  set_away_score (Some 0%Z)
    {| provider := Some (ustr "espn");
       provider_match_id := Some (ustr "espn-2");
       competition := Some (ustr "Cup");
       home_team := Some (ustr "Gamma FC");
       away_team := Some (ustr "Delta FC");
       home_score := Some 0%Z;
       away_score := None;
       status := Some (ustr "finished");
       raw_status := Some (ustr "STATUS_FULL_TIME");
       period := None;
       minute := None;
       extra_minute := None;
       start_time_utc := Some samples.noon;
       last_updated_utc := Some samples.noon;
       venue := None;
       streamed_watch_url := None;
       discrepancies := [];
       sources := [];
       external_ids := ∅;
       confidence := 0;
       verification := None;
       last_update_age_seconds := None;
       is_stale := None;
       staleness_reason := None |}.

Definition gamma_score : Q * bool :=
  Eval vm_compute in
    match
      @candidate_score samples.runtime 180 (samples.goal_row 2 1) gamma_row
    with
    | Ok (Some scored) => scored
    | _ => (0%Q, false)
    end.

(** The later of two optional instants. *)
Definition later (a b : option Z) : option Z :=
  match a, b with
  | Some l, Some r => Some (Z.max l r)
  | Some l, None => Some l
  | None, other => other
  end.

(** From [r] to [r'] a merge stage only adds: discrepancies and sources are
    appended to, a competition or venue that was there stays, and the keys
    that identify the fixture are not touched. *)
Definition grows (r r' : Row) : Prop :=
  discrepancies r `prefix_of` discrepancies r' ∧
  sources r `prefix_of` sources r' ∧
  (truthy (competition r) = true -> competition r' = competition r) ∧
  (truthy (venue r) = true -> venue r' = venue r) ∧
  provider r' = provider r ∧
  provider_match_id r' = provider_match_id r ∧
  home_team r' = home_team r ∧
  away_team r' = away_team r ∧
  start_time_utc r' = start_time_utc r ∧
  raw_status r' = raw_status r ∧
  period r' = period r ∧
  minute r' = minute r ∧
  extra_minute r' = extra_minute r.

(** The origin of a canonical row [t.1] in its contributors [t.2]: the keys
    that identify the fixture are those of the first contributor, the row
    that seeded it, whose source comes first in [sources]; [external_ids]
    maps each source to the native id of its last contributor; and the last
    update is the [last_updated_utc] of one of the contributors the merge
    consults, the instant it denotes being the latest of theirs. *)
Definition traced_origin `{PyRuntime} (t : Traced) : Prop :=
  (exists source seed others,
      t.2 = (source, seed) :: others ∧
      head (sources t.1) = Some source ∧
      provider t.1 = provider seed ∧
      provider_match_id t.1 = provider_match_id seed ∧
      home_team t.1 = home_team seed ∧
      away_team t.1 = away_team seed ∧
      start_time_utc t.1 = start_time_utc seed) ∧
  (forall source,
      external_ids t.1 !! source
      = (fun c => provider_match_id c.2)
        <$> last (filter (fun c => c.1 = source) t.2)) ∧
  last_updated_utc t.1 ∈ (fun c => last_updated_utc c.2) <$> scoring t.2 ∧
  normalize.parse_iso_utc (last_updated_utc t.1)
  = foldl later None
      ((fun c => normalize.parse_iso_utc (last_updated_utc c.2))
       <$> scoring t.2).

(** The order of Python on the sort keys, as a three-way comparison. *)
Definition key_compare (k1 k2 : Z * pystr * pystr) : comparison :=
  let '(rank1, start1, name1) := k1 in
  let '(rank2, start2, name2) := k2 in
  match (rank1 ?= rank2)%Z with
  | Eq =>
      match str_compare start1 start2 with
      | Eq => str_compare name1 name2
      | c => c
      end
  | c => c
  end.

(** The rows come in the order of their sort keys: no row has a key smaller
    than that of a row before it. *)
Fixpoint rows_sorted `{PyRuntime} (rows : list Row) : Prop :=
  match rows with
  | [] => True
  | row :: rest =>
      Forall (fun other => key_lt (_sort_key other) (_sort_key row) = false)
        rest
      ∧ rows_sorted rest
  end.

(** The two ways the quality gate leaves a row out: as a conflict, or else
    as stale. *)
Definition dropped_as_conflict (include_conflicts : bool) (row : Row) : bool :=
  bool_decide (verification row = Some (ustr "score_conflict"))
  && negb include_conflicts.

Definition dropped_as_stale `{PyRuntime} (max_live_stale_seconds reference : Z)
    (include_stale include_conflicts : bool) (row : Row) : bool :=
  negb (dropped_as_conflict include_conflicts row)
  && (annotate max_live_stale_seconds reference row).2
  && negb include_stale.

(** What the three filters of [_filter_matches] ask of a row. *)
Definition status_selected `{PyRuntime} (status_arg : option pystr)
    (row : Row) : Prop :=
  let normalized_status := lower (strip (str_or status_arg (ustr "all"))) in
  normalized_status = [] ∨ normalized_status = ustr "all"
  ∨ normalized_status = ustr "*"
  ∨ exists entry,
      entry ∈ split_on 44%N normalized_status ∧ strip entry ≠ [] ∧
      lower (str_or (status row) []) = lower (strip entry).

Definition source_selected `{PyRuntime} (source_arg : option pystr)
    (row : Row) : Prop :=
  let normalized_source := lower (strip (str_or source_arg (ustr "all"))) in
  normalized_source = [] ∨ normalized_source = ustr "all"
  ∨ normalized_source = ustr "*"
  ∨ exists src, src ∈ sources row ∧ lower src = normalized_source.

Definition league_selected `{PyRuntime} (league : option pystr) (row : Row)
  : Prop :=
  truthy league = false
  ∨ lower (strip (default [] league)) = []
  ∨ contains (lower (strip (default [] league)))
      (lower (str_or (competition row) [])) = true.

(** The first contributor of a canonical row is the row that seeded it, a
    row of the anchor, second or third input. *)
Definition seeded (goal_rows espn_rows sofa_rows : list Row) (t : Traced)
  : Prop :=
  exists source seed others,
    t.2 = (source, seed) :: others ∧
    ((source = ustr "goal" ∧ seed ∈ goal_rows)
     ∨ (source = ustr "espn" ∧ seed ∈ espn_rows)
     ∨ (source = ustr "sofascore" ∧ seed ∈ sofa_rows)).

(** The rows of one source among the contributors of the canonical rows. *)
Definition contributed (source : string) (traced : list Traced) : list Row :=
  (filter (fun c => c.1 = ustr source) (concat (traced.*2))).*2.

(** The sample anchor row merged with its ESPN twin and the ESPN row of
    another fixture. *)
Definition merged_sample : list Row :=
  Eval vm_compute in
    match
      @merge_provider_matches samples.runtime [samples.goal_row 2 1]
        [samples.espn_row 2 1; gamma_row] [] None
    with
    | Ok out => out
    | ZeroDivisionError => []
    end.
(** * Proofs: the normalizer *)

Import normalize.

Lemma filter_all {A} (P : A -> Prop) `{forall x, Decision (P x)} (l : list A) :
  Forall P l -> filter P l = l.
Proof.
  induction 1 as [|x l Hx _ IH]; [done|].
  by rewrite filter_cons_True, IH.
Qed.

Lemma re_sub_aux_kept b s : Forall (fun c => re_keep c = true) (re_sub_aux b s).
Proof.
  revert b. induction s as [|c s IH]; intros b; simpl; [constructor|].
  destruct (re_keep c) eqn:Hc; [by constructor|].
  destruct b; [apply IH|]. constructor; [done|apply IH].
Qed.

Lemma re_sub_aux_id b s :
  Forall (fun c => re_keep c = true) s -> re_sub_aux b s = s.
Proof.
  intros Hs. revert b.
  induction Hs as [|c s Hc _ IH]; intros b; simpl; [done|].
  by rewrite Hc, IH.
Qed.

Lemma split_aux_tokens s :
  Forall (fun c => re_keep c = true) s ->
  let '(w, ws) := split_aux s in
  Forall (fun c => re_keep c = true ∧ py_isspace c = false) w ∧ Forall token ws.
Proof.
  induction 1 as [|c s Hc _ IH]; simpl; [by split; constructor|].
  destruct (split_aux s) as [w ws]. destruct IH as [Hw Hws].
  destruct (py_isspace c) eqn:Hsp.
  - split; [constructor|]. destruct w; simpl; [done|].
    constructor; [by split|done].
  - split; [by constructor|done].
Qed.

Lemma split_tokens s :
  Forall (fun c => re_keep c = true) s -> Forall token (split s).
Proof.
  intros Hs. apply split_aux_tokens in Hs. unfold split.
  destruct (split_aux s) as [w ws]. destruct Hs as [Hw Hws].
  destruct w; simpl; [done|]. constructor; [by split|done].
Qed.

Lemma split_aux_token_app w s :
  Forall (fun c => re_keep c = true ∧ py_isspace c = false) w ->
  split_aux (w ++ s) = let '(w', ws) := split_aux s in (w ++ w', ws).
Proof.
  induction 1 as [|c w [_ Hc] _ IH]; simpl; [by destruct (split_aux s)|].
  rewrite IH. destruct (split_aux s). by rewrite Hc.
Qed.

Lemma split_aux_join p ps :
  Forall token (p :: ps) -> split_aux (join [32%N] (p :: ps)) = (p, ps).
Proof.
  revert p. induction ps as [|q ps IH]; intros p Hall.
  - simpl. apply Forall_inv in Hall as [_ Hp].
    pose proof (split_aux_token_app p [] Hp) as Hs. simpl in Hs.
    by rewrite !app_nil_r in Hs.
  - apply Forall_cons_1 in Hall as [[_ Hp] Hrest].
    change (join [32%N] (p :: q :: ps))
      with (p ++ 32%N :: join [32%N] (q :: ps)).
    rewrite split_aux_token_app by done.
    cbn [split_aux]. rewrite (IH q Hrest). simpl.
    apply Forall_inv in Hrest as [Hq _]. rewrite app_nil_r.
    by destruct q.
Qed.

Lemma split_join ps : Forall token ps -> split (join [32%N] ps) = ps.
Proof.
  destruct ps as [|p ps]; [done|]. intros Hall. unfold split.
  rewrite split_aux_join by done. apply Forall_inv in Hall as [Hp _].
  by destruct p.
Qed.

Lemma join_kept ps :
  Forall token ps -> Forall (fun c => re_keep c = true) (join [32%N] ps).
Proof.
  induction 1 as [|p ps [_ Hp] Hps IH]; [constructor|].
  assert (Forall (fun c => re_keep c = true) p) as Hp'.
  { eapply Forall_impl; [exact Hp|]. by intros c [? _]. }
  destruct ps as [|q ps]; [done|].
  change (join [32%N] (p :: q :: ps))
    with (p ++ 32%N :: join [32%N] (q :: ps)).
  apply Forall_app; split; [done|]. by constructor.
Qed.

Lemma join_nonempty p ps : token p -> join [32%N] (p :: ps) ≠ [].
Proof.
  intros [Hp _]. destruct p; [done|]. by destruct ps.
Qed.

Section NormalizeIdempotent.
Context `{AsciiStable}.

(** The result of a normalisation is a list of tokens, none of them a stop
    word, joined by single spaces. *)
Lemma normalize_team_name_shape name :
  exists parts,
    Forall token parts ∧ Forall (fun p => p ∉ TEAM_STOP_WORDS) parts ∧
    normalize_team_name name = join [32%N] parts.
Proof.
  unfold normalize_team_name. destruct (truthy name); simpl.
  2:{ exists []. by repeat split. }
  set (text := re_sub _).
  assert (Forall token (split text)) as Htok.
  { apply split_tokens, re_sub_aux_kept. }
  set (parts := filter _ (split text)).
  assert (Forall token parts) as Hparts.
  { apply Forall_forall. intros p Hp.
    apply list_elem_of_filter in Hp as [_ Hp].
    by eapply Forall_forall in Htok. }
  assert (Forall (fun p => p ∉ TEAM_STOP_WORDS) parts) as Hstop.
  { apply Forall_forall. intros p Hp.
    by apply list_elem_of_filter in Hp as [[_ ?] _]. }
  exists parts. repeat split; [done..|]. by destruct parts.
Qed.

(** C8. [normalize_team_name] is idempotent: normalising the result of a
    normalisation returns it unchanged, for every input (absent, empty or
    any string of code points). *)
Theorem normalize_team_name_idempotent (name : option pystr) :
  normalize_team_name (Some (normalize_team_name name))
  = normalize_team_name name.
Proof.
  destruct (normalize_team_name_shape name) as (parts & Htok & Hstop & ->).
  destruct parts as [|p ps]; [done|].
  pose proof (join_kept _ Htok) as Hkept.
  unfold normalize_team_name at 1.
  assert (truthy (Some (join [32%N] (p :: ps))) = true) as ->.
  { pose proof (join_nonempty p ps (Forall_inv Htok)).
    by destruct (join _ _). }
  simpl negb. cbv iota. cbn [default from_option id].
  rewrite (nfkd_kept _ Hkept).
  assert (filter (fun ch => combining ch = 0%N) (join [32%N] (p :: ps))
          = join [32%N] (p :: ps)) as ->.
  { apply filter_all. eapply Forall_impl; [exact Hkept|].
    intros c Hc. by apply combining_kept. }
  rewrite (lower_kept _ Hkept). unfold re_sub.
  rewrite (re_sub_aux_id _ _ Hkept), (split_join _ Htok).
  rewrite filter_all; [done|].
  apply Forall_forall. intros q Hq. split.
  - eapply Forall_forall in Htok as [? _]; done.
  - by eapply Forall_forall in Hstop.
Qed.
End NormalizeIdempotent.

Lemma ascii_runtime_stable : AsciiStable samples.runtime.
Proof.
  split.
  - done.
  - done.
  - intros s Hs. simpl. induction Hs as [|c s Hc _ IH]; [done|].
    simpl. rewrite IH. f_equal. unfold samples.lower_char.
    destruct ((65 <=? c)%N && (c <=? 90)%N) eqn:Hup; [|done].
    exfalso. unfold re_keep in Hc.
    apply andb_true_iff in Hup as [H1%N.leb_le H2%N.leb_le].
    repeat (apply orb_true_iff in Hc as [Hc|Hc]).
    + apply andb_true_iff in Hc as [H3%N.leb_le _]. lia.
    + apply andb_true_iff in Hc as [_ H3%N.leb_le]. lia.
    + apply N.eqb_eq in Hc. lia.
Qed.

Lemma normalize_team_name_idempotent_witness :
  @normalize_team_name samples.runtime
    (Some (@normalize_team_name samples.runtime
             (Some (ustr "  Alpha F.C. (Athletic) Club 1905"))))
  = @normalize_team_name samples.runtime
      (Some (ustr "  Alpha F.C. (Athletic) Club 1905")).
Proof.
  apply (@normalize_team_name_idempotent samples.runtime ascii_runtime_stable).
Defined.

(** * Proofs: the record linker *)

Import service.

(** *** Facts on the comparisons *)

Lemma Qltb_true x y : Qltb x y = true <-> (x < y)%Q.
Proof.
  unfold Qltb. rewrite negb_true_iff, <- not_true_iff_false, Qle_bool_iff.
  split; [apply Qnot_le_lt | apply Qlt_not_le].
Qed.

Lemma Qltb_false x y : Qltb x y = false <-> (y <= x)%Q.
Proof. unfold Qltb. by rewrite negb_false_iff, Qle_bool_iff. Qed.

Lemma py_min_le_r a b : (py_min a b <= b)%Q.
Proof.
  unfold py_min. destruct (Qltb b a) eqn:Hlt; [apply Qle_refl|].
  by apply Qltb_false in Hlt.
Qed.

Section Linker.
Context `{PyRuntime}.
Variable max_minutes_diff : Q.

Lemma eligible_app_l used base pre post j s sw :
  eligible max_minutes_diff used base pre j s sw ->
  eligible max_minutes_diff used base (pre ++ post) j s sw.
Proof.
  intros [Hj (c & Hc & Hs)]. split; [done|]. exists c. split; [|done].
  by apply lookup_app_l_Some.
Qed.

Lemma eligible_snoc used base pre c j s sw :
  eligible max_minutes_diff used base (pre ++ [c]) j s sw ->
  eligible max_minutes_diff used base pre j s sw ∨
  (j = length pre ∧ (j ∉ used) ∧
   candidate_score max_minutes_diff base c = Ok (Some (s, sw))).
Proof.
  intros [Hj (c' & Hc' & Hs)].
  apply lookup_app_Some in Hc' as [Hc'|[Hlen Hc']].
  - left. split; [done|]. by exists c'.
  - right. apply list_lookup_singleton_Some in Hc' as [Hz ->].
    split; [lia|done].
Qed.

Lemma eligible_lt used base cands j s sw :
  eligible max_minutes_diff used base cands j s sw -> j < length cands.
Proof. intros [_ (c & Hc & _)]. by eapply lookup_lt_Some. Qed.

(** The inner loop keeps [best_of]. *)
Lemma scan_candidates_spec used bi base post :
  forall pre best r,
    scan_candidates max_minutes_diff used bi base (length pre) post best
    = Ok r ->
    best_of max_minutes_diff used bi base pre best ->
    best_of max_minutes_diff used bi base (pre ++ post) r.
Proof.
  induction post as [|c post IH]; intros pre best r Hscan Hbest.
  { simpl in Hscan. injection Hscan as <-. by rewrite app_nil_r. }
  rewrite (cons_middle c pre post), app_assoc.
  cbn [scan_candidates] in Hscan.
  replace (S (length pre)) with (length (pre ++ [c])) in Hscan
    by (rewrite length_app; simpl; lia).
  case_bool_decide as Hused.
  { apply (IH _ _ _ Hscan). destruct best as [b|]; simpl in *.
    - destruct Hbest as (Hbi & Hel & Hmax). split_and!; [done| |].
      + by apply eligible_app_l.
      + intros j s sw [Hj|(-> & Hj & _)]%eligible_snoc; [eauto|done].
    - intros j s sw [Hj|(-> & Hj & _)]%eligible_snoc; [|done].
      by eapply Hbest. }
  destruct (candidate_score max_minutes_diff base c) as [[[s' sw']|]|]
    eqn:Hscore; simpl in Hscan; [| |done].
  2:{ apply (IH _ _ _ Hscan). destruct best as [b|]; simpl in *.
      - destruct Hbest as (Hbi & Hel & Hmax). split_and!; [done| |].
        + by apply eligible_app_l.
        + intros j s sw [Hj|(-> & _ & Hj)]%eligible_snoc; [eauto|].
          congruence.
      - intros j s sw [Hj|(-> & _ & Hj)]%eligible_snoc; [|congruence].
        by eapply Hbest. }
  apply (IH _ _ _ Hscan). clear IH Hscan.
  assert (eligible max_minutes_diff used base (pre ++ [c]) (length pre)
            s' sw') as Hnew.
  { split; [done|]. exists c. split; [|done].
    by rewrite lookup_app_r, Nat.sub_diag. }
  destruct best as [b|]; simpl in *.
  - destruct Hbest as (Hbi & Hel & Hmax).
    destruct (Qgtb s' (similarity b)) eqn:Hgt; simpl.
    + apply Qltb_true in Hgt. split_and!; [done..|].
      intros j s sw [Hj|(-> & _ & Hj)]%eligible_snoc.
      * destruct (Hmax _ _ _ Hj) as [Hle _]. split.
        -- apply Qlt_le_weak. by eapply Qle_lt_trans.
        -- intros Heq. rewrite Heq in Hle.
           by apply Qle_not_lt in Hle.
      * assert (s = s') as -> by congruence. split; [apply Qle_refl|done].
    + apply Qltb_false in Hgt. split_and!; [done| |].
      * by apply eligible_app_l.
      * intros j s sw [Hj|(-> & _ & Hj)]%eligible_snoc; [eauto|].
        assert (s = s') as -> by congruence. split; [done|].
        intros _. apply eligible_lt in Hel. lia.
  - split_and!; [done..|].
    intros j s sw [Hj|(-> & _ & Hj)]%eligible_snoc.
    + by apply Hbest in Hj.
    + assert (s = s') as -> by congruence. split; [apply Qle_refl|done].
Qed.

Lemma scan_candidates_best used bi base cands r :
  scan_candidates max_minutes_diff used bi base 0 cands None = Ok r ->
  best_of max_minutes_diff used bi base cands r.
Proof.
  intros Hscan. apply (scan_candidates_spec used bi base cands [] None r).
  - done.
  - intros j s sw [_ (c & Hc & _)]. done.
Qed.

Lemma claimed_snoc links b :
  claimed (links ++ [b]) = {[candidate_index b]} ∪ claimed links.
Proof.
  unfold claimed. rewrite fmap_app, list_to_set_app_L. simpl.
  rewrite (right_id_L ∅ (∪)). apply (comm_L (∪)).
Qed.

(** The outer loop keeps [links_ok]. *)
Lemma match_loop_spec all_rows cands min_similarity todo :
  forall finished links used r,
    all_rows = finished ++ todo ->
    match_loop cands max_minutes_diff min_similarity (length finished) todo
      links used = Ok r ->
    used = claimed links ->
    Forall (fun e => base_index e < length finished) links ->
    links_ok all_rows cands max_minutes_diff min_similarity links ->
    links_ok all_rows cands max_minutes_diff min_similarity r.
Proof.
  induction todo as [|base todo IH];
    intros finished links used r Hall Hloop Hused Hlt Hok.
  { simpl in Hloop. by injection Hloop as <-. }
  cbn [match_loop] in Hloop.
  destruct (scan_candidates max_minutes_diff used (length finished) base 0
              cands None) as [best|] eqn:Hscan; simpl in Hloop; [|done].
  apply scan_candidates_best in Hscan.
  assert (all_rows = (finished ++ [base]) ++ todo) as Hall'.
  { by rewrite <- app_assoc. }
  assert (length (finished ++ [base]) = S (length finished)) as Hlen.
  { rewrite length_app. simpl. lia. }
  assert (Forall (fun e => base_index e < length (finished ++ [base])) links)
    as Hlt'.
  { eapply Forall_impl; [exact Hlt|]. simpl. lia. }
  rewrite <- Hlen in Hloop.
  destruct best as [b|]; [|by eapply IH].
  destruct (Qltb (similarity b) min_similarity) eqn:Hmin; [by eapply IH|].
  apply Qltb_false in Hmin.
  pose proof Hscan as (Hbi & _).
  eapply IH; [exact Hall'|exact Hloop|by rewrite claimed_snoc, Hused| |].
  { apply Forall_app. split; [done|]. constructor; [lia|constructor]. }
  intros earlier l later Hsplit.
  destruct later as [|z later _] using rev_ind.
  - apply app_inj_tail in Hsplit as [-> ->]. split_and!; [|done|].
    + exists base. split; [|by rewrite Hbi; subst used].
      subst all_rows. by rewrite Hbi, list_lookup_middle.
    + by rewrite Hbi.
  - rewrite app_comm_cons, app_assoc in Hsplit.
    apply app_inj_tail in Hsplit as [-> _]. by eapply Hok.
Qed.

Lemma match_records_links_ok base_rows cands min_similarity links :
  _match_records base_rows cands max_minutes_diff min_similarity = Ok links ->
  links_ok base_rows cands max_minutes_diff min_similarity links.
Proof.
  intros Hrun.
  eapply (match_loop_spec base_rows cands min_similarity base_rows [] [] ∅);
    [done|exact Hrun|done|constructor|].
  intros earlier l later Hsplit. by destruct earlier.
Qed.

(** The division is the only operation that can raise: with a maximal gap
    other than zero the linker returns. *)
Lemma candidate_score_total base candidate :
  ¬ (max_minutes_diff == 0)%Q ->
  exists r, candidate_score max_minutes_diff base candidate = Ok r.
Proof.
  intros Hmax. unfold candidate_score.
  destruct (normalize.minutes_between _ _) as [gap|].
  - destruct (Qgtb gap max_minutes_diff); [by eexists|].
    destruct (normalize.team_pair_similarity _ _ _ _) as [s sw].
    destruct (Qeq_bool max_minutes_diff 0) eqn:Hz; [|by eexists].
    by apply Qeq_bool_iff in Hz.
  - destruct (normalize.team_pair_similarity _ _ _ _) as [s sw].
    by eexists.
Qed.

Lemma scan_candidates_total used bi base cands :
  ¬ (max_minutes_diff == 0)%Q ->
  forall i best,
  exists r, scan_candidates max_minutes_diff used bi base i cands best = Ok r.
Proof.
  intros Hmax. induction cands as [|c cands IH]; intros i best; simpl.
  { by eexists. }
  case_bool_decide; [apply IH|].
  destruct (candidate_score_total base c Hmax) as [[[s sw]|] ->]; simpl;
    apply IH.
Qed.

Lemma match_loop_total cands min_similarity base_rows :
  ¬ (max_minutes_diff == 0)%Q ->
  forall i links used,
  exists r,
    match_loop cands max_minutes_diff min_similarity i base_rows links used
    = Ok r.
Proof.
  intros Hmax. induction base_rows as [|base rest IH]; intros i links used.
  { by eexists. }
  cbn [match_loop].
  destruct (scan_candidates_total used i base cands Hmax 0 None)
    as [best ->]; simpl.
  destruct best as [b|]; [|apply IH].
  destruct (Qltb _ _); apply IH.
Qed.

(** [_match_records] returns whenever [max_minutes_diff] is not zero. *)
Lemma match_records_total base_rows cands min_similarity :
  ¬ (max_minutes_diff == 0)%Q ->
  exists links,
    _match_records base_rows cands max_minutes_diff min_similarity
    = Ok links.
Proof. intros Hmax. by apply match_loop_total. Qed.

(** **** Consequences of [links_ok] *)

Section LinksOk.
Variables (base_rows cands : list Row) (min_similarity : Q).
Variable links : list MatchLink.
Hypothesis Hok :
  links_ok base_rows cands max_minutes_diff min_similarity links.

Lemma links_ok_lookup j b :
  links !! j = Some b ->
  link_ok base_rows cands max_minutes_diff min_similarity
    (take j links) b.
Proof.
  intros Hj. eapply Hok. symmetry. by apply take_drop_middle.
Qed.

Lemma links_ok_ordered i j a b :
  links !! i = Some a -> links !! j = Some b -> i < j ->
  base_index a < base_index b ∧ candidate_index a ≠ candidate_index b.
Proof.
  intros Hi Hj Hlt.
  destruct (links_ok_lookup j b Hj)
    as ((base & _ & _ & [Hfree _] & _) & _ & Hbefore).
  assert (a ∈ take j links) as Ha.
  { apply list_elem_of_lookup. exists i. by rewrite lookup_take_lt. }
  split.
  - by eapply Forall_forall in Hbefore.
  - intros Heq. apply Hfree. rewrite <- Heq. unfold claimed.
    apply elem_of_list_to_set, list_elem_of_fmap. by exists a.
Qed.

Lemma links_ok_base_NoDup : NoDup (base_index <$> links).
Proof.
  apply NoDup_alt. intros i j x Hi Hj. rewrite list_lookup_fmap in Hi, Hj.
  destruct (links !! i) as [a|] eqn:Ha; [|done].
  destruct (links !! j) as [b|] eqn:Hb; [|done].
  simpl in *. destruct (Nat.lt_trichotomy i j) as [Hlt|[Heq|Hlt]]; [|done|].
  - destruct (links_ok_ordered i j a b Ha Hb Hlt). simplify_eq. lia.
  - destruct (links_ok_ordered j i b a Hb Ha Hlt). simplify_eq. lia.
Qed.

Lemma links_ok_candidate_NoDup : NoDup (candidate_index <$> links).
Proof.
  apply NoDup_alt. intros i j x Hi Hj. rewrite list_lookup_fmap in Hi, Hj.
  destruct (links !! i) as [a|] eqn:Ha; [|done].
  destruct (links !! j) as [b|] eqn:Hb; [|done].
  simpl in *. destruct (Nat.lt_trichotomy i j) as [Hlt|[Heq|Hlt]]; [|done|].
  - destruct (links_ok_ordered i j a b Ha Hb Hlt). simplify_eq.
  - destruct (links_ok_ordered j i b a Hb Ha Hlt). simplify_eq.
Qed.

Lemma links_ok_in_range l :
  l ∈ links ->
  base_index l < length base_rows ∧ candidate_index l < length cands.
Proof.
  intros [j Hj]%list_elem_of_lookup.
  destruct (links_ok_lookup j l Hj) as ((base & Hbase & _ & Hel & _) & _).
  split; [by eapply lookup_lt_Some|by eapply eligible_lt].
Qed.
End LinksOk.
End Linker.

(** ** The linker: one-to-one, thresholded, first come first served *)

(** C4. Whatever the base and candidate lists, the links [_match_records]
    returns have pairwise distinct base indices and pairwise distinct
    candidate indices, each has a final score at or above the minimum
    similarity, and they come in base-row order with no link using the
    candidate of a link made for an earlier base row. *)
Theorem match_records_one_to_one `{PyRuntime}
    (base_rows candidate_rows : list Row) (max_minutes_diff min_similarity : Q)
    (links : list MatchLink) :
  _match_records base_rows candidate_rows max_minutes_diff min_similarity
  = Ok links ->
  NoDup (base_index <$> links) ∧
  NoDup (candidate_index <$> links) ∧
  Forall (fun l => (min_similarity <= similarity l)%Q) links ∧
  Forall (fun l => base_index l < length base_rows
                   ∧ candidate_index l < length candidate_rows) links ∧
  (forall i j a b,
      links !! i = Some a -> links !! j = Some b -> i < j ->
      base_index a < base_index b ∧ candidate_index a ≠ candidate_index b).
Proof.
  intros Hrun. apply match_records_links_ok in Hrun. split_and!.
  - by eapply links_ok_base_NoDup.
  - by eapply links_ok_candidate_NoDup.
  - apply Forall_forall. intros l [j Hj]%list_elem_of_lookup.
    by destruct (links_ok_lookup _ _ _ _ _ Hrun j l Hj) as (_ & Hmin & _).
  - apply Forall_forall. intros l Hl. by eapply links_ok_in_range.
  - intros i j a b. by eapply links_ok_ordered.
Qed.

Lemma match_records_one_to_one_witness :
  NoDup (base_index <$> samples.twin_links) ∧
  NoDup (candidate_index <$> samples.twin_links) ∧
  Forall (fun l => (0.76 <= similarity l)%Q) samples.twin_links ∧
  Forall (fun l => base_index l < 2 ∧ candidate_index l < 2)
    samples.twin_links ∧
  (forall i j a b,
      samples.twin_links !! i = Some a -> samples.twin_links !! j = Some b ->
      i < j ->
      base_index a < base_index b ∧ candidate_index a ≠ candidate_index b).
Proof.
  apply (@match_records_one_to_one samples.runtime
           [samples.goal_row 2 1; samples.goal_row 2 1]
           [samples.espn_row 1 1; samples.espn_row 1 1] 180 0.76).
  vm_compute. reflexivity.
Defined.

(** C9. The link made for a base row goes to the first of the unused
    candidates with the greatest final score: every candidate that no earlier
    link has taken and that the inner loop scores has a final score at most
    the link's, and one with exactly the link's score has an index at least
    the link's. The link carries the score and orientation of its own
    candidate. *)
Theorem match_records_tie_break `{PyRuntime}
    (base_rows candidate_rows : list Row) (max_minutes_diff min_similarity : Q)
    (links earlier later : list MatchLink) (l : MatchLink) (base : Row)
    (j : nat) (candidate : Row) (s : Q) (sw : bool) :
  _match_records base_rows candidate_rows max_minutes_diff min_similarity
  = Ok links ->
  links = earlier ++ l :: later ->
  base_rows !! base_index l = Some base ->
  candidate_rows !! j = Some candidate ->
  j ∉ candidate_index <$> earlier ->
  candidate_score max_minutes_diff base candidate = Ok (Some (s, sw)) ->
  (exists chosen,
      candidate_rows !! candidate_index l = Some chosen ∧
      candidate_score max_minutes_diff base chosen
      = Ok (Some (similarity l, swapped l))) ∧
  (s <= similarity l)%Q ∧
  ((s == similarity l)%Q -> candidate_index l ≤ j).
Proof.
  intros Hrun Hsplit Hbase Hcand Hfree Hscore.
  apply match_records_links_ok in Hrun.
  destruct (Hrun _ _ _ Hsplit) as ((base' & Hbase' & _ & Hel & Hmax) & _).
  assert (base' = base) as -> by congruence.
  split; [by destruct Hel as [_ ?]|].
  apply (Hmax j s sw). split.
  - unfold claimed. by rewrite elem_of_list_to_set.
  - by exists candidate.
Qed.

Lemma match_records_tie_break_witness :
  (exists chosen,
      [samples.espn_row 1 1; samples.espn_row 1 1]
      !! candidate_index samples.twin_first = Some chosen ∧
      @candidate_score samples.runtime 180 (seed_goal (samples.goal_row 2 1))
        chosen
      = Ok (Some (similarity samples.twin_first,
                  swapped samples.twin_first))) ∧
  (similarity samples.twin_first <= similarity samples.twin_first)%Q ∧
  ((similarity samples.twin_first == similarity samples.twin_first)%Q ->
   candidate_index samples.twin_first ≤ 1).
Proof.
  apply (@match_records_tie_break samples.runtime
           [seed_goal (samples.goal_row 2 1); seed_goal (samples.goal_row 2 1)]
           [samples.espn_row 1 1; samples.espn_row 1 1] 180 0.76
           samples.twin_links [] (drop 1 samples.twin_links)
           samples.twin_first (seed_goal (samples.goal_row 2 1)) 1
           (samples.espn_row 1 1) (similarity samples.twin_first)
           (swapped samples.twin_first)).
  - vm_compute. reflexivity.
  - reflexivity.
  - reflexivity.
  - reflexivity.
  - apply not_elem_of_nil.
  - vm_compute. reflexivity.
Defined.

(** * Proofs: the merge engine *)

Section FoldAlter.
Context {A L : Type} (idx : L -> nat) (f : L -> A -> A).

Lemma fold_alter_length links (m : list A) :
  length (fold_alter idx f links m) = length m.
Proof.
  revert m. induction links as [|l links IH]; intros m; [done|].
  unfold fold_alter in *. simpl. by rewrite IH, length_alter.
Qed.

Lemma fold_alter_lookup_ne links (m : list A) i :
  (forall l, l ∈ links -> idx l ≠ i) ->
  fold_alter idx f links m !! i = m !! i.
Proof.
  revert m. induction links as [|l links IH]; intros m Hne; [done|].
  unfold fold_alter in *. simpl. rewrite IH.
  - apply list_lookup_alter_ne, Hne. by left.
  - intros l' Hl'. apply Hne. by right.
Qed.

Lemma fold_alter_lookup links (m : list A) l :
  NoDup (idx <$> links) -> l ∈ links ->
  fold_alter idx f links m !! idx l = f l <$> m !! idx l.
Proof.
  revert m. induction links as [|l' links IH]; intros m Hnd Hl.
  { by apply elem_of_nil in Hl. }
  rewrite fmap_cons in Hnd. apply NoDup_cons in Hnd as [Hfresh Hnd].
  unfold fold_alter in *. simpl.
  apply elem_of_cons in Hl as [->|Hl].
  - fold (fold_alter idx f links (alter (f l') (idx l') m)).
    rewrite fold_alter_lookup_ne; [apply list_lookup_alter_eq|].
    intros l Hl Heq. apply Hfresh. rewrite <- Heq.
    apply list_elem_of_fmap. by exists l.
  - rewrite (IH _ Hnd Hl), list_lookup_alter_ne; [done|].
    intros Heq. apply Hfresh. rewrite Heq.
    apply list_elem_of_fmap. by exists l.
Qed.

(** A relation every update satisfies, and that is reflexive and transitive,
    holds between the elements before and after the loop. *)
Lemma fold_alter_preserves (P : A -> A -> Prop) links (m : list A) i a :
  (forall x, P x x) -> (forall x y z, P x y -> P y z -> P x z) ->
  (forall l x, P x (f l x)) ->
  m !! i = Some a ->
  exists a', fold_alter idx f links m !! i = Some a' ∧ P a a'.
Proof.
  intros Hrefl Htrans Hstep. revert m a.
  induction links as [|l links IH]; intros m a Hm; [by exists a|].
  unfold fold_alter in *. simpl.
  destruct (IH (alter (f l) (idx l) m)
              (if decide (idx l = i) then f l a else a)) as (a' & Ha' & HP).
  - rewrite list_lookup_alter. case_decide; [|done]. subst i. by rewrite Hm.
  - exists a'. split; [done|]. case_decide; [|done].
    eapply Htrans; [apply Hstep|done].
Qed.
End FoldAlter.

Lemma append_unlinked_app seed linked rows :
  forall index merged,
    append_unlinked seed linked index rows merged
    = merged ++ append_unlinked seed linked index rows [].
Proof.
  induction rows as [|row rows IH]; intros index merged; simpl.
  { by rewrite app_nil_r. }
  case_bool_decide; [apply IH|].
  rewrite (IH _ (merged ++ _)), (IH _ [seed row]). by rewrite app_assoc.
Qed.

Section Stages.
Context `{PyRuntime}.

Lemma claimed_cons l links :
  claimed (l :: links) = {[candidate_index l]} ∪ claimed links.
Proof. done. Qed.

Lemma espn_step_alter espn_rows merged linked l :
  espn_step espn_rows (merged, linked) l
  = (alter (espn_update espn_rows l) (base_index l) merged,
     {[candidate_index l]} ∪ linked).
Proof.
  unfold espn_step, espn_update.
  destruct (espn_rows !! candidate_index l); [done|].
  by rewrite list_alter_id.
Qed.

Lemma sofa_step_alter sofa_rows merged linked l :
  sofa_step sofa_rows (merged, linked) l
  = (alter (sofa_update sofa_rows l) (base_index l) merged,
     {[candidate_index l]} ∪ linked).
Proof.
  unfold sofa_step, sofa_update.
  destruct (sofa_rows !! candidate_index l); [done|].
  by rewrite list_alter_id.
Qed.

Lemma stream_step_alter streamed_rows merged l :
  stream_step streamed_rows merged l
  = alter (stream_update streamed_rows l) (base_index l) merged.
Proof.
  unfold stream_step, stream_update.
  destruct (streamed_rows !! candidate_index l); [done|].
  by rewrite list_alter_id.
Qed.

Lemma espn_fold espn_rows links :
  forall merged linked,
    fold_left (espn_step espn_rows) links (merged, linked)
    = (fold_alter base_index (espn_update espn_rows) links merged,
       claimed links ∪ linked).
Proof.
  induction links as [|l links IH]; intros merged linked.
  { unfold claimed. simpl. by rewrite (left_id_L ∅ (∪)). }
  cbn [fold_left]. rewrite espn_step_alter, IH, claimed_cons.
  unfold fold_alter. simpl. f_equal.
  rewrite (assoc_L (∪)). f_equal. apply (comm_L (∪)).
Qed.

Lemma sofa_fold sofa_rows links :
  forall merged linked,
    fold_left (sofa_step sofa_rows) links (merged, linked)
    = (fold_alter base_index (sofa_update sofa_rows) links merged,
       claimed links ∪ linked).
Proof.
  induction links as [|l links IH]; intros merged linked.
  { unfold claimed. simpl. by rewrite (left_id_L ∅ (∪)). }
  cbn [fold_left]. rewrite sofa_step_alter, IH, claimed_cons.
  unfold fold_alter. simpl. f_equal.
  rewrite (assoc_L (∪)). f_equal. apply (comm_L (∪)).
Qed.

Lemma stream_fold streamed_rows links :
  forall merged,
    streamed_stage merged streamed_rows links
    = fold_alter base_index (stream_update streamed_rows) links merged.
Proof.
  unfold streamed_stage, fold_alter.
  induction links as [|l links IH]; intros merged; [done|].
  simpl. by rewrite stream_step_alter, IH.
Qed.

(** The two linked stages: the loop over the links, then the rows no link
    has claimed. *)
Lemma espn_stage_eq merged espn_rows links :
  espn_stage merged espn_rows links
  = fold_alter base_index (espn_update espn_rows) links merged
    ++ append_unlinked seed_espn (claimed links) 0 espn_rows [].
Proof.
  unfold espn_stage. rewrite espn_fold, (right_id_L ∅ (∪)).
  apply append_unlinked_app.
Qed.

Lemma sofa_stage_eq merged sofa_rows links :
  sofa_stage merged sofa_rows links
  = fold_alter base_index (sofa_update sofa_rows) links merged
    ++ append_unlinked seed_sofa (claimed links) 0 sofa_rows [].
Proof.
  unfold sofa_stage. rewrite sofa_fold, (right_id_L ∅ (∪)).
  apply append_unlinked_app.
Qed.
End Stages.
(** ** Scores are never lost *)

Section Scores.
Context `{PyRuntime}.

Lemma keeps_scores_refl r : keeps_scores r r.
Proof. by repeat split. Qed.

Lemma keeps_scores_trans r1 r2 r3 :
  keeps_scores r1 r2 -> keeps_scores r2 r3 -> keeps_scores r1 r3.
Proof.
  intros (Hh & Ha & Hp) (Hh' & Ha' & Hp'). split_and!; [auto..|].
  intros Hsh Hsa. rewrite Hp'; auto.
Qed.

(** Each part of a loop body, on the two scores. *)
Lemma espn_attach_scores l g e : _score_pair (espn_attach l g e) = _score_pair g.
Proof. done. Qed.

Lemma sofa_attach_scores g e : _score_pair (sofa_attach g e) = _score_pair g.
Proof. unfold sofa_attach. by case_bool_decide. Qed.

Lemma fill_competition_scores r o :
  _score_pair (fill_competition r o) = _score_pair r.
Proof. unfold fill_competition. by destruct (_ && _). Qed.

Lemma fill_venue_scores r o : _score_pair (fill_venue r o) = _score_pair r.
Proof. unfold fill_venue. by destruct (_ && _). Qed.

Lemma keeps_scores_same r r' : _score_pair r' = _score_pair r -> keeps_scores r r'.
Proof.
  unfold _score_pair. intros [= Hh Ha]. unfold keeps_scores, _score_pair.
  rewrite Hh, Ha. by repeat split.
Qed.

Lemma espn_reconcile_keeps_scores g e :
  keeps_scores g (espn_reconcile_scores g e).
Proof.
  unfold keeps_scores, espn_reconcile_scores, _score_pair.
  destruct (home_score g) eqn:Hhg, (away_score g) eqn:Hag,
    (home_score e) eqn:Hhe, (away_score e) eqn:Hae; simpl;
    repeat case_bool_decide; simpl; rewrite ?Hhg, ?Hag, ?Hhe, ?Hae;
    split_and!; intros; try done; by eauto.
Qed.

Lemma sofa_reconcile_keeps_scores g e :
  keeps_scores g (sofa_reconcile_scores g e).
Proof.
  unfold keeps_scores, sofa_reconcile_scores, _score_pair.
  destruct (home_score g) eqn:Hhg, (away_score g) eqn:Hag,
    (home_score e) eqn:Hhe, (away_score e) eqn:Hae; simpl;
    repeat case_bool_decide; simpl; rewrite ?Hhg, ?Hag, ?Hhe, ?Hae;
    split_and!; intros; try done; by eauto.
Qed.

Lemma merge_espn_row_keeps_scores l g e : keeps_scores g (merge_espn_row l g e).
Proof.
  unfold merge_espn_row.
  eapply keeps_scores_trans; [|apply keeps_scores_same, fill_venue_scores].
  eapply keeps_scores_trans; [|apply keeps_scores_same, fill_competition_scores].
  eapply keeps_scores_trans; [|apply espn_reconcile_keeps_scores].
  apply keeps_scores_same, espn_attach_scores.
Qed.

Lemma merge_sofa_row_keeps_scores g e : keeps_scores g (merge_sofa_row g e).
Proof.
  unfold merge_sofa_row.
  eapply keeps_scores_trans; [|apply keeps_scores_same, fill_competition_scores].
  eapply keeps_scores_trans; [|apply sofa_reconcile_keeps_scores].
  apply keeps_scores_same, sofa_attach_scores.
Qed.

Lemma merge_streamed_row_keeps_scores g e :
  keeps_scores g (merge_streamed_row g e).
Proof.
  apply keeps_scores_same. unfold merge_streamed_row.
  destruct (truthy _); [|done]. by case_bool_decide.
Qed.

Lemma espn_update_keeps_scores rows l g : keeps_scores g (espn_update rows l g).
Proof.
  unfold espn_update. destruct (rows !! _).
  - apply merge_espn_row_keeps_scores.
  - apply keeps_scores_refl.
Qed.

Lemma sofa_update_keeps_scores rows l g : keeps_scores g (sofa_update rows l g).
Proof.
  unfold sofa_update. destruct (rows !! _).
  - apply merge_sofa_row_keeps_scores.
  - apply keeps_scores_refl.
Qed.

Lemma stream_update_keeps_scores rows l g :
  keeps_scores g (stream_update rows l g).
Proof.
  unfold stream_update. destruct (rows !! _).
  - apply merge_streamed_row_keeps_scores.
  - apply keeps_scores_refl.
Qed.

(** C2. In each of the three stages that fold another source into the
    canonical list, whatever the links, a canonical row keeps its place in the
    list, no score of it that was known becomes unknown, and a score pair that
    was fully known is left as it was. *)
Theorem merge_stages_keep_scores (merged rows : list Row)
    (links : list MatchLink) (i : nat) (r : Row) :
  merged !! i = Some r ->
  (exists r', espn_stage merged rows links !! i = Some r' ∧ keeps_scores r r') ∧
  (exists r', sofa_stage merged rows links !! i = Some r' ∧ keeps_scores r r') ∧
  (exists r',
      streamed_stage merged rows links !! i = Some r' ∧ keeps_scores r r').
Proof.
  intros Hi. split_and!.
  - destruct (fold_alter_preserves base_index (espn_update rows) keeps_scores
                links merged i r) as (r' & Hr' & Hkeep);
      [apply keeps_scores_refl|apply keeps_scores_trans|
       apply espn_update_keeps_scores|done|].
    exists r'. split; [|done].
    rewrite espn_stage_eq. by apply lookup_app_l_Some.
  - destruct (fold_alter_preserves base_index (sofa_update rows) keeps_scores
                links merged i r) as (r' & Hr' & Hkeep);
      [apply keeps_scores_refl|apply keeps_scores_trans|
       apply sofa_update_keeps_scores|done|].
    exists r'. split; [|done].
    rewrite sofa_stage_eq. by apply lookup_app_l_Some.
  - rewrite stream_fold.
    apply (fold_alter_preserves base_index (stream_update rows) keeps_scores);
      [apply keeps_scores_refl|apply keeps_scores_trans|
       apply stream_update_keeps_scores|done].
Qed.
End Scores.

Lemma merge_stages_keep_scores_witness :
  let merged := [seed_goal (samples.goal_row 2 1)] in
  let rows := [samples.espn_row 1 1] in
  let r := seed_goal (samples.goal_row 2 1) in
  (exists r',
      @espn_stage samples.runtime merged rows (take 1 samples.twin_links) !! 0
      = Some r' ∧ keeps_scores r r') ∧
  (exists r',
      @sofa_stage samples.runtime merged rows (take 1 samples.twin_links) !! 0
      = Some r' ∧ keeps_scores r r') ∧
  (exists r',
      streamed_stage merged rows (take 1 samples.twin_links) !! 0 = Some r'
      ∧ keeps_scores r r').
Proof.
  apply (@merge_stages_keep_scores samples.runtime
           [seed_goal (samples.goal_row 2 1)] [samples.espn_row 1 1]
           (take 1 samples.twin_links) 0 (seed_goal (samples.goal_row 2 1))).
  reflexivity.
Defined.

(** ** The second source: confidence and conflicts *)

Section Espn.
Context `{PyRuntime}.

Lemma fill_competition_confidence r o :
  confidence (fill_competition r o) = confidence r.
Proof. unfold fill_competition. by destruct (_ && _). Qed.

Lemma fill_venue_confidence r o : confidence (fill_venue r o) = confidence r.
Proof. unfold fill_venue. by destruct (_ && _). Qed.

Lemma fill_competition_verification r o :
  verification (fill_competition r o) = verification r.
Proof. unfold fill_competition. by destruct (_ && _). Qed.

Lemma fill_venue_verification r o :
  verification (fill_venue r o) = verification r.
Proof. unfold fill_venue. by destruct (_ && _). Qed.

Lemma fill_competition_discrepancies r o :
  discrepancies (fill_competition r o) = discrepancies r.
Proof. unfold fill_competition. by destruct (_ && _). Qed.

Lemma fill_venue_discrepancies r o :
  discrepancies (fill_venue r o) = discrepancies r.
Proof. unfold fill_venue. by destruct (_ && _). Qed.

Lemma espn_reconcile_confidence g e :
  confidence (espn_reconcile_scores g e)
  = score_adjustment (_score_pair g) (_score_pair e) 0.95 0.56 0.83
      (confidence g).
Proof.
  unfold espn_reconcile_scores, _score_pair, score_adjustment.
  destruct (home_score g) as [h|], (away_score g) as [a|],
    (home_score e) as [h'|], (away_score e) as [a'|]; simpl;
    rewrite ?andb_false_r; simpl;
    repeat case_bool_decide; simplify_eq; simpl; try done;
    case_decide as Hd; try done.
  - exfalso. by apply Hd.
  - destruct Hd as [-> ->]. done.
Qed.

Lemma merge_espn_row_confidence l g e :
  confidence (merge_espn_row l g e)
  = score_adjustment (_score_pair g) (_score_pair e) 0.95 0.56 0.83
      (round2 (py_min 0.98 (fadd 0.80 (fsub (similarity l) 0.75)))).
Proof.
  unfold merge_espn_row.
  by rewrite fill_venue_confidence, fill_competition_confidence,
    espn_reconcile_confidence, espn_attach_scores.
Qed.

(** What a link of the linker does to its base row in the ESPN stage. *)
Lemma espn_stage_linked merged espn_rows links l :
  _match_records merged espn_rows 180 0.76 = Ok links ->
  l ∈ links ->
  exists goal_row espn_row,
    merged !! base_index l = Some goal_row ∧
    espn_rows !! candidate_index l = Some espn_row ∧
    espn_stage merged espn_rows links !! base_index l
    = Some (merge_espn_row l goal_row espn_row).
Proof.
  intros Hrun Hl. apply match_records_links_ok in Hrun.
  destruct (links_ok_in_range _ _ _ _ _ Hrun l Hl) as [Hb Hc].
  apply lookup_lt_is_Some in Hb as [g Hg], Hc as [e He].
  exists g, e. split_and!; [done..|].
  rewrite espn_stage_eq, lookup_app_l
    by (rewrite fold_alter_length; by eapply lookup_lt_Some).
  rewrite fold_alter_lookup, Hg; [|by eapply links_ok_base_NoDup|done].
  unfold espn_update. by rewrite He.
Qed.

(** The score of a link is the final score the linker computed for its two
    rows. *)
Lemma link_score merged espn_rows min_similarity links l goal_row espn_row :
  _match_records merged espn_rows 180 min_similarity = Ok links ->
  l ∈ links ->
  merged !! base_index l = Some goal_row ->
  espn_rows !! candidate_index l = Some espn_row ->
  candidate_score 180 goal_row espn_row
  = Ok (Some (similarity l, swapped l)).
Proof.
  intros Hrun [j Hj]%list_elem_of_lookup Hg He.
  apply match_records_links_ok in Hrun.
  destruct (links_ok_lookup _ _ _ _ _ Hrun j l Hj)
    as ((base & Hbase & _ & [_ (candidate & Hcand & Hscore)] & _) & _).
  by simplify_eq.
Qed.

(** C5. For every link accepted between the anchor list and the second
    source, the confidence of the row after the stage is
    [round(min(0.98, 0.80 + (similarity - 0.75)), 2)], computed in floats
    from the final score the linker gave the two rows, and then adjusted by
    the comparison of the two score pairs: raised to 0.95 when they are known
    and equal, capped at 0.56 when they are known and differ, raised to 0.83
    when the second source fills an unknown pair, and left alone otherwise. *)
Theorem espn_link_confidence (merged espn_rows : list Row)
    (links : list MatchLink) (l : MatchLink) :
  _match_records merged espn_rows 180 0.76 = Ok links ->
  l ∈ links ->
  exists goal_row espn_row r',
    merged !! base_index l = Some goal_row ∧
    espn_rows !! candidate_index l = Some espn_row ∧
    candidate_score 180 goal_row espn_row
    = Ok (Some (similarity l, swapped l)) ∧
    espn_stage merged espn_rows links !! base_index l = Some r' ∧
    confidence r'
    = score_adjustment (_score_pair goal_row) (_score_pair espn_row)
        0.95 0.56 0.83
        (round2 (py_min 0.98 (fadd 0.80 (fsub (similarity l) 0.75)))).
Proof.
  intros Hrun Hl.
  destruct (espn_stage_linked _ _ _ _ Hrun Hl) as (g & e & Hg & He & Hr).
  exists g, e, (merge_espn_row l g e). split_and!; [done..| |done|].
  - by eapply link_score.
  - apply merge_espn_row_confidence.
Qed.

Ltac absurd_verification :=
  match goal with
  | Heq : Some ?a = Some ?b |- _ => by vm_compute in Heq
  end.

Lemma not_fully_known_l a : ¬ fully_known (None, a).
Proof. by intros [[? ?] _]. Qed.

Lemma not_fully_known_r h : ¬ fully_known (h, None).
Proof. by intros [_ [? ?]]. Qed.

Lemma espn_reconcile_conflict g e :
  verification g = Some (ustr "single_source") ->
  (verification (espn_reconcile_scores g e) = Some (ustr "score_conflict")
   <-> fully_known (_score_pair g) ∧ fully_known (_score_pair e)
       ∧ _score_pair g ≠ _score_pair e) ∧
  (verification (espn_reconcile_scores g e) = Some (ustr "score_conflict") ->
   confidence (espn_reconcile_scores g e) = py_min (confidence g) 0.56 ∧
   discrepancies (espn_reconcile_scores g e)
   = discrepancies g
     ++ [score_message "Goal score " (_score_pair g) " differs from ESPN "
           (_score_pair e)]).
Proof.
  intros Hv. unfold espn_reconcile_scores, _score_pair.
  destruct (home_score g) as [h|], (away_score g) as [a|],
    (home_score e) as [h'|], (away_score e) as [a'|]; simpl;
    rewrite ?andb_false_r; simpl;
    repeat case_bool_decide; simplify_eq; simpl; rewrite ?Hv;
    (split; [split|]);
    try (intros Heq; absurd_verification);
    try (intros (Hk1 & Hk2 & Hne);
         first [done | by apply not_fully_known_l in Hk1
               | by apply not_fully_known_r in Hk1
               | by apply not_fully_known_l in Hk2
               | by apply not_fully_known_r in Hk2]);
    done.
Qed.

(** C6. An anchor row linked to a second-source row comes out of the stage
    with [verification = score_conflict] exactly when both score pairs are
    fully known and differ; its confidence is then at most 0.56 and one entry
    naming both pairs is appended to its discrepancies. For 2-1 against 1-1
    that entry is [Goal score 2-1 differs from ESPN 1-1]. *)
Theorem espn_score_conflict (goal_rows espn_rows : list Row)
    (links : list MatchLink) (l : MatchLink) (anchor espn_row : Row) :
  _match_records (seed_goal <$> goal_rows) espn_rows 180 0.76 = Ok links ->
  l ∈ links ->
  goal_rows !! base_index l = Some anchor ->
  espn_rows !! candidate_index l = Some espn_row ->
  exists r',
    espn_stage (seed_goal <$> goal_rows) espn_rows links !! base_index l
    = Some r' ∧
    (verification r' = Some (ustr "score_conflict")
     <-> fully_known (_score_pair anchor) ∧ fully_known (_score_pair espn_row)
         ∧ _score_pair anchor ≠ _score_pair espn_row) ∧
    (verification r' = Some (ustr "score_conflict") ->
     (confidence r' <= 0.56)%Q ∧
     discrepancies r'
     = discrepancies anchor
       ++ [score_message "Goal score " (_score_pair anchor)
             " differs from ESPN " (_score_pair espn_row)]) ∧
    (_score_pair anchor = (Some 2%Z, Some 1%Z) ->
     _score_pair espn_row = (Some 1%Z, Some 1%Z) ->
     verification r' = Some (ustr "score_conflict") ∧
     (confidence r' <= 0.56)%Q ∧
     discrepancies r'
     = discrepancies anchor ++ [ustr "Goal score 2-1 differs from ESPN 1-1"]).
Proof.
  intros Hrun Hl Hanchor Hespn.
  destruct (espn_stage_linked _ _ _ _ Hrun Hl) as (g & e & Hg & He & Hr).
  rewrite list_lookup_fmap, Hanchor in Hg. injection Hg as <-.
  assert (e = espn_row) as -> by congruence.
  exists (merge_espn_row l (seed_goal anchor) espn_row).
  split; [done|].
  destruct (espn_reconcile_conflict
              (espn_attach l (seed_goal anchor) espn_row) espn_row)
    as [Hiff Hthen]; [done|].
  unfold merge_espn_row.
  rewrite fill_venue_verification, fill_competition_verification,
    fill_venue_confidence, fill_competition_confidence,
    fill_venue_discrepancies, fill_competition_discrepancies.
  assert ((verification
               (espn_reconcile_scores
                  (espn_attach l (seed_goal anchor) espn_row) espn_row)
             = Some (ustr "score_conflict")) ->
            (confidence
               (espn_reconcile_scores
                  (espn_attach l (seed_goal anchor) espn_row) espn_row)
             <= 0.56)%Q ∧
            discrepancies
              (espn_reconcile_scores
                 (espn_attach l (seed_goal anchor) espn_row) espn_row)
            = discrepancies anchor
              ++ [score_message "Goal score " (_score_pair anchor)
                    " differs from ESPN " (_score_pair espn_row)]) as Hcons.
  { intros Hc. destruct (Hthen Hc) as [-> ->]. split; [|done].
    apply py_min_le_r. }
  split_and!; [done..|].
  intros Ha He'. assert (verification
    (espn_reconcile_scores (espn_attach l (seed_goal anchor) espn_row)
       espn_row) = Some (ustr "score_conflict")) as Hc.
  { apply Hiff. change (_score_pair (espn_attach l (seed_goal anchor) espn_row))
      with (_score_pair anchor). rewrite Ha, He'.
    split_and!; [by split; eexists..|done]. }
  split; [done|]. destruct (Hcons Hc) as [Hle ->]. split; [done|].
  by rewrite Ha, He'.
Qed.
End Espn.

Lemma espn_link_confidence_witness :
  exists goal_row espn_row r',
    [seed_goal (samples.goal_row 2 1)] !! base_index samples.twin_first
    = Some goal_row ∧
    [scoreless_espn_row] !! candidate_index samples.twin_first
    = Some espn_row ∧
    @candidate_score samples.runtime 180 goal_row espn_row
    = Ok (Some (similarity samples.twin_first, swapped samples.twin_first)) ∧
    @espn_stage samples.runtime [seed_goal (samples.goal_row 2 1)]
      [scoreless_espn_row] [samples.twin_first]
    !! base_index samples.twin_first = Some r' ∧
    confidence r'
    = score_adjustment (_score_pair goal_row) (_score_pair espn_row)
        0.95 0.56 0.83
        (round2
           (py_min 0.98
              (fadd 0.80 (fsub (similarity samples.twin_first) 0.75)))).
Proof.
  apply (@espn_link_confidence samples.runtime
           [seed_goal (samples.goal_row 2 1)] [scoreless_espn_row]
           [samples.twin_first] samples.twin_first).
  - vm_compute. reflexivity.
  - left.
Defined.

Lemma espn_score_conflict_witness :
  exists r',
    @espn_stage samples.runtime (seed_goal <$> [samples.goal_row 2 1])
      [samples.espn_row 1 1] [samples.twin_first]
    !! base_index samples.twin_first = Some r' ∧
    (verification r' = Some (ustr "score_conflict")
     <-> fully_known (_score_pair (samples.goal_row 2 1))
         ∧ fully_known (_score_pair (samples.espn_row 1 1))
         ∧ _score_pair (samples.goal_row 2 1)
           ≠ _score_pair (samples.espn_row 1 1)) ∧
    (verification r' = Some (ustr "score_conflict") ->
     (confidence r' <= 0.56)%Q ∧
     discrepancies r'
     = discrepancies (samples.goal_row 2 1)
       ++ [score_message "Goal score " (_score_pair (samples.goal_row 2 1))
             " differs from ESPN " (_score_pair (samples.espn_row 1 1))]) ∧
    (_score_pair (samples.goal_row 2 1) = (Some 2%Z, Some 1%Z) ->
     _score_pair (samples.espn_row 1 1) = (Some 1%Z, Some 1%Z) ->
     verification r' = Some (ustr "score_conflict") ∧
     (confidence r' <= 0.56)%Q ∧
     discrepancies r'
     = discrepancies (samples.goal_row 2 1)
       ++ [ustr "Goal score 2-1 differs from ESPN 1-1"]).
Proof.
  apply (@espn_score_conflict samples.runtime [samples.goal_row 2 1]
           [samples.espn_row 1 1] [samples.twin_first] samples.twin_first
           (samples.goal_row 2 1) (samples.espn_row 1 1)).
  - vm_compute. reflexivity.
  - left.
  - reflexivity.
  - reflexivity.
Defined.

(** ** The streamed stage only attaches a watch URL *)

Lemma same_but_stream_keys_refl r : same_but_stream_keys r r.
Proof. by destruct r. Qed.

Lemma same_but_stream_keys_trans r1 r2 r3 :
  same_but_stream_keys r1 r2 -> same_but_stream_keys r2 r3 ->
  same_but_stream_keys r1 r3.
Proof.
  unfold same_but_stream_keys. intros H12 H23.
  rewrite H23 at 1. rewrite H12 at 1. by destruct r1.
Qed.

Lemma merge_streamed_row_frame r streamed_row :
  same_but_stream_keys r (merge_streamed_row r streamed_row).
Proof.
  unfold same_but_stream_keys, merge_streamed_row.
  destruct (truthy _); [|by destruct r].
  case_bool_decide; by destruct r.
Qed.

Lemma stream_update_frame rows l r :
  same_but_stream_keys r (stream_update rows l r).
Proof.
  unfold stream_update. destruct (rows !! _).
  - apply merge_streamed_row_frame.
  - apply same_but_stream_keys_refl.
Qed.

(** C10. The streamed stage keeps the canonical list in place and changes no
    key of any row other than the watch URL, the sources and the external
    ids; the base row of an accepted link whose streamed row has an absent or
    empty watch URL is left exactly as it was, and so is every row no link
    points to. *)
Theorem streamed_stage_frame `{PyRuntime} (merged streamed_rows : list Row)
    (links : list MatchLink) :
  _match_records merged streamed_rows 180 0.80 = Ok links ->
  length (streamed_stage merged streamed_rows links) = length merged ∧
  (forall i r,
      merged !! i = Some r ->
      exists r',
        streamed_stage merged streamed_rows links !! i = Some r' ∧
        same_but_stream_keys r r') ∧
  (forall l streamed_row,
      l ∈ links ->
      streamed_rows !! candidate_index l = Some streamed_row ->
      truthy (streamed_watch_url streamed_row) = false ->
      streamed_stage merged streamed_rows links !! base_index l
      = merged !! base_index l) ∧
  (forall i,
      (forall l, l ∈ links -> base_index l ≠ i) ->
      streamed_stage merged streamed_rows links !! i = merged !! i).
Proof.
  intros Hrun. apply match_records_links_ok in Hrun.
  rewrite stream_fold. split_and!.
  - apply fold_alter_length.
  - intros i r Hi.
    apply (fold_alter_preserves base_index (stream_update streamed_rows)
             same_but_stream_keys);
      [apply same_but_stream_keys_refl|apply same_but_stream_keys_trans|
       apply stream_update_frame|done].
  - intros l s Hl Hs Hurl.
    rewrite fold_alter_lookup; [|by eapply links_ok_base_NoDup|done].
    unfold stream_update, merge_streamed_row. rewrite Hs, Hurl.
    by destruct (merged !! base_index l).
  - intros i Hne. by apply fold_alter_lookup_ne.
Qed.

Lemma streamed_stage_frame_witness :
  let merged := [seed_goal (samples.goal_row 2 1)] in
  let streamed_rows := [samples.streamed_row None] in
  let links := take 1 samples.twin_links in
  length (streamed_stage merged streamed_rows links) = length merged ∧
  (forall i r,
      merged !! i = Some r ->
      exists r',
        streamed_stage merged streamed_rows links !! i = Some r' ∧
        same_but_stream_keys r r') ∧
  (forall l streamed_row,
      l ∈ links ->
      streamed_rows !! candidate_index l = Some streamed_row ->
      truthy (streamed_watch_url streamed_row) = false ->
      streamed_stage merged streamed_rows links !! base_index l
      = merged !! base_index l) ∧
  (forall i,
      (forall l, l ∈ links -> base_index l ≠ i) ->
      streamed_stage merged streamed_rows links !! i = merged !! i).
Proof.
  apply (@streamed_stage_frame samples.runtime
           [seed_goal (samples.goal_row 2 1)] [samples.streamed_row None]
           (take 1 samples.twin_links)).
  vm_compute. reflexivity.
Defined.

(** * Proofs: the quality gate *)

Section Gate.
Context `{PyRuntime}.
Variables (max_live_stale_seconds reference : Z).
Variables (include_stale include_conflicts : bool).

Local Abbreviation step :=
  (gate_step max_live_stale_seconds reference include_stale include_conflicts).

(** The annotations of the loop body. *)
Lemma annotate_age row :
  last_update_age_seconds (annotate max_live_stale_seconds reference row).1
  = row_age reference row.
Proof.
  unfold annotate, row_age.
  destruct (normalize.parse_iso_utc _); simpl; by destruct (_ && _).
Qed.

Lemma annotate_is_stale row :
  is_stale (annotate max_live_stale_seconds reference row).1
  = Some (annotate max_live_stale_seconds reference row).2.
Proof.
  unfold annotate.
  destruct (normalize.parse_iso_utc _); simpl; by destruct (_ && _).
Qed.

Lemma annotate_verification row :
  verification (annotate max_live_stale_seconds reference row).1
  = verification row.
Proof.
  unfold annotate.
  destruct (normalize.parse_iso_utc _); simpl; by destruct (_ && _).
Qed.

Lemma annotate_stale_iff row :
  (annotate max_live_stale_seconds reference row).2 = true
  <-> stale_condition max_live_stale_seconds reference row.
Proof.
  unfold annotate, stale_condition, row_age, gate_status.
  destruct (normalize.parse_iso_utc _) as [updated|]; simpl.
  - rewrite andb_true_iff, bool_decide_eq_true. unfold Qgtb.
    rewrite Qltb_true. split.
    + intros [Hlive Hold]. split; [done|]. right. by eexists.
    + intros [Hlive [Hnone|(age & [= <-] & Hold)]]; done.
  - rewrite andb_true_r, bool_decide_eq_true. split.
    + intros Hlive. split; [done|by left].
    + by intros [Hlive _].
Qed.

(** The three outcomes of one turn of the loop. *)
Lemma gate_step_cases kept stale conflicts row :
  let candidate := (annotate max_live_stale_seconds reference row).1 in
  let is_stale := (annotate max_live_stale_seconds reference row).2 in
  step (kept, stale, conflicts) row
  = if bool_decide (verification row = Some (ustr "score_conflict"))
       && negb include_conflicts
    then (kept, stale, S conflicts)
    else if is_stale && negb include_stale
    then (kept, S stale, conflicts)
    else (kept ++ [candidate], stale, conflicts).
Proof.
  unfold gate_step. rewrite <- annotate_verification.
  by destruct (annotate _ _ _).
Qed.

(** The counters add up, and the kept rows are appended. *)
Lemma gate_fold_shift rows :
  forall kept stale conflicts,
    fold_left step rows (kept, stale, conflicts)
    = let '(kept', stale', conflicts') := fold_left step rows ([], 0, 0) in
      (kept ++ kept', stale + stale', conflicts + conflicts').
Proof.
  induction rows as [|row rows IH]; intros kept stale conflicts.
  { simpl. by rewrite app_nil_r, !Nat.add_0_r. }
  cbn [fold_left]. rewrite !gate_step_cases. cbv zeta.
  destruct (_ && _).
  { rewrite (IH kept stale (S conflicts)), (IH [] 0 1).
    destruct (fold_left step rows ([], 0, 0)) as [[k s] c].
    simpl. f_equal. lia. }
  destruct (_ && _).
  { rewrite (IH kept (S stale) conflicts), (IH [] 1 0).
    destruct (fold_left step rows ([], 0, 0)) as [[k s] c].
    simpl. do 2 f_equal. lia. }
  rewrite (IH (kept ++ _) stale conflicts), (IH ([] ++ _) 0 0).
  destruct (fold_left step rows ([], 0, 0)) as [[k s] c].
  simpl. by rewrite <- app_assoc.
Qed.

Lemma gate_fold_app pre post :
  fold_left step (pre ++ post) ([], 0, 0)
  = let '(kept, stale, conflicts) := fold_left step pre ([], 0, 0) in
    let '(kept', stale', conflicts') := fold_left step post ([], 0, 0) in
    (kept ++ kept', stale + stale', conflicts + conflicts').
Proof.
  rewrite fold_left_app.
  destruct (fold_left step pre ([], 0, 0)) as [[k s] c].
  apply gate_fold_shift.
Qed.

(** Every row the loop keeps is the annotated copy of a row of the input. *)
Lemma gate_fold_kept rows :
  forall candidate,
    candidate ∈ (fold_left step rows ([], 0, 0)).1.1 ->
    exists row,
      row ∈ rows
      ∧ candidate = (annotate max_live_stale_seconds reference row).1.
Proof.
  induction rows as [|row rows IH] using rev_ind; intros candidate.
  { simpl. by intros ?%elem_of_nil. }
  rewrite fold_left_app. cbn [fold_left].
  destruct (fold_left step rows ([], 0, 0)) as [[k s] c] eqn:Hfold.
  rewrite gate_step_cases. cbv zeta. simpl in IH.
  assert (forall x, x ∈ k -> exists row0,
             row0 ∈ rows ++ [row]
             ∧ x = (annotate max_live_stale_seconds reference row0).1) as Hk.
  { intros x Hx. destruct (IH x Hx) as (row0 & Hin & ->).
    exists row0. split; [|done]. apply elem_of_app. by left. }
  destruct (_ && _); [by apply Hk|].
  destruct (_ && _); [by apply Hk|]. simpl.
  intros [Hin|Hin%list_elem_of_singleton]%elem_of_app; [by apply Hk|].
  exists row. split; [|done]. apply elem_of_app. right. by left.
Qed.
End Gate.

Section GateClaims.
Context `{PyRuntime}.

Lemma gate_fold_all max_live_stale_seconds reference rows :
  forall kept stale conflicts,
    fold_left (gate_step max_live_stale_seconds reference true true) rows
      (kept, stale, conflicts)
    = (kept
       ++ ((fun row => (annotate max_live_stale_seconds reference row).1)
           <$> rows),
       stale, conflicts).
Proof.
  induction rows as [|row rows IH]; intros kept stale conflicts.
  { simpl. by rewrite app_nil_r. }
  cbn [fold_left]. rewrite gate_step_cases. cbv zeta.
  rewrite !andb_false_r, IH, <- app_assoc. done.
Qed.

Lemma apply_quality_gate_fold max_live_stale_seconds utc_now_iso matches
    generated_at_utc include_stale include_conflicts reference :
  reference_time generated_at_utc utc_now_iso = Some reference ->
  _apply_quality_gate max_live_stale_seconds utc_now_iso matches
    generated_at_utc include_stale include_conflicts
  = fold_left
      (gate_step max_live_stale_seconds reference include_stale
         include_conflicts)
      matches ([], 0, 0).
Proof.
  unfold reference_time, _apply_quality_gate. by intros ->.
Qed.

(** C7. With a reference time, every row the gate outputs is the annotated
    copy of an input row, and the copy of a row is marked stale exactly when
    the status of the row is live and its age is absent or above the
    threshold; a row of any other status is marked not stale whatever its age.
    The age attached is the computed one. With both flags set every row is
    output, in order. *)
Theorem quality_gate_stale_iff (max_live_stale_seconds : Z)
    (utc_now_iso : pystr) (matches : list Row)
    (generated_at_utc : option pystr) (include_stale include_conflicts : bool)
    (reference : Z) :
  reference_time generated_at_utc utc_now_iso = Some reference ->
  (forall candidate,
      candidate
      ∈ (_apply_quality_gate max_live_stale_seconds utc_now_iso matches
           generated_at_utc include_stale include_conflicts).1.1 ->
      exists row,
        row ∈ matches
        ∧ candidate = (annotate max_live_stale_seconds reference row).1) ∧
  (_apply_quality_gate max_live_stale_seconds utc_now_iso matches
     generated_at_utc true true).1.1
  = ((fun row => (annotate max_live_stale_seconds reference row).1)
     <$> matches) ∧
  (forall row candidate,
      candidate = (annotate max_live_stale_seconds reference row).1 ->
      (is_stale candidate = Some true
       <-> stale_condition max_live_stale_seconds reference row) ∧
      (is_stale candidate = Some true ∨ is_stale candidate = Some false) ∧
      (gate_status row ≠ ustr "live" -> is_stale candidate = Some false) ∧
      last_update_age_seconds candidate = row_age reference row).
Proof.
  intros Href. split_and!.
  - rewrite (apply_quality_gate_fold _ _ _ _ _ _ _ Href).
    apply gate_fold_kept.
  - rewrite (apply_quality_gate_fold _ _ _ _ _ _ _ Href).
    by rewrite gate_fold_all.
  - intros row candidate ->. rewrite annotate_is_stale, annotate_age.
    pose proof (annotate_stale_iff max_live_stale_seconds reference row)
      as Hiff.
    destruct (annotate max_live_stale_seconds reference row).2;
      split_and!; try done.
    + split; [intros _; by apply Hiff|done].
    + by left.
    + intros Hlive. exfalso. apply Hlive.
      by destruct (proj1 Hiff eq_refl) as [? _].
    + split; [done|]. intros Hst. by apply Hiff in Hst.
    + by right.
Qed.

(** C1, as the code has it. With a reference time and both flags unset, a
    row whose verification is [score_conflict] is left out of the output and
    counted once, in the dropped-conflicts counter only, whether it is stale
    or not: the rest of the result is what the gate gives without the row. A
    stale row that is not in conflict is left out and counted once in the
    dropped-stale counter. *)
Theorem quality_gate_counts_first_reason (max_live_stale_seconds : Z)
    (utc_now_iso : pystr) (pre post : list Row) (row : Row)
    (generated_at_utc : option pystr) (reference : Z) :
  reference_time generated_at_utc utc_now_iso = Some reference ->
  let gate rows :=
    _apply_quality_gate max_live_stale_seconds utc_now_iso rows
      generated_at_utc false false in
  (verification row = Some (ustr "score_conflict") ->
   gate (pre ++ row :: post)
   = let '(kept, stale, conflicts) := gate (pre ++ post) in
     (kept, stale, S conflicts)) ∧
  (verification row ≠ Some (ustr "score_conflict") ->
   stale_condition max_live_stale_seconds reference row ->
   gate (pre ++ row :: post)
   = let '(kept, stale, conflicts) := gate (pre ++ post) in
     (kept, S stale, conflicts)).
Proof.
  intros Href gate. unfold gate.
  rewrite !(apply_quality_gate_fold _ _ _ _ _ _ _ Href), !gate_fold_app.
  cbn [fold_left]. rewrite gate_step_cases. cbv zeta.
  destruct (fold_left _ pre ([], 0, 0)) as [[k s] c].
  split.
  - intros ->. rewrite bool_decide_eq_true_2 by done. simpl.
    rewrite (gate_fold_shift _ _ _ _ post [] 0 1).
    destruct (fold_left _ post ([], 0, 0)) as [[k' s'] c'].
    simpl. f_equal. lia.
  - intros Hv Hst. rewrite bool_decide_eq_false_2 by done.
    apply annotate_stale_iff in Hst. rewrite Hst. simpl.
    rewrite (gate_fold_shift _ _ _ _ post [] 1 0).
    destruct (fold_left _ post ([], 0, 0)) as [[k' s'] c'].
    simpl. do 2 f_equal. lia.
Qed.
End GateClaims.

(** C1, as stated, fails: a live row that was never updated and whose
    verification is [score_conflict] is both in conflict and stale, and the
    gate with both flags unset counts it in the dropped-conflicts counter and
    not in the dropped-stale counter. *)
Lemma quality_gate_conflict_stale_not_counted_twice :
  verification conflicted_stale_row = Some (ustr "score_conflict") ∧
  @stale_condition samples.runtime 60 1714564800000000 conflicted_stale_row ∧
  @_apply_quality_gate samples.runtime 60 samples.noon [conflicted_stale_row]
    (Some samples.noon) false false
  = ([], 0, 1) ∧
  ¬ (exists kept,
        @_apply_quality_gate samples.runtime 60 samples.noon
          [conflicted_stale_row] (Some samples.noon) false false
        = (kept, 1, 1)).
Proof.
  assert (@_apply_quality_gate samples.runtime 60 samples.noon
            [conflicted_stale_row] (Some samples.noon) false false
          = ([], 0, 1)) as Hgate by (vm_compute; reflexivity).
  split_and!; [done| |done|].
  - split; [by vm_compute|]. left. by vm_compute.
  - rewrite Hgate. by intros [kept [=]].
Qed.

Lemma quality_gate_counts_first_reason_witness :
  let gate rows :=
    @_apply_quality_gate samples.runtime 60 samples.noon rows
      (Some samples.noon) false false in
  (verification conflicted_stale_row = Some (ustr "score_conflict") ->
   gate ([] ++ conflicted_stale_row :: [])
   = let '(kept, stale, conflicts) := gate ([] ++ []) in
     (kept, stale, S conflicts)) ∧
  (verification conflicted_stale_row ≠ Some (ustr "score_conflict") ->
   @stale_condition samples.runtime 60 1714564800000000 conflicted_stale_row ->
   gate ([] ++ conflicted_stale_row :: [])
   = let '(kept, stale, conflicts) := gate ([] ++ []) in
     (kept, S stale, conflicts)).
Proof.
  apply (@quality_gate_counts_first_reason samples.runtime 60 samples.noon
           [] [] conflicted_stale_row (Some samples.noon) 1714564800000000).
  vm_compute. reflexivity.
Defined.

Lemma quality_gate_stale_iff_witness :
  (forall candidate,
      candidate
      ∈ (@_apply_quality_gate samples.runtime 60 samples.noon
           [conflicted_stale_row] (Some samples.noon) true false).1.1 ->
      exists row,
        row ∈ [conflicted_stale_row]
        ∧ candidate
          = (@annotate samples.runtime 60 1714564800000000 row).1) ∧
  (@_apply_quality_gate samples.runtime 60 samples.noon
     [conflicted_stale_row] (Some samples.noon) true true).1.1
  = ((fun row => (@annotate samples.runtime 60 1714564800000000 row).1)
     <$> [conflicted_stale_row]) ∧
  (forall row candidate,
      candidate = (@annotate samples.runtime 60 1714564800000000 row).1 ->
      (is_stale candidate = Some true
       <-> @stale_condition samples.runtime 60 1714564800000000 row) ∧
      (is_stale candidate = Some true ∨ is_stale candidate = Some false) ∧
      (@gate_status samples.runtime row ≠ ustr "live" ->
       is_stale candidate = Some false) ∧
      last_update_age_seconds candidate
      = @row_age samples.runtime 1714564800000000 row).
Proof.
  apply (@quality_gate_stale_iff samples.runtime 60 samples.noon
           [conflicted_stale_row] (Some samples.noon) true false
           1714564800000000).
  vm_compute. reflexivity.
Defined.

(** * Proofs: the status of a canonical row *)

Lemma append_unlinked_nil seed linked rows :
  forall index,
    append_unlinked seed linked index rows []
    = seed <$> unlinked_rows linked index rows.
Proof.
  induction rows as [|row rows IH]; intros index; simpl; [done|].
  case_bool_decide; [apply IH|].
  by rewrite append_unlinked_app, IH.
Qed.

Lemma unlinked_rows_subseteq linked rows :
  forall index row, row ∈ unlinked_rows linked index rows -> row ∈ rows.
Proof.
  induction rows as [|r rows IH]; intros index row; simpl; [done|].
  case_bool_decide.
  - intros Hin. right. by eapply IH.
  - intros [->|Hin]%elem_of_cons; [by left|]. right. by eapply IH.
Qed.

Lemma fold_alter_fmap {A B L : Type} (idx : L -> nat) (g : A -> B)
    (f' : L -> A -> A) (f : L -> B -> B) links :
  (forall l t, g (f' l t) = f l (g t)) ->
  forall m,
    g <$> fold_alter idx f' links m = fold_alter idx f links (g <$> m).
Proof.
  intros Hfg. unfold fold_alter.
  induction links as [|l links IH]; intros m; [done|].
  simpl. rewrite IH. f_equal. apply list_fmap_alter, Forall_forall.
  intros t _. apply Hfg.
Qed.

Lemma fold_alter_Forall {A L : Type} (idx : L -> nat) (f : L -> A -> A)
    (Q : A -> Prop) links :
  (forall l x, Q x -> Q (f l x)) ->
  forall m, Forall Q m -> Forall Q (fold_alter idx f links m).
Proof.
  intros Hstep. unfold fold_alter.
  induction links as [|l links IH]; intros m Hm; [done|].
  simpl. apply IH. apply Forall_alter; [done|]. intros x _. apply Hstep.
Qed.

(** The final sort permutes the rows. *)
Lemma insert_row_perm `{PyRuntime} row sorted : insert_row row sorted ≡ₚ row :: sorted.
Proof.
  induction sorted as [|other rest IH]; cbn [insert_row]; [done|].
  destruct (key_lt (_sort_key other) (_sort_key row)); [|done].
  by rewrite IH, Permutation_swap.
Qed.

Lemma sort_rows_perm `{PyRuntime} rows : sort_rows rows ≡ₚ rows.
Proof.
  induction rows as [|row rows IH]; simpl; [done|].
  by rewrite insert_row_perm, IH.
Qed.

(** The priorities of the table. *)
Lemma status_priority_table :
  status_priority (ustr "live") = 5%Z ∧
  status_priority (ustr "finished") = 4%Z ∧
  status_priority (ustr "postponed") = 3%Z ∧
  status_priority (ustr "cancelled") = 2%Z ∧
  status_priority (ustr "scheduled") = 1%Z ∧
  status_priority (ustr "unknown") = 0%Z.
Proof. by vm_compute. Qed.

Lemma status_priority_nonneg s : (0 <= status_priority s)%Z.
Proof.
  unfold status_priority.
  destruct (STATUS_PRIORITY !! s) as [v|] eqn:Hs; [|done].
  apply elem_of_list_to_map_2 in Hs. simpl.
  repeat (apply elem_of_cons in Hs as [[= _ ->]|Hs]; [lia|]).
  by apply elem_of_nil in Hs.
Qed.

Lemma preferred_status_priority_0 s t :
  status_priority t = 0%Z -> _preferred_status s t = s.
Proof.
  intros Ht. unfold _preferred_status. rewrite Ht.
  pose proof (status_priority_nonneg s).
  destruct (Z.gtb_spec 0 (status_priority s)); [lia|done].
Qed.

Lemma highest_priority_first_singleton s : highest_priority_first [s] s.
Proof.
  exists 0. split; [done|]. split; [|intros j t Hj; lia].
  intros [|j] t Hj; simplify_eq/=; lia.
Qed.

Lemma highest_priority_first_snoc observed s t :
  highest_priority_first observed s ->
  highest_priority_first (observed ++ [t]) (_preferred_status s t).
Proof.
  intros (k & Hk & Hall & Hbefore). unfold _preferred_status.
  destruct (status_priority t >? status_priority s)%Z eqn:Hgt.
  - apply Z.gtb_lt in Hgt. exists (length observed). split_and!.
    + by rewrite lookup_app_r, Nat.sub_diag.
    + intros j t' [Hj|[_ Hj]]%lookup_app_Some.
      * specialize (Hall _ _ Hj). lia.
      * apply list_lookup_singleton_Some in Hj as [_ ->]. lia.
    + intros j t' Hlt Hj. rewrite lookup_app_l in Hj by done.
      specialize (Hall _ _ Hj). lia.
  - assert (status_priority t <= status_priority s)%Z as Hle.
    { destruct (Z.gtb_spec (status_priority t) (status_priority s)); [done|lia]. }
    exists k. split_and!.
    + by apply lookup_app_l_Some.
    + intros j t' [Hj|[_ Hj]]%lookup_app_Some; [by eapply Hall|].
      by apply list_lookup_singleton_Some in Hj as [_ ->].
    + intros j t' Hlt Hj. apply (Hbefore j t' Hlt).
      apply lookup_lt_Some in Hk. by rewrite lookup_app_l in Hj by lia.
Qed.

Lemma str_or_nonempty v d : d ≠ [] -> str_or v d ≠ [].
Proof. intros Hd. by destruct v as [[|c s]|]. Qed.

Lemma str_or_Some s d : s ≠ [] -> str_or (Some s) d = s.
Proof. by destruct s. Qed.

Lemma preferred_status_nonempty a b :
  a ≠ [] -> b ≠ [] -> _preferred_status a b ≠ [].
Proof. intros Ha Hb. unfold _preferred_status. by destruct (_ >? _)%Z. Qed.

Section Status.
Context `{PyRuntime}.

Ltac by_cases := repeat case_match; done.

Lemma espn_reconcile_status g e :
  status (espn_reconcile_scores g e) = status g
  ∧ sources (espn_reconcile_scores g e) = sources g.
Proof. unfold espn_reconcile_scores. by_cases. Qed.

Lemma sofa_reconcile_status g e :
  status (sofa_reconcile_scores g e) = status g
  ∧ sources (sofa_reconcile_scores g e) = sources g.
Proof. unfold sofa_reconcile_scores. by_cases. Qed.

Lemma fill_competition_status r o :
  status (fill_competition r o) = status r
  ∧ sources (fill_competition r o) = sources r.
Proof. unfold fill_competition. by_cases. Qed.

Lemma fill_venue_status r o :
  status (fill_venue r o) = status r ∧ sources (fill_venue r o) = sources r.
Proof. unfold fill_venue. by_cases. Qed.

Lemma merge_espn_row_status l g e :
  observed_status (merge_espn_row l g e)
  = _preferred_status (observed_status g) (observed_status e)
  ∧ sources (merge_espn_row l g e) = sources g ++ [ustr "espn"].
Proof.
  unfold merge_espn_row, observed_status.
  destruct (fill_venue_status
              (fill_competition
                 (espn_reconcile_scores (espn_attach l g e) e) e) e)
    as [-> ->].
  destruct (fill_competition_status
              (espn_reconcile_scores (espn_attach l g e) e) e) as [-> ->].
  destruct (espn_reconcile_status (espn_attach l g e) e) as [-> ->].
  split; [|done]. simpl.
  apply str_or_Some, preferred_status_nonempty; by apply str_or_nonempty.
Qed.

Lemma merge_sofa_row_status g e :
  observed_status (merge_sofa_row g e)
  = _preferred_status (observed_status g) (observed_status e)
  ∧ (forall src,
        src ∈ sources (merge_sofa_row g e)
        <-> src ∈ sources g ++ [ustr "sofascore"]).
Proof.
  unfold merge_sofa_row, observed_status.
  destruct (fill_competition_status
              (sofa_reconcile_scores (sofa_attach g e) e) e) as [-> ->].
  destruct (sofa_reconcile_status (sofa_attach g e) e) as [-> ->].
  unfold sofa_attach. case_bool_decide as Hin; simpl.
  - split.
    + apply str_or_Some, preferred_status_nonempty; by apply str_or_nonempty.
    + intros src. rewrite elem_of_app, list_elem_of_singleton.
      split; [by left|]. by intros [?| ->].
  - split; [|done].
    apply str_or_Some, preferred_status_nonempty; by apply str_or_nonempty.
Qed.

Lemma merge_streamed_row_status g e :
  status (merge_streamed_row g e) = status g
  ∧ (forall src,
        src ∈ sources (merge_streamed_row g e)
        <-> src ∈ sources g
            ++ (if truthy (streamed_watch_url e) then [ustr "streamed"]
                else [])).
Proof.
  unfold merge_streamed_row. destruct (truthy _).
  - case_bool_decide as Hin; simpl; (split; [done|]); [|done].
    intros src. rewrite elem_of_app, list_elem_of_singleton.
    split; [by left|]. by intros [?| ->].
  - split; [done|]. intros src. by rewrite app_nil_r.
Qed.
End Status.

Lemma scoring_snoc tr src row :
  src ≠ ustr "streamed" -> scoring (tr ++ [(src, row)]) = scoring tr ++ [(src, row)].
Proof.
  intros Hne. unfold scoring. rewrite filter_app. f_equal.
  by rewrite filter_cons_True.
Qed.

Lemma scoring_snoc_streamed tr row :
  scoring (tr ++ [(ustr "streamed", row)]) = scoring tr.
Proof.
  unfold scoring. rewrite filter_app, filter_cons_False, filter_nil.
  - apply app_nil_r.
  - simpl. by intros Hne.
Qed.

Lemma goal_scoring : ustr "goal" ≠ ustr "streamed".
Proof. by compute. Qed.

Lemma espn_scoring : ustr "espn" ≠ ustr "streamed".
Proof. by compute. Qed.

Lemma sofascore_scoring : ustr "sofascore" ≠ ustr "streamed".
Proof. by compute. Qed.

Section Provenance.
Context `{PyRuntime}.
Variables goal_rows espn_rows streamed_rows sofa_rows : list Row.

Local Abbreviation ok :=
  (traced_ok goal_rows espn_rows streamed_rows sofa_rows).

Lemma traced_espn_update_fst rows l t :
  (traced_espn_update rows l t).1 = espn_update rows l t.1.
Proof. unfold traced_espn_update, espn_update. by destruct (rows !! _). Qed.

Lemma traced_sofa_update_fst rows l t :
  (traced_sofa_update rows l t).1 = sofa_update rows l t.1.
Proof. unfold traced_sofa_update, sofa_update. by destruct (rows !! _). Qed.

Lemma traced_stream_update_fst rows l t :
  (traced_stream_update rows l t).1 = stream_update rows l t.1.
Proof. unfold traced_stream_update, stream_update. by destruct (rows !! _). Qed.

Lemma traced_seed_ok source seed row :
  ustr source ≠ ustr "streamed" ->
  ((ustr source = ustr "goal" ∧ row ∈ goal_rows)
   ∨ (ustr source = ustr "espn" ∧ row ∈ espn_rows)
   ∨ (ustr source = ustr "sofascore" ∧ row ∈ sofa_rows)
   ∨ (ustr source = ustr "streamed" ∧ row ∈ streamed_rows)) ->
  sources (seed row) = [ustr source] ->
  observed_status (seed row) = observed_status row ->
  ok (traced_seed source seed row).
Proof.
  intros Hne Hin Hsrc Hst. unfold traced_ok, traced_seed. simpl.
  split_and!.
  - by constructor.
  - intros src. by rewrite Hsrc.
  - unfold scoring. rewrite filter_cons_True by done. simpl. rewrite Hst.
    apply highest_priority_first_singleton.
  - intros _. rewrite Hst. apply highest_priority_first_singleton.
Qed.

Lemma traced_espn_update_ok l t :
  ok t -> ok (traced_espn_update espn_rows l t).
Proof.
  intros (Hin & Hsrc & Hst & Hall). unfold traced_espn_update.
  destruct (espn_rows !! candidate_index l) as [e|] eqn:He; [|done].
  destruct (merge_espn_row_status l t.1 e) as [Hst' Hsrc'].
  unfold traced_ok. simpl. split_and!.
  - apply Forall_app. split; [done|]. constructor; [|done].
    right. left. split; [done|]. by eapply list_elem_of_lookup_2.
  - intros src. rewrite Hsrc', fmap_app, !elem_of_app. by rewrite Hsrc.
  - rewrite (scoring_snoc _ _ _ espn_scoring), !fmap_app, Hst'. simpl.
    by apply highest_priority_first_snoc.
  - intros Hzero. rewrite !fmap_app, Hst'. simpl.
    by apply highest_priority_first_snoc, Hall.
Qed.

Lemma traced_sofa_update_ok l t :
  ok t -> ok (traced_sofa_update sofa_rows l t).
Proof.
  intros (Hin & Hsrc & Hst & Hall). unfold traced_sofa_update.
  destruct (sofa_rows !! candidate_index l) as [e|] eqn:He; [|done].
  destruct (merge_sofa_row_status t.1 e) as [Hst' Hsrc'].
  unfold traced_ok. simpl. split_and!.
  - apply Forall_app. split; [done|]. constructor; [|done].
    right. right. left. split; [done|]. by eapply list_elem_of_lookup_2.
  - intros src. rewrite Hsrc', fmap_app, !elem_of_app. by rewrite Hsrc.
  - rewrite (scoring_snoc _ _ _ sofascore_scoring), !fmap_app, Hst'. simpl.
    by apply highest_priority_first_snoc.
  - intros Hzero. rewrite !fmap_app, Hst'. simpl.
    by apply highest_priority_first_snoc, Hall.
Qed.

Lemma traced_stream_update_ok l t :
  ok t -> ok (traced_stream_update streamed_rows l t).
Proof.
  intros (Hin & Hsrc & Hst & Hall). unfold traced_stream_update.
  destruct (streamed_rows !! candidate_index l) as [e|] eqn:He; [|done].
  destruct (merge_streamed_row_status t.1 e) as [Hst' Hsrc'].
  assert (e ∈ streamed_rows) as Hrow by (by eapply list_elem_of_lookup_2).
  unfold traced_ok, observed_status in *. simpl. rewrite Hst'.
  destruct (truthy (streamed_watch_url e)).
  - split_and!.
    + apply Forall_app. split; [done|]. constructor; [|done].
      right. right. right. by split.
    + intros src. rewrite Hsrc', fmap_app, !elem_of_app. by rewrite Hsrc.
    + by rewrite scoring_snoc_streamed.
    + intros Hzero. rewrite !fmap_app. simpl.
      rewrite <- (preferred_status_priority_0
                    (str_or (status t.1) (ustr "unknown"))
                    (str_or (status e) (ustr "unknown"))).
      * by apply highest_priority_first_snoc, Hall.
      * by apply (proj1 (Forall_forall _ _) Hzero e Hrow).
  - split_and!; [done| |done..].
    intros src. rewrite Hsrc', app_nil_r. apply Hsrc.
Qed.

(** The traced stages project to the stages of the code. *)
Lemma espn_stage_erase (merged : list Traced) rows links :
  espn_stage (merged.*1) rows links
  = (fold_alter base_index (traced_espn_update rows) links merged
     ++ (traced_seed "espn" seed_espn
         <$> unlinked_rows (claimed links) 0 rows)).*1.
Proof.
  rewrite espn_stage_eq, fmap_app, append_unlinked_nil.
  rewrite (fold_alter_fmap base_index fst (traced_espn_update rows)
             (espn_update rows)) by apply traced_espn_update_fst.
  by rewrite <- list_fmap_compose.
Qed.

Lemma sofa_stage_erase (merged : list Traced) rows links :
  sofa_stage (merged.*1) rows links
  = (fold_alter base_index (traced_sofa_update rows) links merged
     ++ (traced_seed "sofascore" seed_sofa
         <$> unlinked_rows (claimed links) 0 rows)).*1.
Proof.
  rewrite sofa_stage_eq, fmap_app, append_unlinked_nil.
  rewrite (fold_alter_fmap base_index fst (traced_sofa_update rows)
             (sofa_update rows)) by apply traced_sofa_update_fst.
  by rewrite <- list_fmap_compose.
Qed.

Lemma streamed_stage_erase (merged : list Traced) rows links :
  streamed_stage (merged.*1) rows links
  = (fold_alter base_index (traced_stream_update rows) links merged).*1.
Proof.
  rewrite stream_fold.
  by rewrite (fold_alter_fmap base_index fst (traced_stream_update rows)
                (stream_update rows)) by apply traced_stream_update_fst.
Qed.
End Provenance.

Section Merge.
Context `{PyRuntime}.

(** The code is the traced merge without the provenance, sorted. *)
Lemma traced_merge_erase goal_rows espn_rows streamed_rows sofa_rows :
  merge_provider_matches goal_rows espn_rows streamed_rows sofa_rows
  = (traced <- traced_merge goal_rows espn_rows streamed_rows sofa_rows ;;
     Ok (sort_rows (traced.*1))).
Proof.
  unfold merge_provider_matches, traced_merge.
  replace (seed_goal <$> goal_rows)
    with ((traced_seed "goal" seed_goal <$> goal_rows).*1)
    by (by rewrite <- list_fmap_compose).
  destruct (_match_records _ espn_rows _ _) as [links1|]; simpl; [|done].
  rewrite espn_stage_erase.
  destruct (_match_records _ (default [] sofa_rows) _ _) as [links2|]; simpl;
    [|done].
  rewrite sofa_stage_erase.
  destruct (_match_records _ streamed_rows _ _) as [links3|]; simpl; [|done].
  by rewrite streamed_stage_erase.
Qed.

Lemma traced_merge_total goal_rows espn_rows streamed_rows sofa_rows :
  exists traced,
    traced_merge goal_rows espn_rows streamed_rows sofa_rows = Ok traced.
Proof.
  unfold traced_merge.
  assert (¬ (180 == 0)%Q) as Hmax by done.
  destruct (match_records_total 180
              ((traced_seed "goal" seed_goal <$> goal_rows).*1) espn_rows
              0.76 Hmax) as [links1 ->]. simpl.
  match goal with
  | |- context [_match_records ?m ?c 180 0.78] =>
      destruct (match_records_total 180 m c 0.78 Hmax) as [links2 ->]
  end. simpl.
  match goal with
  | |- context [_match_records ?m ?c 180 0.80] =>
      destruct (match_records_total 180 m c 0.80 Hmax) as [links3 ->]
  end. simpl. by eexists.
Qed.

Lemma traced_merge_ok goal_rows espn_rows streamed_rows sofa_rows traced :
  traced_merge goal_rows espn_rows streamed_rows sofa_rows = Ok traced ->
  Forall
    (traced_ok goal_rows espn_rows streamed_rows (default [] sofa_rows))
    traced.
Proof.
  unfold traced_merge.
  destruct (_match_records _ espn_rows _ _) as [links1|]; simpl; [|done].
  destruct (_match_records _ (default [] sofa_rows) _ _) as [links2|]; simpl;
    [|done].
  destruct (_match_records _ streamed_rows _ _) as [links3|]; simpl; [|done].
  intros [= <-].
  apply fold_alter_Forall; [intros l t; apply traced_stream_update_ok|].
  apply Forall_app. split.
  - apply fold_alter_Forall; [intros l t; apply traced_sofa_update_ok|].
    apply Forall_app. split.
    + apply fold_alter_Forall; [intros l t; apply traced_espn_update_ok|].
      apply Forall_forall. intros t (row & -> & Hrow)%list_elem_of_fmap.
      apply traced_seed_ok; [apply goal_scoring|by left|done..].
    + apply Forall_forall. intros t (row & -> & Hrow)%list_elem_of_fmap.
      apply unlinked_rows_subseteq in Hrow.
      apply traced_seed_ok; [apply espn_scoring| |done..].
      right. by left.
  - apply Forall_forall. intros t (row & -> & Hrow)%list_elem_of_fmap.
    apply unlinked_rows_subseteq in Hrow.
    apply traced_seed_ok; [apply sofascore_scoring| |done..].
    right. right. by left.
Qed.
End Merge.

(** C3, as the code has it. [merge_provider_matches] returns, and every row
    of its result comes with contributors, rows of the inputs whose source ids
    are the sources of the row, such that the status of the row (absent or
    empty read as [unknown]) is the highest-priority status, the earliest one
    in case of a tie, among the contributors of the anchor, second and third
    source; when the rows of the streamed source only carry statuses of
    priority 0, as those of its provider do, it is so among all contributors.
    The priorities are those of the table, 0 for any other status. *)
Theorem merged_status_highest_priority `{PyRuntime}
    (goal_rows espn_rows streamed_rows : list Row)
    (sofa_rows : option (list Row)) :
  (status_priority (ustr "live") = 5%Z ∧
   status_priority (ustr "finished") = 4%Z ∧
   status_priority (ustr "postponed") = 3%Z ∧
   status_priority (ustr "cancelled") = 2%Z ∧
   status_priority (ustr "scheduled") = 1%Z ∧
   status_priority (ustr "unknown") = 0%Z ∧
   forall s, STATUS_PRIORITY !! s = None -> status_priority s = 0%Z) ∧
  exists out traced,
    merge_provider_matches goal_rows espn_rows streamed_rows sofa_rows
    = Ok out ∧
    traced_merge goal_rows espn_rows streamed_rows sofa_rows = Ok traced ∧
    out ≡ₚ traced.*1 ∧
    forall r,
      r ∈ out ->
      exists contributors,
        (r, contributors) ∈ traced ∧
        from_inputs goal_rows espn_rows streamed_rows (default [] sofa_rows)
          contributors ∧
        (forall src, src ∈ sources r <-> src ∈ contributors.*1) ∧
        highest_priority_first
          (observed_status <$> (scoring contributors).*2)
          (observed_status r) ∧
        (Forall (fun row => status_priority (observed_status row) = 0%Z)
           streamed_rows ->
         highest_priority_first (observed_status <$> contributors.*2)
           (observed_status r)).
Proof.
  split.
  { pose proof status_priority_table as (? & ? & ? & ? & ? & ?).
    split_and!; [done..|]. intros s Hs. unfold status_priority. by rewrite Hs. }
  destruct (traced_merge_total goal_rows espn_rows streamed_rows sofa_rows)
    as [traced Htraced].
  exists (sort_rows (traced.*1)), traced.
  rewrite traced_merge_erase, Htraced. split_and!; [done..|apply sort_rows_perm|].
  intros r Hr. rewrite sort_rows_perm in Hr.
  apply list_elem_of_fmap in Hr as ([r' contributors] & -> & Hin).
  exists contributors. split; [done|].
  apply traced_merge_ok in Htraced.
  by apply (proj1 (Forall_forall _ _) Htraced (r', contributors) Hin).
Qed.

(** C3, as stated, fails: the streamed source is a contributing source of a
    row it attaches its watch URL to, and its status is not consulted. A
    finished anchor row linked to a streamed row that says live stays
    finished, with sources [goal] and [streamed]. *)
Lemma streamed_status_not_consulted :
  exists r contributors,
    @merge_provider_matches samples.runtime [finished_goal_row] []
      [live_streamed_row] None = Ok [r] ∧
    @traced_merge samples.runtime [finished_goal_row] [] [live_streamed_row]
      None = Ok [(r, contributors)] ∧
    sources r = [ustr "goal"; ustr "streamed"] ∧
    contributors
    = [(ustr "goal", finished_goal_row); (ustr "streamed", live_streamed_row)]
    ∧ status r = Some (ustr "finished") ∧
    ¬ highest_priority_first (observed_status <$> contributors.*2)
        (observed_status r).
Proof.
  eexists _, _. split_and!.
  - vm_compute. reflexivity.
  - vm_compute. reflexivity.
  - vm_compute. reflexivity.
  - vm_compute. reflexivity.
  - vm_compute. reflexivity.
  - intros (k & _ & Hall & _).
    specialize (Hall 1 (ustr "live") eq_refl). by vm_compute in Hall.
Qed.

Lemma merged_status_highest_priority_witness :
  (status_priority (ustr "live") = 5%Z ∧
   status_priority (ustr "finished") = 4%Z ∧
   status_priority (ustr "postponed") = 3%Z ∧
   status_priority (ustr "cancelled") = 2%Z ∧
   status_priority (ustr "scheduled") = 1%Z ∧
   status_priority (ustr "unknown") = 0%Z ∧
   forall s, STATUS_PRIORITY !! s = None -> status_priority s = 0%Z) ∧
  exists out traced,
    @merge_provider_matches samples.runtime [finished_goal_row]
      [samples.espn_row 2 1] [live_streamed_row] None
    = Ok out ∧
    @traced_merge samples.runtime [finished_goal_row] [samples.espn_row 2 1]
      [live_streamed_row] None = Ok traced ∧
    out ≡ₚ traced.*1 ∧
    forall r,
      r ∈ out ->
      exists contributors,
        (r, contributors) ∈ traced ∧
        from_inputs [finished_goal_row] [samples.espn_row 2 1]
          [live_streamed_row] [] contributors ∧
        (forall src, src ∈ sources r <-> src ∈ contributors.*1) ∧
        highest_priority_first
          (observed_status <$> (scoring contributors).*2)
          (observed_status r) ∧
        (Forall (fun row => status_priority (observed_status row) = 0%Z)
           [live_streamed_row] ->
         highest_priority_first (observed_status <$> contributors.*2)
           (observed_status r)).
Proof.
  apply (@merged_status_highest_priority samples.runtime [finished_goal_row]
           [samples.espn_row 2 1] [live_streamed_row] None).
Defined.

(** * The test suite, on the sample runtime

    The three merge and gate tests of [tests/footballapi/test_service.py],
    evaluated on the embedding. *)

Example merge_marks_confirmed_when_scores_match :
  exists row,
    @merge_provider_matches samples.runtime [samples.goal_row 2 1]
      [samples.espn_row 2 1] [samples.streamed_row (Some samples.watch_url)]
      None
    = Ok [row] ∧
    verification row = Some (ustr "confirmed_by_multiple_sources") ∧
    (0.95 <= confidence row)%Q ∧
    sources row = [ustr "goal"; ustr "espn"; ustr "streamed"] ∧
    streamed_watch_url row = Some samples.watch_url.
Proof.
  eexists. split_and!; by vm_compute.
Qed.

Example merge_marks_conflict_when_scores_differ :
  exists row,
    @merge_provider_matches samples.runtime [samples.goal_row 2 1]
      [samples.espn_row 1 1] [] None
    = Ok [row] ∧
    verification row = Some (ustr "score_conflict") ∧
    (confidence row <= 0.56)%Q ∧
    discrepancies row = [ustr "Goal score 2-1 differs from ESPN 1-1"].
Proof.
  eexists. split_and!; by vm_compute.
Qed.

(** A live row updated twenty minutes before the snapshot, with a threshold
    of sixty seconds. *)
Example gate_drops_stale_live_rows_by_default :
  let stale_goal :=
    set_last_updated_utc (Some (ustr "2024-05-01T11:40:00Z"))
      (seed_goal (samples.goal_row 1 0)) in
  @_apply_quality_gate samples.runtime 60 samples.noon [stale_goal]
    (Some samples.noon) false false
  = ([], 1, 0) ∧
  exists row,
    @_apply_quality_gate samples.runtime 60 samples.noon [stale_goal]
      (Some samples.noon) true false
    = ([row], 0, 0) ∧
    is_stale row = Some true ∧
    staleness_reason row = Some (ustr "older_than_60_seconds").
Proof.
  split; [by vm_compute|]. eexists. split_and!; by vm_compute.
Qed.

(** * Facts on the float arithmetic *)

Lemma pow2_pos e : (0 < pow2 e)%Q.
Proof.
  unfold pow2. destruct (Z.leb_spec 0 e) as [He|He]; [|done].
  assert (0 < 2 ^ e)%Z as Hpos by (by apply Z.pow_pos_nonneg).
  unfold Qlt. simpl. lia.
Qed.

Lemma round_half_even_nonneg q : (0 <= q)%Q -> (0 <= round_half_even q)%Z.
Proof.
  intros Hq. unfold round_half_even.
  assert (0 <= Qfloor q)%Z as Hfloor.
  { change 0%Z with (Qfloor 0). by apply Qfloor_resp_le. }
  destruct (_ ?= _)%Q; [destruct (Z.even _)|..]; lia.
Qed.

Lemma round64_pos_nonneg q : (0 <= q)%Q -> (0 <= round64_pos q)%Q.
Proof.
  intros Hq. unfold round64_pos.
  apply Qmult_le_0_compat; [|apply Qlt_le_weak, pow2_pos].
  change 0%Q with (inject_Z 0). rewrite <- Zle_Qle.
  apply round_half_even_nonneg.
  apply Qmult_le_0_compat; [done|].
  apply Qinv_le_0_compat, Qlt_le_weak, pow2_pos.
Qed.

Lemma round64_nonneg q : (0 <= q)%Q -> (0 <= round64 q)%Q.
Proof.
  destruct q as [n d]. unfold round64. simpl. destruct n as [|n|n].
  - done.
  - intros _. by apply round64_pos_nonneg.
  - intros Hq. by unfold Qle in Hq.
Qed.

Lemma fdiv_nonneg x y : (0 <= x)%Q -> (0 <= y)%Q -> (0 <= fdiv x y)%Q.
Proof.
  intros Hx Hy. unfold fdiv. apply round64_nonneg.
  apply Qmult_le_0_compat; [by apply round64_nonneg|].
  by apply Qinv_le_0_compat, round64_nonneg.
Qed.

Lemma Qabs_opp_eq (x : Q) : Qabs (- x) = Qabs x.
Proof. destruct x as [n d]. unfold Qabs, Qopp. simpl. by rewrite Z.abs_opp. Qed.

(** Rounding commutes with the change of sign. *)
Lemma round64_opp (n : Z) (d : positive) :
  round64 (- n # d) = (- round64 (n # d))%Q.
Proof.
  unfold round64. simpl. destruct n as [|n|n]; simpl; [done..|].
  destruct (round64_pos (Z.pos n # d)) as [a b]. unfold Qopp. simpl.
  by rewrite Z.opp_involutive.
Qed.

Lemma total_seconds_swap (left_dt right_dt : Z) :
  Qabs (normalize.total_seconds right_dt left_dt)
  = Qabs (normalize.total_seconds left_dt right_dt).
Proof.
  unfold normalize.total_seconds.
  replace (right_dt - left_dt)%Z with (- (left_dt - right_dt))%Z by lia.
  by rewrite round64_opp, Qabs_opp_eq.
Qed.

(** The thresholds of the linker are below the floats they stand for. *)
Lemma thresholds_as_floats :
  (0.76 <= round64 0.76)%Q ∧ (0.78 <= round64 0.78)%Q
  ∧ (0.80 <= round64 0.80)%Q.
Proof. split_and!; by vm_compute. Qed.

(** Some computations in floats: [0.7 + 0.10] is below [0.8],
    [0.1 + 0.2] is [0.30000000000000004], the confidence of a link of score
    [0.775] is [0.83], and [round] goes by the binary value of its
    argument. *)
Lemma float_arithmetic_examples :
  (fadd 0.7 (fmul 1 0.10) < round64 0.8)%Q ∧
  (fadd 0.7 (fmul 1 0.10) == 7205759403792793 # 9007199254740992)%Q ∧
  (fadd 0.1 0.2 == 5404319552844596 # 18014398509481984)%Q ∧
  round2 (py_min 0.98 (fadd 0.80 (fsub 0.775 0.75))) = 0.83%Q ∧
  round2 2.675 = 2.67%Q ∧ round2 0.125 = 0.12%Q.
Proof. split_and!; by vm_compute. Qed.

(** * More on the normalizer *)

Import normalize.

(** ** The shape of a normalised name *)

(** Every normalised name is a list of tokens of the characters [a-z0-9],
    none of them a stop word, joined by single spaces: splitting it gives the
    tokens back, and it has no other character than [a-z0-9] and the space. *)
Theorem normalize_team_name_tokens `{PyRuntime} (name : option pystr) :
  exists parts,
    normalize_team_name name = join (ustr " ") parts ∧
    split (normalize_team_name name) = parts ∧
    Forall token parts ∧
    Forall (fun p => p ∉ TEAM_STOP_WORDS) parts ∧
    Forall (fun c => re_keep c = true) (normalize_team_name name).
Proof.
  destruct (normalize_team_name_shape name) as (parts & Htok & Hstop & ->).
  exists parts. split_and!; [done| |done..|].
  - by apply split_join.
  - by apply join_kept.
Qed.

(** A list of tokens without stop words, joined by spaces, is its own normal
    form. *)
Lemma normalize_team_name_joined `{AsciiStable} parts :
  Forall token parts -> Forall (fun p => p ∉ TEAM_STOP_WORDS) parts ->
  normalize_team_name (Some (join [32%N] parts)) = join [32%N] parts.
Proof.
  intros Htok Hstop. destruct parts as [|p ps]; [done|].
  pose proof (join_kept _ Htok) as Hkept.
  unfold normalize_team_name.
  assert (truthy (Some (join [32%N] (p :: ps))) = true) as ->.
  { pose proof (join_nonempty p ps (Forall_inv Htok)).
    by destruct (join _ _). }
  simpl negb. cbv iota. cbn [default from_option id].
  rewrite (nfkd_kept _ Hkept).
  assert (filter (fun ch => combining ch = 0%N) (join [32%N] (p :: ps))
          = join [32%N] (p :: ps)) as ->.
  { apply filter_all. eapply Forall_impl; [exact Hkept|].
    intros c Hc. by apply combining_kept. }
  rewrite (lower_kept _ Hkept). unfold re_sub. rewrite (re_sub_aux_id _ _ Hkept), (split_join _ Htok).
  rewrite filter_all; [done|].
  apply Forall_forall. intros q Hq. split.
  - eapply Forall_forall in Htok as [? _]; done.
  - by eapply Forall_forall in Hstop.
Qed.

(** Names are compared through their normal forms: replacing either name by
    its normal form does not change the similarity. *)
Theorem similarity_of_normal_forms `{AsciiStable}
    (left_name right_name : option pystr) :
  normalize.similarity (Some (normalize_team_name left_name))
    (Some (normalize_team_name right_name))
  = normalize.similarity left_name right_name.
Proof.
  unfold normalize.similarity.
  destruct (normalize_team_name_shape left_name) as (ps & Hps & Hns & ->).
  destruct (normalize_team_name_shape right_name) as (qs & Hqs & Hnq & ->).
  by rewrite !normalize_team_name_joined.
Qed.

Lemma similarity_of_normal_forms_witness :
  @normalize.similarity samples.runtime
    (Some (@normalize_team_name samples.runtime (Some (ustr "Alpha F.C."))))
    (Some (@normalize_team_name samples.runtime (Some (ustr "ALPHA"))))
  = @normalize.similarity samples.runtime (Some (ustr "Alpha F.C."))
      (Some (ustr "ALPHA")).
Proof.
  apply (@similarity_of_normal_forms samples.runtime ascii_runtime_stable).
Defined.

(** ** The similarity of two pairs of teams *)

Lemma Qplus_comm_eq (x y : Q) : (x + y)%Q = (y + x)%Q.
Proof.
  unfold Qplus. f_equal; [apply Z.add_comm|apply Pos.mul_comm].
Qed.

Lemma fadd_comm (x y : Q) : fadd x y = fadd y x.
Proof. unfold fadd. by rewrite Qplus_comm_eq. Qed.

(** Exchanging home and away in both pairs at once changes neither the score
    nor the orientation. *)
Theorem team_pair_similarity_swap_both `{PyRuntime}
    (home_a away_a home_b away_b : pystr) :
  team_pair_similarity away_a home_a away_b home_b
  = team_pair_similarity home_a away_a home_b away_b.
Proof.
  unfold team_pair_similarity.
  by rewrite (fadd_comm (normalize.similarity (Some away_a) (Some away_b))),
    (fadd_comm (normalize.similarity (Some away_a) (Some home_b))).
Qed.

(** Exchanging home and away in the second pair only keeps the score, and the
    swapped orientation can win for at most one of the two: the pair absorbs a
    source that disagrees on who plays at home. *)
Theorem team_pair_similarity_swap_second `{PyRuntime}
    (home_a away_a home_b away_b : pystr) :
  ((team_pair_similarity home_a away_a away_b home_b).1
   == (team_pair_similarity home_a away_a home_b away_b).1)%Q ∧
  ((team_pair_similarity home_a away_a home_b away_b).2 = true ->
   (team_pair_similarity home_a away_a away_b home_b).2 = false).
Proof.
  unfold team_pair_similarity.
  generalize
    (fdiv
       (fadd (normalize.similarity (Some home_a) (Some home_b))
          (normalize.similarity (Some away_a) (Some away_b)))
       2),
    (fdiv
       (fadd (normalize.similarity (Some home_a) (Some away_b))
          (normalize.similarity (Some away_a) (Some home_b)))
       2).
  intros d s.
  unfold Qgeb.
  destruct (Qle_bool s d) eqn:Hsd, (Qle_bool d s) eqn:Hds; simpl.
  - apply Qle_bool_iff in Hsd, Hds. split; [by apply Qle_antisym|done].
  - split; [apply Qeq_refl|done].
  - split; [apply Qeq_refl|done].
  - exfalso. assert (¬ (s <= d)%Q) as Hn.
    { intros Hle. apply Qle_bool_iff in Hle. congruence. }
    apply Qnot_le_lt, Qlt_le_weak, Qle_bool_iff in Hn. congruence.
Qed.

(** ** Timestamps *)

Lemma lstrip_blank pad s :
  Forall (fun c => py_isspace c = true) pad -> lstrip (pad ++ s) = lstrip s.
Proof. induction 1 as [|c pad Hc _ IH]; simpl; [done|]. by rewrite Hc. Qed.

Lemma lstrip_all_blank pad :
  Forall (fun c => py_isspace c = true) pad -> lstrip pad = [].
Proof.
  intros Hpad. rewrite <- (app_nil_r pad). by rewrite lstrip_blank by done.
Qed.

Lemma lstrip_app_solid s c t :
  py_isspace c = false -> lstrip (s ++ c :: t) = lstrip s ++ c :: t.
Proof.
  intros Hc. induction s as [|x s IH]; simpl; [by rewrite Hc|].
  by destruct (py_isspace x).
Qed.

Lemma lstrip_nil_blank s :
  lstrip s = [] -> Forall (fun c => py_isspace c = true) s.
Proof.
  induction s as [|c s IH]; simpl; [constructor|].
  destruct (py_isspace c) eqn:Hc; [|done]. intros Hs. by constructor; auto.
Qed.

Lemma strip_all_blank pad :
  Forall (fun c => py_isspace c = true) pad -> strip pad = [].
Proof. intros Hpad. unfold strip. by rewrite (lstrip_all_blank pad) by done. Qed.

Lemma rev_blank pad :
  Forall (fun c => py_isspace c = true) pad ->
  Forall (fun c => py_isspace c = true) (rev pad).
Proof. intros Hpad. by apply Forall_rev. Qed.

(** [strip] removes blanks on both sides, whatever is between them. *)
Lemma strip_padded before s after :
  Forall (fun c => py_isspace c = true) before ->
  Forall (fun c => py_isspace c = true) after ->
  strip (before ++ s ++ after) = strip s.
Proof.
  intros Hb Ha. unfold strip. rewrite lstrip_blank by done. f_equal.
  destruct (lstrip s) as [|c t] eqn:Hs.
  - apply lstrip_nil_blank in Hs.
    rewrite (lstrip_all_blank (s ++ after)) by (by apply Forall_app).
    done.
  - assert (py_isspace c = false) as Hc.
    { clear -Hs. induction s as [|x s IH]; simpl in Hs; [done|].
      destruct (py_isspace x) eqn:Hx; [by apply IH|]. by simplify_eq. }
    assert (lstrip (s ++ after) = (c :: t) ++ after) as ->.
    { clear -Hs Hc. induction s as [|x s IH]; simpl in *; [done|].
      destruct (py_isspace x) eqn:Hx; [by apply IH|]. by simplify_eq. }
    rewrite rev_app_distr. by rewrite lstrip_blank by (by apply rev_blank).
Qed.

Lemma strip_solid_end s c :
  py_isspace c = false -> strip (s ++ [c]) = lstrip s ++ [c].
Proof.
  intros Hc. unfold strip. rewrite lstrip_app_solid by done.
  rewrite rev_app_distr. simpl. rewrite Hc.
  change (c :: rev (lstrip s)) with ([c] ++ rev (lstrip s)).
  by rewrite rev_app_distr, rev_involutive.
Qed.

Lemma nonempty_case {A B : Type} (l : list A) (a b : B) :
  l ≠ [] -> match l with [] => a | _ :: _ => b end = b.
Proof. by destruct l. Qed.

Section Timestamps.
Context `{PyRuntime}.

Lemma parse_iso_utc_blank (value : option pystr) :
  Forall (fun c => py_isspace c = true) (default [] value) ->
  parse_iso_utc value = None.
Proof.
  intros Hblank. unfold parse_iso_utc.
  destruct (truthy value); [|done]. simpl.
  by rewrite strip_all_blank.
Qed.

(** Blanks around a timestamp do not matter, and a timestamp made of blanks
    only is not parsed, whatever [fromisoformat] accepts. *)
Theorem parse_iso_utc_padded (before s after : pystr) :
  Forall (fun c => py_isspace c = true) before ->
  Forall (fun c => py_isspace c = true) after ->
  parse_iso_utc (Some (before ++ s ++ after)) = parse_iso_utc (Some s) ∧
  parse_iso_utc (Some (before ++ after)) = None.
Proof.
  intros Hb Ha. split.
  2:{ apply parse_iso_utc_blank. simpl. by apply Forall_app. }
  unfold parse_iso_utc.
  cbn [default from_option id]. rewrite (strip_padded _ _ _ Hb Ha).
  destruct (truthy (Some s)) eqn:Hs, (truthy (Some (before ++ s ++ after)))
    eqn:Hp; simpl; try done.
  - destruct (before ++ s ++ after) eqn:Heq; [|done].
    apply app_eq_nil in Heq as [_ [-> _]%app_eq_nil]. done.
  - by destruct s.
Qed.

(** A final [Z] reads as the offset [+00:00]. *)
Theorem parse_iso_utc_zulu (s : pystr) :
  parse_iso_utc (Some (s ++ ustr "Z"))
  = parse_iso_utc (Some (s ++ ustr "+00:00")).
Proof.
  unfold parse_iso_utc.
  assert (truthy (Some (s ++ ustr "Z")) = true) as -> by (by destruct s).
  assert (truthy (Some (s ++ ustr "+00:00")) = true) as -> by (by destruct s).
  cbn [negb default from_option id].
  change (ustr "Z") with (@cons codepoint 90%N []).
  change (ustr "+00:00")
    with (@app codepoint [43; 48; 48; 58; 48]%N (@cons codepoint 48%N [])).
  rewrite (strip_solid_end s 90%N) by done.
  rewrite (app_assoc s), (strip_solid_end _ 48%N) by done.
  assert (lstrip (s ++ [43; 48; 48; 58; 48]%N)
          = lstrip s ++ [43; 48; 48; 58; 48]%N) as ->.
  { by apply (lstrip_app_solid s 43%N [48; 48; 58; 48]%N). }
  rewrite !nonempty_case by (by intros [_ ?]%app_eq_nil).
  rewrite !rev_app_distr. simpl. by rewrite rev_involutive, <- app_assoc.
Qed.

(** For two timestamps on which [parse_iso_utc] does not raise: the gap in
    minutes does not depend on their order, is never negative, and is absent
    exactly when one of them is not parsed. *)
Theorem minutes_between_symmetric (left_iso right_iso : option pystr) :
  parse_iso_utc_raises left_iso = false ->
  parse_iso_utc_raises right_iso = false ->
  minutes_between left_iso right_iso = minutes_between right_iso left_iso ∧
  (forall gap, minutes_between left_iso right_iso = Some gap -> (0 <= gap)%Q) ∧
  (minutes_between left_iso right_iso = None
   <-> parse_iso_utc left_iso = None ∨ parse_iso_utc right_iso = None).
Proof.
  intros _ _. unfold minutes_between.
  destruct (parse_iso_utc left_iso) as [l|], (parse_iso_utc right_iso) as [r|].
  - split; [|split].
    + by rewrite total_seconds_swap.
    + intros gap Hgap.
      assert (gap = fdiv (Qabs (total_seconds l r)) 60) as -> by congruence.
      apply fdiv_nonneg; [apply Qabs_nonneg|done].
    + split; [done|]. by intros [?|?].
  - split; [done|]. split; [done|]. split; [by right|done].
  - split; [done|]. split; [done|]. split; [by left|done].
  - split; [done|]. split; [done|]. split; [by left|done].
Qed.
End Timestamps.

Lemma parse_iso_utc_padded_witness :
  @parse_iso_utc samples.runtime
    (Some (ustr "  " ++ ustr "2024-05-01T12:00:00Z" ++ ustr " "))
  = @parse_iso_utc samples.runtime (Some (ustr "2024-05-01T12:00:00Z")) ∧
  @parse_iso_utc samples.runtime (Some (ustr "  " ++ ustr " ")) = None.
Proof.
  apply (@parse_iso_utc_padded samples.runtime (ustr "  ")
           (ustr "2024-05-01T12:00:00Z") (ustr " ")).
  - by repeat constructor.
  - by repeat constructor.
Defined.

Lemma minutes_between_symmetric_witness :
  let left_iso := Some (ustr "2024-05-01T12:00:00Z") in
  let right_iso := Some (ustr "2024-05-01T13:30:00") in
  @minutes_between samples.runtime left_iso right_iso
  = @minutes_between samples.runtime right_iso left_iso ∧
  (forall gap,
      @minutes_between samples.runtime left_iso right_iso = Some gap ->
      (0 <= gap)%Q) ∧
  (@minutes_between samples.runtime left_iso right_iso = None
   <-> @parse_iso_utc samples.runtime left_iso = None
       ∨ @parse_iso_utc samples.runtime right_iso = None).
Proof.
  apply (@minutes_between_symmetric samples.runtime
           (Some (ustr "2024-05-01T12:00:00Z"))
           (Some (ustr "2024-05-01T13:30:00"))).
  - vm_compute. reflexivity.
  - vm_compute. reflexivity.
Defined.

(** * More on the linker and the helpers of the service *)

Import service.

Section Helpers.
Context `{PyRuntime}.

(** For two timestamps on which [parse_iso_utc] does not raise,
    [_max_timestamp] returns one of its two arguments, and the instant it
    denotes is the later of the two that parse: the only one when the other
    does not parse, none when neither does. *)
Theorem max_timestamp_latest (left_iso right_iso : option pystr) :
  normalize.parse_iso_utc_raises left_iso = false ->
  normalize.parse_iso_utc_raises right_iso = false ->
  (_max_timestamp left_iso right_iso = left_iso
   ∨ _max_timestamp left_iso right_iso = right_iso) ∧
  normalize.parse_iso_utc (_max_timestamp left_iso right_iso)
  = match normalize.parse_iso_utc left_iso,
          normalize.parse_iso_utc right_iso with
    | Some l, Some r => Some (Z.max l r)
    | Some l, None => Some l
    | None, other => other
    end.
Proof.
  intros _ _. unfold _max_timestamp.
  destruct (normalize.parse_iso_utc left_iso) as [l|] eqn:Hl.
  2:{ split; [by right|done]. }
  destruct (normalize.parse_iso_utc right_iso) as [r|] eqn:Hr.
  2:{ split; [by left|done]. }
  destruct (Z.geb_spec l r).
  - split; [by left|]. rewrite Hl. f_equal. lia.
  - split; [by right|]. rewrite Hr. f_equal. lia.
Qed.
End Helpers.

Section LinkerMore.
Context `{PyRuntime}.

Lemma NoDup_bounded_length (l : list nat) n :
  NoDup l -> Forall (fun i => i < n) l -> length l ≤ n.
Proof.
  intros Hnd Hlt. trans (length (seq 0 n)); [|by rewrite length_seq].
  apply submseteq_length, NoDup_submseteq; [done|].
  intros i Hi. apply elem_of_seq.
  eapply Forall_forall in Hlt; [|done]. lia.
Qed.

Lemma candidate_score_gap max_minutes_diff base candidate scored gap :
  candidate_score max_minutes_diff base candidate = Ok (Some scored) ->
  normalize.minutes_between (start_time_utc base) (start_time_utc candidate)
  = Some gap ->
  (gap <= max_minutes_diff)%Q.
Proof.
  unfold candidate_score. intros Hscore Hgap. rewrite Hgap in Hscore.
  destruct (Qgtb gap max_minutes_diff) eqn:Hfar; [done|].
  by apply Qltb_false in Hfar.
Qed.

(** There are no more links than base rows and no more than candidates, and
    the two rows of a link start at most [max_minutes_diff] minutes apart when
    both start times are parsed. *)
Theorem match_records_bounded (base_rows candidate_rows : list Row)
    (max_minutes_diff min_similarity : Q) (links : list MatchLink) :
  _match_records base_rows candidate_rows max_minutes_diff min_similarity
  = Ok links ->
  length links ≤ length base_rows ∧
  length links ≤ length candidate_rows ∧
  forall l base candidate gap,
    l ∈ links ->
    base_rows !! base_index l = Some base ->
    candidate_rows !! candidate_index l = Some candidate ->
    normalize.minutes_between (start_time_utc base)
      (start_time_utc candidate) = Some gap ->
    (gap <= max_minutes_diff)%Q.
Proof.
  intros Hrun. apply match_records_links_ok in Hrun.
  assert (Forall (fun l => base_index l < length base_rows
                           ∧ candidate_index l < length candidate_rows) links)
    as Hrange.
  { apply Forall_forall. intros l Hl. by eapply links_ok_in_range. }
  split_and!.
  - rewrite <- (length_fmap base_index).
    apply NoDup_bounded_length; [by eapply links_ok_base_NoDup|].
    apply Forall_fmap. eapply Forall_impl; [exact Hrange|]. by intros l [? _].
  - rewrite <- (length_fmap candidate_index).
    apply NoDup_bounded_length; [by eapply links_ok_candidate_NoDup|].
    apply Forall_fmap. eapply Forall_impl; [exact Hrange|]. by intros l [_ ?].
  - intros l base candidate gap [j Hj]%list_elem_of_lookup Hbase Hcand Hgap.
    destruct (links_ok_lookup _ _ _ _ _ Hrun j l Hj)
      as ((base' & Hbase' & _ & [_ (c & Hc & Hscore)] & _) & _).
    assert (base' = base) as -> by congruence.
    assert (c = candidate) as -> by congruence.
    by eapply candidate_score_gap.
Qed.

End LinkerMore.

Lemma match_records_bounded_witness :
  length samples.twin_links ≤ 2 ∧
  length samples.twin_links ≤ 2 ∧
  forall l base candidate gap,
    l ∈ samples.twin_links ->
    [samples.goal_row 2 1; samples.goal_row 2 1] !! base_index l = Some base ->
    [samples.espn_row 1 1; samples.espn_row 1 1] !! candidate_index l
    = Some candidate ->
    @normalize.minutes_between samples.runtime (start_time_utc base)
      (start_time_utc candidate) = Some gap ->
    (gap <= 180)%Q.
Proof.
  apply (@match_records_bounded samples.runtime
           [samples.goal_row 2 1; samples.goal_row 2 1]
           [samples.espn_row 1 1; samples.espn_row 1 1] 180 0.76).
  vm_compute. reflexivity.
Defined.

Section LinkerComplete.
Context `{PyRuntime}.
Variable max_minutes_diff : Q.

Lemma no_candidate_left_snoc base_rows cands min_similarity links new b :
  b < base_index new ->
  no_candidate_left base_rows cands max_minutes_diff min_similarity links b ->
  no_candidate_left base_rows cands max_minutes_diff min_similarity
    (links ++ [new]) b.
Proof.
  intros Hlt Hleft base Hbase Hnone j c s sw Hc Hfree Hscore.
  apply (Hleft base Hbase) with j c sw; [|done| |done].
  - intros l Hl. apply Hnone, elem_of_app. by left.
  - intros l Hl. apply Hfree, elem_of_app. by left.
Qed.

Lemma match_loop_complete all_rows cands min_similarity todo :
  forall finished links used r,
    all_rows = finished ++ todo ->
    match_loop cands max_minutes_diff min_similarity (length finished) todo
      links used = Ok r ->
    used = claimed links ->
    Forall (fun e => base_index e < length finished) links ->
    (forall b, b < length finished ->
               no_candidate_left all_rows cands max_minutes_diff
                 min_similarity links b) ->
    forall b, b < length all_rows ->
              no_candidate_left all_rows cands max_minutes_diff min_similarity
                r b.
Proof.
  induction todo as [|base todo IH];
    intros finished links used r Hall Hloop Hused Hlt Hleft.
  { simpl in Hloop. injection Hloop as <-. subst all_rows.
    rewrite app_nil_r in *. exact Hleft. }
  cbn [match_loop] in Hloop.
  destruct (scan_candidates max_minutes_diff used (length finished) base 0
              cands None) as [best|] eqn:Hscan; simpl in Hloop; [|done].
  apply scan_candidates_best in Hscan.
  assert (all_rows = (finished ++ [base]) ++ todo) as Hall'.
  { by rewrite <- app_assoc. }
  assert (length (finished ++ [base]) = S (length finished)) as Hlen.
  { rewrite length_app. simpl. lia. }
  assert (all_rows !! length finished = Some base) as Hhere.
  { subst all_rows. apply list_lookup_middle. done. }
  assert (forall j, (forall l, l ∈ links -> base_index l < length finished ->
                               candidate_index l ≠ j) -> j ∉ used) as Hfree.
  { intros j Hj. subst used. unfold claimed.
    rewrite elem_of_list_to_set, list_elem_of_fmap.
    intros (l & -> & Hl). apply (Hj l Hl); [|done].
    by eapply Forall_forall in Hlt. }
  assert (Forall (fun e => base_index e < length (finished ++ [base])) links)
    as Hlt'.
  { eapply Forall_impl; [exact Hlt|]. simpl. lia. }
  rewrite <- Hlen in Hloop.
  destruct best as [b0|].
  2:{ eapply IH; [exact Hall'|exact Hloop|done|done|].
      intros b Hb. rewrite Hlen in Hb.
      destruct (decide (b = length finished)) as [->|Hne];
        [|apply Hleft; lia].
      intros base' Hbase' _ j c s sw Hc Hj Hscore.
      assert (base' = base) as -> by congruence.
      exfalso. apply (Hscan j s sw). split; [by apply Hfree|by exists c]. }
  destruct Hscan as (Hbi & Hel & Hmax).
  destruct (Qltb (similarity b0) min_similarity) eqn:Hmin.
  - apply Qltb_true in Hmin.
    eapply IH; [exact Hall'|exact Hloop|done|done|].
    intros b Hb. rewrite Hlen in Hb.
    destruct (decide (b = length finished)) as [->|Hne];
      [|apply Hleft; lia].
    intros base' Hbase' _ j c s sw Hc Hj Hscore.
    assert (base' = base) as -> by congruence.
    destruct (Hmax j s sw) as [Hle _].
    { split; [by apply Hfree|by exists c]. }
    by eapply Qle_lt_trans.
  - eapply IH; [exact Hall'|exact Hloop|by rewrite claimed_snoc, Hused| |].
    { apply Forall_app. split; [done|]. constructor; [lia|constructor]. }
    intros b Hb. rewrite Hlen in Hb.
    destruct (decide (b = length finished)) as [->|Hne].
    + intros base' _ Hnone. exfalso. apply (Hnone b0); [|done].
      apply elem_of_app. right. by left.
    + apply no_candidate_left_snoc; [lia|]. apply Hleft. lia.
Qed.
End LinkerComplete.

(** A base row is left without a link only when no candidate could be
    accepted for it: every candidate that the links of earlier base rows have
    not taken, and that the inner loop scores, scores below
    [min_similarity]. *)
Theorem match_records_complete `{PyRuntime}
    (base_rows candidate_rows : list Row) (max_minutes_diff min_similarity : Q)
    (links : list MatchLink) (b : nat) (base : Row) (j : nat)
    (candidate : Row) (s : Q) (sw : bool) :
  _match_records base_rows candidate_rows max_minutes_diff min_similarity
  = Ok links ->
  base_rows !! b = Some base ->
  (forall l, l ∈ links -> base_index l ≠ b) ->
  candidate_rows !! j = Some candidate ->
  (forall l, l ∈ links -> base_index l < b -> candidate_index l ≠ j) ->
  candidate_score max_minutes_diff base candidate = Ok (Some (s, sw)) ->
  (s < min_similarity)%Q.
Proof.
  intros Hrun Hbase Hnone Hcand Hfree Hscore.
  assert (b < length base_rows) as Hb by (by eapply lookup_lt_Some).
  pose proof (match_loop_complete max_minutes_diff base_rows candidate_rows
                min_similarity base_rows [] [] ∅ links eq_refl Hrun eq_refl)
    as Hall.
  eapply Hall; [constructor|simpl; lia|exact Hb|done..].
Qed.

Lemma match_records_complete_witness : (gamma_score.1 < 0.76)%Q.
Proof.
  apply (@match_records_complete samples.runtime [samples.goal_row 2 1]
           [gamma_row] 180 0.76 [] 0 (samples.goal_row 2 1) 0 gamma_row
           gamma_score.1 gamma_score.2).
  - vm_compute. reflexivity.
  - reflexivity.
  - intros l Hl. by apply elem_of_nil in Hl.
  - reflexivity.
  - intros l Hl. by apply elem_of_nil in Hl.
  - vm_compute. reflexivity.
Defined.

Lemma max_timestamp_latest_witness :
  let left_iso := Some (ustr "2024-05-01T12:00:00Z") in
  let right_iso := Some (ustr "2024-05-01T13:30:00") in
  (@_max_timestamp samples.runtime left_iso right_iso = left_iso
   ∨ @_max_timestamp samples.runtime left_iso right_iso = right_iso) ∧
  @normalize.parse_iso_utc samples.runtime
    (@_max_timestamp samples.runtime left_iso right_iso)
  = match @normalize.parse_iso_utc samples.runtime left_iso,
          @normalize.parse_iso_utc samples.runtime right_iso with
    | Some l, Some r => Some (Z.max l r)
    | Some l, None => Some l
    | None, other => other
    end.
Proof.
  apply (@max_timestamp_latest samples.runtime
           (Some (ustr "2024-05-01T12:00:00Z"))
           (Some (ustr "2024-05-01T13:30:00"))).
  - vm_compute. reflexivity.
  - vm_compute. reflexivity.
Defined.

(** * More on the merge engine *)

Section Grows.
Context `{PyRuntime}.

Lemma grows_refl r : grows r r.
Proof. unfold grows. by split_and!. Qed.

Lemma grows_trans r1 r2 r3 : grows r1 r2 -> grows r2 r3 -> grows r1 r3.
Proof.
  unfold grows.
  intros (Hd & Hs & Hc & Hv & Hp & Hi & Hh & Ha & Ht & Hr & Hpe & Hm & He)
    (Hd' & Hs' & Hc' & Hv' & Hp' & Hi' & Hh' & Ha' & Ht' & Hr' & Hpe' & Hm'
     & He').
  split_and!; try congruence.
  - by etrans.
  - by etrans.
  - intros Hc1. rewrite <- (Hc Hc1). apply Hc'. by rewrite (Hc Hc1).
  - intros Hv1. rewrite <- (Hv Hv1). apply Hv'. by rewrite (Hv Hv1).
Qed.

Ltac grows_cases :=
  unfold grows; repeat case_match; simpl in *;
  split_and!; try done; try (by apply prefix_app_r); try congruence.

Lemma espn_attach_grows l g e : grows g (espn_attach l g e).
Proof. unfold espn_attach. grows_cases. Qed.

Lemma espn_reconcile_grows g e : grows g (espn_reconcile_scores g e).
Proof. unfold espn_reconcile_scores. grows_cases. Qed.

Lemma sofa_attach_grows g e : grows g (sofa_attach g e).
Proof. unfold sofa_attach. grows_cases. Qed.

Lemma sofa_reconcile_grows g e : grows g (sofa_reconcile_scores g e).
Proof. unfold sofa_reconcile_scores. grows_cases. Qed.

Lemma fill_competition_grows r o : grows r (fill_competition r o).
Proof.
  unfold fill_competition.
  destruct (truthy (competition r)) eqn:Hc; simpl; [apply grows_refl|].
  destruct (truthy (competition o)); [|apply grows_refl].
  unfold grows. simpl. split_and!; try done. by rewrite Hc.
Qed.

Lemma fill_venue_grows r o : grows r (fill_venue r o).
Proof.
  unfold fill_venue.
  destruct (truthy (venue r)) eqn:Hc; simpl; [apply grows_refl|].
  destruct (truthy (venue o)); [|apply grows_refl].
  unfold grows. simpl. split_and!; try done. by rewrite Hc.
Qed.

Lemma merge_espn_row_grows l g e : grows g (merge_espn_row l g e).
Proof.
  unfold merge_espn_row.
  eapply grows_trans; [|apply fill_venue_grows].
  eapply grows_trans; [|apply fill_competition_grows].
  eapply grows_trans; [|apply espn_reconcile_grows].
  apply espn_attach_grows.
Qed.

Lemma merge_sofa_row_grows g e : grows g (merge_sofa_row g e).
Proof.
  unfold merge_sofa_row.
  eapply grows_trans; [|apply fill_competition_grows].
  eapply grows_trans; [|apply sofa_reconcile_grows].
  apply sofa_attach_grows.
Qed.

Lemma merge_streamed_row_grows g e : grows g (merge_streamed_row g e).
Proof. unfold merge_streamed_row. grows_cases. Qed.

Lemma espn_update_grows rows l g : grows g (espn_update rows l g).
Proof.
  unfold espn_update.
  destruct (rows !! _); [apply merge_espn_row_grows|apply grows_refl].
Qed.

Lemma sofa_update_grows rows l g : grows g (sofa_update rows l g).
Proof.
  unfold sofa_update.
  destruct (rows !! _); [apply merge_sofa_row_grows|apply grows_refl].
Qed.

Lemma stream_update_grows rows l g : grows g (stream_update rows l g).
Proof.
  unfold stream_update.
  destruct (rows !! _); [apply merge_streamed_row_grows|apply grows_refl].
Qed.

(** In each of the three stages, whatever the links, a canonical row only
    grows: its discrepancies and its sources are appended to, never rewritten;
    a competition or venue it has is never replaced; and its provider, native
    id, teams, start time, raw status, period and minutes stay as they
    were. *)
Theorem merge_stages_only_add (merged rows : list Row)
    (links : list MatchLink) (i : nat) (r : Row) :
  merged !! i = Some r ->
  (exists r', espn_stage merged rows links !! i = Some r' ∧ grows r r') ∧
  (exists r', sofa_stage merged rows links !! i = Some r' ∧ grows r r') ∧
  (exists r', streamed_stage merged rows links !! i = Some r' ∧ grows r r').
Proof.
  intros Hi. split_and!.
  - destruct (fold_alter_preserves base_index (espn_update rows) grows
                links merged i r) as (r' & Hr' & Hgrow);
      [apply grows_refl|apply grows_trans|apply espn_update_grows|done|].
    exists r'. split; [|done].
    rewrite espn_stage_eq. by apply lookup_app_l_Some.
  - destruct (fold_alter_preserves base_index (sofa_update rows) grows
                links merged i r) as (r' & Hr' & Hgrow);
      [apply grows_refl|apply grows_trans|apply sofa_update_grows|done|].
    exists r'. split; [|done].
    rewrite sofa_stage_eq. by apply lookup_app_l_Some.
  - rewrite stream_fold.
    apply (fold_alter_preserves base_index (stream_update rows) grows);
      [apply grows_refl|apply grows_trans|apply stream_update_grows|done].
Qed.
End Grows.

Lemma merge_stages_only_add_witness :
  let merged := [seed_goal (samples.goal_row 2 1)] in
  let rows := [samples.espn_row 1 1] in
  let r := seed_goal (samples.goal_row 2 1) in
  (exists r',
      @espn_stage samples.runtime merged rows (take 1 samples.twin_links) !! 0
      = Some r' ∧ grows r r') ∧
  (exists r',
      @sofa_stage samples.runtime merged rows (take 1 samples.twin_links) !! 0
      = Some r' ∧ grows r r') ∧
  (exists r',
      streamed_stage merged rows (take 1 samples.twin_links) !! 0 = Some r'
      ∧ grows r r').
Proof.
  apply (@merge_stages_only_add samples.runtime
           [seed_goal (samples.goal_row 2 1)] [samples.espn_row 1 1]
           (take 1 samples.twin_links) 0 (seed_goal (samples.goal_row 2 1))).
  reflexivity.
Defined.

(** ** The outcome of a link for the scores *)

Section Outcomes.
Context `{PyRuntime}.

Ltac score_cases g e :=
  unfold _score_pair, fully_known;
  destruct (home_score g) as [h|] eqn:Hh, (away_score g) as [a|] eqn:Ha,
    (home_score e) as [h'|] eqn:Hh', (away_score e) as [a'|] eqn:Ha';
  simpl; rewrite ?andb_false_r; simpl;
  repeat case_bool_decide; simplify_eq; simpl;
  split_and!; intros;
  repeat match goal with
    | Hk : _ ∧ _ |- _ => destruct Hk
    | Hk : is_Some None |- _ => by destruct Hk
    | Hn : ¬ _ |- _ => exfalso; apply Hn; split; by eexists
    end;
  rewrite ?Hh, ?Ha; simplify_eq; try done.

Lemma espn_reconcile_outcome g e :
  let r' := espn_reconcile_scores g e in
  (fully_known (_score_pair g) -> _score_pair g = _score_pair e ->
   verification r' = Some (ustr "confirmed_by_multiple_sources") ∧
   confidence r' = py_max (confidence g) 0.95 ∧
   _score_pair r' = _score_pair g ∧ discrepancies r' = discrepancies g) ∧
  (¬ fully_known (_score_pair g) -> fully_known (_score_pair e) ->
   verification r' = Some (ustr "filled_from_espn") ∧
   confidence r' = py_max (confidence g) 0.83 ∧
   _score_pair r' = _score_pair e ∧ discrepancies r' = discrepancies g) ∧
  (¬ fully_known (_score_pair e) -> r' = g).
Proof.
  unfold espn_reconcile_scores. score_cases g e.
Qed.

Lemma sofa_reconcile_outcome g e :
  let r' := sofa_reconcile_scores g e in
  (fully_known (_score_pair g) -> _score_pair g = _score_pair e ->
   verification r' = Some (ustr "confirmed_by_multiple_sources") ∧
   confidence r' = py_max (confidence g) 0.96 ∧
   _score_pair r' = _score_pair g ∧ discrepancies r' = discrepancies g) ∧
  (¬ fully_known (_score_pair g) -> fully_known (_score_pair e) ->
   verification r' = Some (ustr "filled_from_sofascore") ∧
   confidence r' = py_max (confidence g) 0.86 ∧
   _score_pair r' = _score_pair e ∧ discrepancies r' = discrepancies g) ∧
  (fully_known (_score_pair g) -> fully_known (_score_pair e) ->
   _score_pair g ≠ _score_pair e ->
   verification r' = Some (ustr "score_conflict") ∧
   confidence r' = py_min (confidence g) 0.50 ∧
   _score_pair r' = _score_pair g ∧
   discrepancies r'
   = discrepancies g
     ++ [score_message "Merged score " (_score_pair g)
           " differs from SofaScore " (_score_pair e)]) ∧
  (¬ fully_known (_score_pair e) -> r' = g).
Proof.
  unfold sofa_reconcile_scores. score_cases g e.
Qed.

Lemma py_max_ge_r a b : (b <= py_max a b)%Q.
Proof.
  unfold py_max, Qgtb. destruct (Qltb a b) eqn:Hlt; [apply Qle_refl|].
  by apply Qltb_false in Hlt.
Qed.

Lemma py_max_ge_l a b : (a <= py_max a b)%Q.
Proof.
  unfold py_max, Qgtb. destruct (Qltb a b) eqn:Hlt; [|apply Qle_refl].
  by apply Qlt_le_weak, Qltb_true.
Qed.

Lemma py_min_le_l a b : (py_min a b <= a)%Q.
Proof.
  unfold py_min. destruct (Qltb b a) eqn:Hlt; [|apply Qle_refl].
  by apply Qlt_le_weak, Qltb_true.
Qed.

(** An anchor row linked to a second-source row, by the comparison of the
    two score pairs. Equal and fully known: the row is confirmed by multiple
    sources with a confidence of at least 0.95. The anchor pair not fully
    known and the other one fully known: both scores are taken from the second
    source, also the one the anchor knew, the row is [filled_from_espn] and
    its confidence at least 0.83. The pair of the second source not fully
    known: the row stays [single_source] with the confidence of the link,
    [round(min(0.98, 0.80 + (similarity - 0.75)), 2)] computed in floats from
    the final score the linker gave the two rows. In these three cases
    nothing is added to the discrepancies; in all, the sources are [goal] and
    [espn]. *)
Theorem espn_link_outcome (goal_rows espn_rows : list Row)
    (links : list MatchLink) (l : MatchLink) (anchor espn_row : Row) :
  _match_records (seed_goal <$> goal_rows) espn_rows 180 0.76 = Ok links ->
  l ∈ links ->
  goal_rows !! base_index l = Some anchor ->
  espn_rows !! candidate_index l = Some espn_row ->
  exists r',
    espn_stage (seed_goal <$> goal_rows) espn_rows links !! base_index l
    = Some r' ∧
    sources r' = [ustr "goal"; ustr "espn"] ∧
    (fully_known (_score_pair anchor) ->
     _score_pair anchor = _score_pair espn_row ->
     verification r' = Some (ustr "confirmed_by_multiple_sources") ∧
     (0.95 <= confidence r')%Q ∧
     _score_pair r' = _score_pair anchor ∧
     discrepancies r' = discrepancies anchor) ∧
    (¬ fully_known (_score_pair anchor) ->
     fully_known (_score_pair espn_row) ->
     verification r' = Some (ustr "filled_from_espn") ∧
     (0.83 <= confidence r')%Q ∧
     _score_pair r' = _score_pair espn_row ∧
     discrepancies r' = discrepancies anchor) ∧
    (¬ fully_known (_score_pair espn_row) ->
     verification r' = Some (ustr "single_source") ∧
     candidate_score 180 (seed_goal anchor) espn_row
     = Ok (Some (similarity l, swapped l)) ∧
     confidence r'
     = round2 (py_min 0.98 (fadd 0.80 (fsub (similarity l) 0.75))) ∧
     _score_pair r' = _score_pair anchor ∧
     discrepancies r' = discrepancies anchor).
Proof.
  intros Hrun Hl Hanchor Hespn.
  destruct (espn_stage_linked _ _ _ _ Hrun Hl) as (g & e & Hg & He & Hr).
  rewrite list_lookup_fmap, Hanchor in Hg. injection Hg as <-.
  assert (e = espn_row) as -> by congruence.
  exists (merge_espn_row l (seed_goal anchor) espn_row).
  split; [done|].
  split; [by destruct (merge_espn_row_status l (seed_goal anchor) espn_row)|].
  destruct (espn_reconcile_outcome
              (espn_attach l (seed_goal anchor) espn_row) espn_row)
    as (Hsame & Hfill & Hnone).
  unfold merge_espn_row.
  rewrite fill_venue_verification, fill_competition_verification,
    fill_venue_confidence, fill_competition_confidence,
    fill_venue_discrepancies, fill_competition_discrepancies,
    fill_venue_scores, fill_competition_scores.
  split_and!.
  - intros Hk Heq. destruct (Hsame Hk Heq) as (-> & -> & -> & ->).
    split_and!; [done|apply py_max_ge_r|done..].
  - intros Hk Hk'. destruct (Hfill Hk Hk') as (-> & -> & -> & ->).
    split_and!; [done|apply py_max_ge_r|done..].
  - intros Hk. rewrite (Hnone Hk). split_and!; [done| |done..].
    eapply link_score; [done..|by rewrite list_lookup_fmap, Hanchor|done].
Qed.

Lemma sofa_attach_fields g e :
  verification (sofa_attach g e) = verification g ∧
  confidence (sofa_attach g e) = confidence g ∧
  discrepancies (sofa_attach g e) = discrepancies g.
Proof. unfold sofa_attach. by case_bool_decide. Qed.

(** What a link of the linker does to its base row in the SofaScore stage. *)
Lemma sofa_stage_linked merged sofa_rows links l :
  _match_records merged sofa_rows 180 0.78 = Ok links ->
  l ∈ links ->
  exists merged_row sofa_row,
    merged !! base_index l = Some merged_row ∧
    sofa_rows !! candidate_index l = Some sofa_row ∧
    sofa_stage merged sofa_rows links !! base_index l
    = Some (merge_sofa_row merged_row sofa_row).
Proof.
  intros Hrun Hl. apply match_records_links_ok in Hrun.
  destruct (links_ok_in_range _ _ _ _ _ Hrun l Hl) as [Hb Hc].
  apply lookup_lt_is_Some in Hb as [g Hg], Hc as [e He].
  exists g, e. split_and!; [done..|].
  rewrite sofa_stage_eq, lookup_app_l
    by (rewrite fold_alter_length; by eapply lookup_lt_Some).
  rewrite fold_alter_lookup, Hg; [|by eapply links_ok_base_NoDup|done].
  unfold sofa_update. by rewrite He.
Qed.

(** A canonical row linked to a SofaScore row, by the comparison of the two
    score pairs. Equal and fully known: the row is confirmed by multiple
    sources, whatever it was before, a conflict with the second source
    included, and its confidence is raised to 0.96. The canonical pair not
    fully known and the other one fully known: both scores are taken from
    SofaScore, the row is [filled_from_sofascore] and its confidence raised to
    0.86. Both fully known and different: the row is a [score_conflict], its
    confidence is capped at 0.50 and one entry naming both pairs is appended
    to its discrepancies. The pair of SofaScore not fully known: verification,
    confidence, scores and discrepancies stay as they were. *)
Theorem sofa_link_outcome (merged sofa_rows : list Row)
    (links : list MatchLink) (l : MatchLink) :
  _match_records merged sofa_rows 180 0.78 = Ok links ->
  l ∈ links ->
  exists merged_row sofa_row r',
    merged !! base_index l = Some merged_row ∧
    sofa_rows !! candidate_index l = Some sofa_row ∧
    sofa_stage merged sofa_rows links !! base_index l = Some r' ∧
    (fully_known (_score_pair merged_row) ->
     _score_pair merged_row = _score_pair sofa_row ->
     verification r' = Some (ustr "confirmed_by_multiple_sources") ∧
     confidence r' = py_max (confidence merged_row) 0.96 ∧
     (0.96 <= confidence r')%Q ∧
     _score_pair r' = _score_pair merged_row ∧
     discrepancies r' = discrepancies merged_row) ∧
    (¬ fully_known (_score_pair merged_row) ->
     fully_known (_score_pair sofa_row) ->
     verification r' = Some (ustr "filled_from_sofascore") ∧
     confidence r' = py_max (confidence merged_row) 0.86 ∧
     (0.86 <= confidence r')%Q ∧
     _score_pair r' = _score_pair sofa_row ∧
     discrepancies r' = discrepancies merged_row) ∧
    (fully_known (_score_pair merged_row) ->
     fully_known (_score_pair sofa_row) ->
     _score_pair merged_row ≠ _score_pair sofa_row ->
     verification r' = Some (ustr "score_conflict") ∧
     confidence r' = py_min (confidence merged_row) 0.50 ∧
     (confidence r' <= 0.50)%Q ∧
     _score_pair r' = _score_pair merged_row ∧
     discrepancies r'
     = discrepancies merged_row
       ++ [score_message "Merged score " (_score_pair merged_row)
             " differs from SofaScore " (_score_pair sofa_row)]) ∧
    (¬ fully_known (_score_pair sofa_row) ->
     verification r' = verification merged_row ∧
     confidence r' = confidence merged_row ∧
     _score_pair r' = _score_pair merged_row ∧
     discrepancies r' = discrepancies merged_row).
Proof.
  intros Hrun Hl.
  destruct (sofa_stage_linked _ _ _ _ Hrun Hl) as (g & e & Hg & He & Hr).
  exists g, e, (merge_sofa_row g e). split_and!; [done..| | | |].
  all: destruct (sofa_reconcile_outcome (sofa_attach g e) e)
    as (Hsame & Hfill & Hdiffer & Hnone).
  all: destruct (sofa_attach_fields g e) as (Hv & Hc & Hd).
  all: pose proof (sofa_attach_scores g e) as Hs.
  all: unfold merge_sofa_row.
  all: rewrite fill_competition_verification, fill_competition_confidence,
    fill_competition_discrepancies, fill_competition_scores.
  all: rewrite Hs, Hc, Hd in *.
  - intros Hk Heq. destruct (Hsame Hk Heq) as (-> & -> & -> & ->).
    split_and!; [done..|apply py_max_ge_r|done|done].
  - intros Hk Hk'. destruct (Hfill Hk Hk') as (-> & -> & -> & ->).
    split_and!; [done..|apply py_max_ge_r|done|done].
  - intros Hk Hk' Hne. destruct (Hdiffer Hk Hk' Hne) as (-> & -> & -> & ->).
    split_and!; [done..|apply py_min_le_r|done|done].
  - intros Hk. by rewrite (Hnone Hk), Hs, Hc, Hd, Hv.
Qed.
End Outcomes.

Lemma espn_link_outcome_witness :
  exists r',
    @espn_stage samples.runtime (seed_goal <$> [samples.goal_row 2 1])
      [scoreless_espn_row] [samples.twin_first]
    !! base_index samples.twin_first = Some r' ∧
    sources r' = [ustr "goal"; ustr "espn"] ∧
    (fully_known (_score_pair (samples.goal_row 2 1)) ->
     _score_pair (samples.goal_row 2 1) = _score_pair scoreless_espn_row ->
     verification r' = Some (ustr "confirmed_by_multiple_sources") ∧
     (0.95 <= confidence r')%Q ∧
     _score_pair r' = _score_pair (samples.goal_row 2 1) ∧
     discrepancies r' = discrepancies (samples.goal_row 2 1)) ∧
    (¬ fully_known (_score_pair (samples.goal_row 2 1)) ->
     fully_known (_score_pair scoreless_espn_row) ->
     verification r' = Some (ustr "filled_from_espn") ∧
     (0.83 <= confidence r')%Q ∧
     _score_pair r' = _score_pair scoreless_espn_row ∧
     discrepancies r' = discrepancies (samples.goal_row 2 1)) ∧
    (¬ fully_known (_score_pair scoreless_espn_row) ->
     verification r' = Some (ustr "single_source") ∧
     @candidate_score samples.runtime 180 (seed_goal (samples.goal_row 2 1))
       scoreless_espn_row
     = Ok (Some (similarity samples.twin_first, swapped samples.twin_first)) ∧
     confidence r'
     = round2
         (py_min 0.98
            (fadd 0.80 (fsub (similarity samples.twin_first) 0.75))) ∧
     _score_pair r' = _score_pair (samples.goal_row 2 1) ∧
     discrepancies r' = discrepancies (samples.goal_row 2 1)).
Proof.
  apply (@espn_link_outcome samples.runtime [samples.goal_row 2 1]
           [scoreless_espn_row] [samples.twin_first] samples.twin_first
           (samples.goal_row 2 1) scoreless_espn_row).
  - vm_compute. reflexivity.
  - left.
  - reflexivity.
  - reflexivity.
Defined.

Lemma sofa_link_outcome_witness :
  exists merged_row sofa_row r',
    [seed_goal (samples.goal_row 2 1)] !! base_index samples.twin_first
    = Some merged_row ∧
    [samples.espn_row 1 1] !! candidate_index samples.twin_first
    = Some sofa_row ∧
    @sofa_stage samples.runtime [seed_goal (samples.goal_row 2 1)]
      [samples.espn_row 1 1] [samples.twin_first]
    !! base_index samples.twin_first = Some r' ∧
    (fully_known (_score_pair merged_row) ->
     _score_pair merged_row = _score_pair sofa_row ->
     verification r' = Some (ustr "confirmed_by_multiple_sources") ∧
     confidence r' = py_max (confidence merged_row) 0.96 ∧
     (0.96 <= confidence r')%Q ∧
     _score_pair r' = _score_pair merged_row ∧
     discrepancies r' = discrepancies merged_row) ∧
    (¬ fully_known (_score_pair merged_row) ->
     fully_known (_score_pair sofa_row) ->
     verification r' = Some (ustr "filled_from_sofascore") ∧
     confidence r' = py_max (confidence merged_row) 0.86 ∧
     (0.86 <= confidence r')%Q ∧
     _score_pair r' = _score_pair sofa_row ∧
     discrepancies r' = discrepancies merged_row) ∧
    (fully_known (_score_pair merged_row) ->
     fully_known (_score_pair sofa_row) ->
     _score_pair merged_row ≠ _score_pair sofa_row ->
     verification r' = Some (ustr "score_conflict") ∧
     confidence r' = py_min (confidence merged_row) 0.50 ∧
     (confidence r' <= 0.50)%Q ∧
     _score_pair r' = _score_pair merged_row ∧
     discrepancies r'
     = discrepancies merged_row
       ++ [score_message "Merged score " (_score_pair merged_row)
             " differs from SofaScore " (_score_pair sofa_row)]) ∧
    (¬ fully_known (_score_pair sofa_row) ->
     verification r' = verification merged_row ∧
     confidence r' = confidence merged_row ∧
     _score_pair r' = _score_pair merged_row ∧
     discrepancies r' = discrepancies merged_row).
Proof.
  apply (@sofa_link_outcome samples.runtime
           [seed_goal (samples.goal_row 2 1)] [samples.espn_row 1 1]
           [samples.twin_first] samples.twin_first).
  - vm_compute. reflexivity.
  - left.
Defined.

(** ** Where the keys of a canonical row come from *)

Lemma foldl_later_snoc l x :
  foldl later None (l ++ [x]) = later (foldl later None l) x.
Proof. by rewrite foldl_app. Qed.

Lemma foldl_later_spec (l : list (option Z)) :
  (forall t, Some t ∈ l ->
     exists m, foldl later None l = Some m ∧ (t <= m)%Z) ∧
  (forall m, foldl later None l = Some m -> Some m ∈ l).
Proof.
  induction l as [|x l [IHge IHin]] using rev_ind.
  { split; [by intros t ?%elem_of_nil|done]. }
  rewrite foldl_later_snoc. split.
  - intros t [Hin|Hin%list_elem_of_singleton]%elem_of_app.
    + destruct (IHge t Hin) as (m & -> & Hle).
      destruct x as [r|]; simpl; eexists; (split; [done|]); lia.
    + subst x. destruct (foldl later None l) as [m|]; simpl;
        eexists; (split; [done|]); lia.
  - intros m Hm. apply elem_of_app.
    destruct (foldl later None l) as [m'|] eqn:Hl, x as [r|];
      simpl in Hm; simplify_eq.
    + destruct (Z.max_spec m' r) as [[_ ->]|[_ ->]].
      * right. by apply list_elem_of_singleton.
      * left. by apply IHin.
    + left. by apply IHin.
    + right. by apply list_elem_of_singleton.
Qed.

Section Origin.
Context `{PyRuntime}.

Lemma max_timestamp_later left_iso right_iso :
  normalize.parse_iso_utc (_max_timestamp left_iso right_iso)
  = later (normalize.parse_iso_utc left_iso)
      (normalize.parse_iso_utc right_iso).
Proof.
  unfold _max_timestamp, later.
  destruct (normalize.parse_iso_utc left_iso) as [l|] eqn:Hl; [|done].
  destruct (normalize.parse_iso_utc right_iso) as [r|] eqn:Hr; [|done].
  destruct (Z.geb_spec l r).
  - rewrite Hl. f_equal. lia.
  - rewrite Hr. f_equal. lia.
Qed.

Lemma max_timestamp_either left_iso right_iso :
  _max_timestamp left_iso right_iso = left_iso
  ∨ _max_timestamp left_iso right_iso = right_iso.
Proof. unfold _max_timestamp. repeat case_match; auto. Qed.

Ltac by_cases := repeat case_match; done.

Lemma espn_reconcile_keys g e :
  external_ids (espn_reconcile_scores g e) = external_ids g
  ∧ last_updated_utc (espn_reconcile_scores g e) = last_updated_utc g.
Proof. unfold espn_reconcile_scores. by_cases. Qed.

Lemma sofa_reconcile_keys g e :
  external_ids (sofa_reconcile_scores g e) = external_ids g
  ∧ last_updated_utc (sofa_reconcile_scores g e) = last_updated_utc g.
Proof. unfold sofa_reconcile_scores. by_cases. Qed.

Lemma fill_competition_keys r o :
  external_ids (fill_competition r o) = external_ids r
  ∧ last_updated_utc (fill_competition r o) = last_updated_utc r.
Proof. unfold fill_competition. by_cases. Qed.

Lemma fill_venue_keys r o :
  external_ids (fill_venue r o) = external_ids r
  ∧ last_updated_utc (fill_venue r o) = last_updated_utc r.
Proof. unfold fill_venue. by_cases. Qed.

Lemma merge_espn_row_keys l g e :
  external_ids (merge_espn_row l g e)
  = <[ustr "espn" := provider_match_id e]> (external_ids g)
  ∧ last_updated_utc (merge_espn_row l g e)
    = _max_timestamp (last_updated_utc g) (last_updated_utc e).
Proof.
  unfold merge_espn_row.
  destruct (fill_venue_keys
              (fill_competition
                 (espn_reconcile_scores (espn_attach l g e) e) e) e)
    as [-> ->].
  destruct (fill_competition_keys
              (espn_reconcile_scores (espn_attach l g e) e) e) as [-> ->].
  by destruct (espn_reconcile_keys (espn_attach l g e) e) as [-> ->].
Qed.

Lemma merge_sofa_row_keys g e :
  external_ids (merge_sofa_row g e)
  = <[ustr "sofascore" := provider_match_id e]> (external_ids g)
  ∧ last_updated_utc (merge_sofa_row g e)
    = _max_timestamp (last_updated_utc g) (last_updated_utc e).
Proof.
  unfold merge_sofa_row.
  destruct (fill_competition_keys
              (sofa_reconcile_scores (sofa_attach g e) e) e) as [-> ->].
  destruct (sofa_reconcile_keys (sofa_attach g e) e) as [-> ->].
  unfold sofa_attach. by case_bool_decide.
Qed.

Lemma merge_streamed_row_keys g e :
  external_ids (merge_streamed_row g e)
  = (if truthy (streamed_watch_url e)
     then <[ustr "streamed" := provider_match_id e]> (external_ids g)
     else external_ids g)
  ∧ last_updated_utc (merge_streamed_row g e) = last_updated_utc g.
Proof.
  unfold merge_streamed_row. destruct (truthy _); [|done].
  by case_bool_decide.
Qed.

Lemma head_prefix {A} (l1 l2 : list A) x :
  l1 `prefix_of` l2 -> head l1 = Some x -> head l2 = Some x.
Proof. intros [k ->]. by destruct l1. Qed.

Lemma last_filter_snoc (tr : list (pystr * Row)) source c :
  last (filter (fun c => c.1 = source) (tr ++ [c]))
  = if decide (c.1 = source) then Some c
    else last (filter (fun c => c.1 = source) tr).
Proof.
  rewrite filter_app. case_decide as Hc.
  - rewrite filter_cons_True by done. apply last_snoc.
  - rewrite filter_cons_False by done. by rewrite filter_nil, app_nil_r.
Qed.

Lemma traced_seed_origin source seed row :
  ustr source ≠ ustr "streamed" ->
  seed row
  = set_external_ids {[ustr source := provider_match_id row]}
      (set_verification (verification (seed row))
         (set_confidence (confidence (seed row))
            (set_sources [ustr source] row))) ->
  traced_origin (traced_seed source seed row).
Proof.
  intros Hne Hseed. unfold traced_origin, traced_seed, scoring. simpl.
  rewrite filter_cons_True by done. rewrite Hseed. simpl. split_and!.
  - by eexists _, _, _.
  - intros src. destruct (decide (ustr source = src)) as [<-|Hsrc].
    + rewrite filter_cons_True by done. by rewrite lookup_singleton_eq.
    + rewrite filter_cons_False by done. by rewrite lookup_singleton_ne.
  - by apply list_elem_of_singleton.
  - by destruct (normalize.parse_iso_utc _).
Qed.

Lemma origin_update (t : Traced) (r' : Row) (source : pystr) (row : Row) :
  source ≠ ustr "streamed" ->
  grows t.1 r' ->
  external_ids r' = <[source := provider_match_id row]> (external_ids t.1) ->
  last_updated_utc r'
  = _max_timestamp (last_updated_utc t.1) (last_updated_utc row) ->
  traced_origin t ->
  traced_origin (r', t.2 ++ [(source, row)]).
Proof.
  intros Hne Hgrow Hids Hlast ((src & seed & others & Ht & Hhead & Hkeys)
                               & Hext & Hin & Hparse).
  destruct Hgrow as (_ & Hs & _ & _ & Hp & Hi & Hh & Ha & Hst & _).
  unfold traced_origin. simpl. split_and!.
  - exists src, seed, (others ++ [(source, row)]). rewrite Ht.
    split; [done|]. rewrite Hp, Hi, Hh, Ha, Hst.
    split; [by eapply head_prefix|done].
  - intros s. rewrite last_filter_snoc, Hids. simpl. case_decide as Hs'.
    + subst s. by rewrite lookup_insert_eq.
    + by rewrite lookup_insert_ne.
  - rewrite (scoring_snoc _ _ _ Hne), fmap_app, Hlast. simpl.
    apply elem_of_app.
    destruct (max_timestamp_either (last_updated_utc t.1)
                (last_updated_utc row)) as [-> | ->].
    + by left.
    + right. by apply list_elem_of_singleton.
  - rewrite (scoring_snoc _ _ _ Hne), fmap_app, Hlast. simpl.
    by rewrite foldl_later_snoc, max_timestamp_later, Hparse.
Qed.

Lemma traced_espn_update_origin rows l t :
  traced_origin t -> traced_origin (traced_espn_update rows l t).
Proof.
  intros Ht. unfold traced_espn_update.
  destruct (rows !! candidate_index l) as [e|]; [|done].
  destruct (merge_espn_row_keys l t.1 e) as [Hids Hlast].
  apply origin_update;
    [apply espn_scoring|apply merge_espn_row_grows|done..].
Qed.

Lemma traced_sofa_update_origin rows l t :
  traced_origin t -> traced_origin (traced_sofa_update rows l t).
Proof.
  intros Ht. unfold traced_sofa_update.
  destruct (rows !! candidate_index l) as [e|]; [|done].
  destruct (merge_sofa_row_keys t.1 e) as [Hids Hlast].
  apply origin_update;
    [apply sofascore_scoring|apply merge_sofa_row_grows|done..].
Qed.

Lemma traced_stream_update_origin rows l t :
  traced_origin t -> traced_origin (traced_stream_update rows l t).
Proof.
  intros Horigin. unfold traced_stream_update.
  destruct (rows !! candidate_index l) as [e|]; [|done].
  destruct Horigin
    as ((src & seed & others & Ht & Hhead & Hkeys) & Hext & Hin & Hparse).
  destruct (merge_streamed_row_keys t.1 e) as [Hids Hlast].
  destruct (merge_streamed_row_grows t.1 e)
    as (_ & Hs & _ & _ & Hp & Hi & Hh & Ha & Hst & _).
  unfold traced_origin. simpl. rewrite Hids, Hlast, Hp, Hi, Hh, Ha, Hst.
  assert (head (sources (merge_streamed_row t.1 e)) = Some src) as Hhead'
    by (by eapply head_prefix).
  destruct (truthy (streamed_watch_url e)).
  - rewrite scoring_snoc_streamed. split_and!; [|  |done..].
    + exists src, seed, (others ++ [(ustr "streamed", e)]). by rewrite Ht.
    + intros s. rewrite last_filter_snoc. simpl. case_decide as Hs'.
      * subst s. by rewrite lookup_insert_eq.
      * by rewrite lookup_insert_ne.
  - split_and!; [|done..]. by exists src, seed, others.
Qed.

Lemma traced_merge_origin goal_rows espn_rows streamed_rows sofa_rows traced :
  traced_merge goal_rows espn_rows streamed_rows sofa_rows = Ok traced ->
  Forall traced_origin traced.
Proof.
  unfold traced_merge.
  destruct (_match_records _ espn_rows _ _) as [links1|]; simpl; [|done].
  destruct (_match_records _ (default [] sofa_rows) _ _) as [links2|]; simpl;
    [|done].
  destruct (_match_records _ streamed_rows _ _) as [links3|]; simpl; [|done].
  intros [= <-].
  apply fold_alter_Forall; [intros l t; apply traced_stream_update_origin|].
  apply Forall_app. split.
  - apply fold_alter_Forall; [intros l t; apply traced_sofa_update_origin|].
    apply Forall_app. split.
    + apply fold_alter_Forall; [intros l t; apply traced_espn_update_origin|].
      apply Forall_forall. intros t (row & -> & Hrow)%list_elem_of_fmap.
      by apply traced_seed_origin; [apply goal_scoring|].
    + apply Forall_forall. intros t (row & -> & Hrow)%list_elem_of_fmap.
      by apply traced_seed_origin; [apply espn_scoring|].
  - apply Forall_forall. intros t (row & -> & Hrow)%list_elem_of_fmap.
    by apply traced_seed_origin; [apply sofascore_scoring|].
Qed.

(** The first contributor of a canonical row is a row of the anchor, second
    or third input. *)
Lemma traced_seed_seeded goal_rows espn_rows sofa_rows source seed row :
  (ustr source = ustr "goal" ∧ row ∈ goal_rows)
  ∨ (ustr source = ustr "espn" ∧ row ∈ espn_rows)
  ∨ (ustr source = ustr "sofascore" ∧ row ∈ sofa_rows) ->
  seeded goal_rows espn_rows sofa_rows (traced_seed source seed row).
Proof. intros Hfrom. by exists (ustr source), row, []. Qed.

Lemma seeded_snoc goal_rows espn_rows sofa_rows (t : Traced) r' c :
  seeded goal_rows espn_rows sofa_rows t ->
  seeded goal_rows espn_rows sofa_rows (r', t.2 ++ [c]).
Proof.
  intros (source & seed & others & -> & Hfrom).
  by exists source, seed, (others ++ [c]).
Qed.

Lemma seeded_same goal_rows espn_rows sofa_rows (t : Traced) r' :
  seeded goal_rows espn_rows sofa_rows t ->
  seeded goal_rows espn_rows sofa_rows (r', t.2).
Proof. intros (source & seed & others & -> & Hfrom). by exists source, seed, others. Qed.

Lemma traced_merge_seeded goal_rows espn_rows streamed_rows sofa_rows traced :
  traced_merge goal_rows espn_rows streamed_rows sofa_rows = Ok traced ->
  Forall (seeded goal_rows espn_rows (default [] sofa_rows)) traced.
Proof.
  unfold traced_merge.
  destruct (_match_records _ espn_rows _ _) as [links1|]; simpl; [|done].
  destruct (_match_records _ (default [] sofa_rows) _ _) as [links2|]; simpl;
    [|done].
  destruct (_match_records _ streamed_rows _ _) as [links3|]; simpl; [|done].
  intros [= <-].
  apply fold_alter_Forall.
  { intros l t Ht. unfold traced_stream_update.
    destruct (streamed_rows !! _) as [e|]; [|done].
    destruct (truthy _); [by apply seeded_snoc|by apply seeded_same]. }
  apply Forall_app. split.
  - apply fold_alter_Forall.
    { intros l t Ht. unfold traced_sofa_update.
      destruct (default [] sofa_rows !! _) as [e|]; [|done].
      by apply seeded_snoc. }
    apply Forall_app. split.
    + apply fold_alter_Forall.
      { intros l t Ht. unfold traced_espn_update.
        destruct (espn_rows !! _) as [e|]; [|done]. by apply seeded_snoc. }
      apply Forall_forall. intros t (row & -> & Hrow)%list_elem_of_fmap.
      apply traced_seed_seeded. by left.
    + apply Forall_forall. intros t (row & -> & Hrow)%list_elem_of_fmap.
      apply unlinked_rows_subseteq in Hrow.
      apply traced_seed_seeded. right. by left.
  - apply Forall_forall. intros t (row & -> & Hrow)%list_elem_of_fmap.
    apply unlinked_rows_subseteq in Hrow.
    apply traced_seed_seeded. right. by right.
Qed.

(** Every canonical row of the result with its contributors. *)
Lemma merge_rows_traced goal_rows espn_rows streamed_rows sofa_rows :
  exists out traced,
    merge_provider_matches goal_rows espn_rows streamed_rows sofa_rows
    = Ok out ∧
    traced_merge goal_rows espn_rows streamed_rows sofa_rows = Ok traced ∧
    forall r,
      r ∈ out ->
      exists contributors,
        (r, contributors) ∈ traced ∧ traced_origin (r, contributors).
Proof.
  destruct (traced_merge_total goal_rows espn_rows streamed_rows sofa_rows)
    as [traced Htraced].
  exists (sort_rows (traced.*1)), traced.
  rewrite traced_merge_erase, Htraced. split_and!; [done..|].
  intros r Hr. rewrite sort_rows_perm in Hr.
  apply list_elem_of_fmap in Hr as ([r' contributors] & -> & Hin).
  exists contributors. split; [done|].
  apply traced_merge_origin in Htraced.
  by apply (proj1 (Forall_forall _ _) Htraced (r', contributors) Hin).
Qed.

(** The rows [merge_provider_matches] returns are those of the traced
    merge. *)
Lemma merge_out_traced goal_rows espn_rows streamed_rows sofa_rows out :
  merge_provider_matches goal_rows espn_rows streamed_rows sofa_rows = Ok out ->
  exists traced,
    traced_merge goal_rows espn_rows streamed_rows sofa_rows = Ok traced ∧
    out ≡ₚ traced.*1.
Proof.
  rewrite traced_merge_erase.
  destruct (traced_merge goal_rows espn_rows streamed_rows sofa_rows)
    as [traced|]; simpl; [|done].
  intros [= <-]. exists traced. split; [done|]. apply sort_rows_perm.
Qed.

(** Every row that [merge_provider_matches] returns has the provider, the
    native id, the two teams and the start time of the provider row that
    seeded it: the first of its contributors, a row of the anchor, second or
    third input, whose source is the first of the [sources] of the row. *)
Theorem merged_identity_from_seed (goal_rows espn_rows streamed_rows : list Row)
    (sofa_rows : option (list Row)) (out : list Row) :
  merge_provider_matches goal_rows espn_rows streamed_rows sofa_rows = Ok out ->
  exists traced,
    traced_merge goal_rows espn_rows streamed_rows sofa_rows = Ok traced ∧
    forall r,
      r ∈ out ->
      exists source seed others,
        (r, (source, seed) :: others) ∈ traced ∧
        ((source = ustr "goal" ∧ seed ∈ goal_rows)
         ∨ (source = ustr "espn" ∧ seed ∈ espn_rows)
         ∨ (source = ustr "sofascore" ∧ seed ∈ default [] sofa_rows)) ∧
        head (sources r) = Some source ∧
        provider r = provider seed ∧
        provider_match_id r = provider_match_id seed ∧
        home_team r = home_team seed ∧
        away_team r = away_team seed ∧
        start_time_utc r = start_time_utc seed.
Proof.
  intros (traced & Htraced & Hperm)%merge_out_traced.
  exists traced. split; [done|].
  intros r Hr. rewrite Hperm in Hr.
  apply list_elem_of_fmap in Hr as ([r' contributors] & -> & Hin).
  pose proof (traced_merge_origin _ _ _ _ _ Htraced) as Horigin.
  pose proof (traced_merge_seeded _ _ _ _ _ Htraced) as Hseeded.
  apply (proj1 (Forall_forall _ _) Horigin) in Hin as Ho.
  apply (proj1 (Forall_forall _ _) Hseeded) in Hin as Hs.
  destruct Ho as ((source & seed & others & Hc & Hkeys) & _).
  simpl in *. subst contributors. exists source, seed, others.
  split; [done|]. split; [|done].
  destruct Hs as (source' & seed' & others' & [= <- <- <-] & Hfrom). done.
Qed.

(** [merge_provider_matches] returns, and in every row of its result
    [external_ids] has an entry exactly for the sources of its contributors:
    the native id of the last contributor of that source. *)
Theorem merged_external_ids (goal_rows espn_rows streamed_rows : list Row)
    (sofa_rows : option (list Row)) :
  exists out traced,
    merge_provider_matches goal_rows espn_rows streamed_rows sofa_rows
    = Ok out ∧
    traced_merge goal_rows espn_rows streamed_rows sofa_rows = Ok traced ∧
    forall r,
      r ∈ out ->
      exists contributors,
        (r, contributors) ∈ traced ∧
        (forall source,
            is_Some (external_ids r !! source) <-> source ∈ contributors.*1) ∧
        (forall source,
            external_ids r !! source
            = (fun c => provider_match_id c.2)
              <$> last (filter (fun c => c.1 = source) contributors)).
Proof.
  destruct (merge_rows_traced goal_rows espn_rows streamed_rows sofa_rows)
    as (out & traced & Hout & Htraced & Hall).
  exists out, traced. split_and!; [done..|].
  intros r Hr. destruct (Hall r Hr) as (contributors & Hin & Horigin).
  destruct Horigin as (_ & Hext & _). simpl in *.
  exists contributors. split_and!; [done| |done].
  intros source. rewrite Hext, fmap_is_Some, <- not_eq_None_Some, last_None.
  split.
  - intros Hne.
    destruct (filter (fun c => c.1 = source) contributors) as [|c rest] eqn:Hf;
      [done|].
    assert (c ∈ filter (fun c => c.1 = source) contributors) as Hc
      by (rewrite Hf; left).
    apply list_elem_of_filter in Hc as [<- Hc].
    apply list_elem_of_fmap. by exists c.
  - intros (c & -> & Hc)%list_elem_of_fmap Hnil.
    assert (c ∈ filter (fun c' => c'.1 = c.1) contributors) as Hc'
      by (by apply list_elem_of_filter).
    rewrite Hnil in Hc'. by apply elem_of_nil in Hc'.
Qed.

(** [merge_provider_matches] returns, and in every row of its result
    [last_updated_utc] is that of one of the contributors the merge consults,
    those of the anchor, second and third source; when it parses, it is the
    latest instant among theirs that parse, and it parses as soon as one of
    theirs does. *)
Theorem merged_last_updated_latest
    (goal_rows espn_rows streamed_rows : list Row)
    (sofa_rows : option (list Row)) :
  exists out traced,
    merge_provider_matches goal_rows espn_rows streamed_rows sofa_rows
    = Ok out ∧
    traced_merge goal_rows espn_rows streamed_rows sofa_rows = Ok traced ∧
    forall r,
      r ∈ out ->
      exists contributors,
        (r, contributors) ∈ traced ∧
        (exists c,
            c ∈ scoring contributors
            ∧ last_updated_utc r = last_updated_utc c.2) ∧
        (forall c t,
            c ∈ scoring contributors ->
            normalize.parse_iso_utc (last_updated_utc c.2) = Some t ->
            exists m,
              normalize.parse_iso_utc (last_updated_utc r) = Some m
              ∧ (t <= m)%Z) ∧
        (forall m,
            normalize.parse_iso_utc (last_updated_utc r) = Some m ->
            exists c,
              c ∈ scoring contributors
              ∧ normalize.parse_iso_utc (last_updated_utc c.2) = Some m).
Proof.
  destruct (merge_rows_traced goal_rows espn_rows streamed_rows sofa_rows)
    as (out & traced & Hout & Htraced & Hall).
  exists out, traced. split_and!; [done..|].
  intros r Hr. destruct (Hall r Hr) as (contributors & Hin & Horigin).
  destruct Horigin as (_ & _ & Hraw & Hparse). simpl in *.
  exists contributors. split; [done|].
  destruct (foldl_later_spec
              ((fun c => normalize.parse_iso_utc (last_updated_utc c.2))
               <$> scoring contributors)) as [Hge Hmem].
  rewrite <- Hparse in Hge, Hmem. split_and!.
  - apply list_elem_of_fmap in Hraw as (c & Hc & Hcin). by exists c.
  - intros c t Hc Ht. apply Hge. apply list_elem_of_fmap. by exists c.
  - intros m Hm. apply Hmem in Hm.
    apply list_elem_of_fmap in Hm as (c & Hc & Hcin). by exists c.
Qed.
End Origin.

Lemma merged_identity_from_seed_witness :
  exists traced,
    @traced_merge samples.runtime [samples.goal_row 2 1]
      [samples.espn_row 2 1; gamma_row] [] None = Ok traced ∧
    forall r,
      r ∈ merged_sample ->
      exists source seed others,
        (r, (source, seed) :: others) ∈ traced ∧
        ((source = ustr "goal" ∧ seed ∈ [samples.goal_row 2 1])
         ∨ (source = ustr "espn" ∧ seed ∈ [samples.espn_row 2 1; gamma_row])
         ∨ (source = ustr "sofascore" ∧ seed ∈ default [] None)) ∧
        head (sources r) = Some source ∧
        provider r = provider seed ∧
        provider_match_id r = provider_match_id seed ∧
        home_team r = home_team seed ∧
        away_team r = away_team seed ∧
        start_time_utc r = start_time_utc seed.
Proof.
  apply (@merged_identity_from_seed samples.runtime [samples.goal_row 2 1]
           [samples.espn_row 2 1; gamma_row] [] None merged_sample).
  vm_compute. reflexivity.
Defined.

(** ** The shape of the merged list *)

Lemma filter_split_length {A} (P : A -> Prop) `{forall x, Decision (P x)}
    (l : list A) :
  length (filter P l) + length (filter (fun x => ¬ P x) l) = length l.
Proof.
  induction l as [|x l IH]; [done|].
  destruct (decide (P x)).
  - rewrite filter_cons_True, (filter_cons_False (fun x => ¬ P x)) by auto.
    simpl. lia.
  - rewrite filter_cons_False, (filter_cons_True (fun x => ¬ P x)) by auto.
    simpl. lia.
Qed.

Lemma unlinked_rows_length linked rows :
  forall index,
    length (unlinked_rows linked index rows)
    = length (filter (fun k => k ∉ linked) (seq index (length rows))).
Proof.
  induction rows as [|row rows IH]; intros index; [done|].
  simpl. case_bool_decide.
  - rewrite filter_cons_False by auto. apply IH.
  - rewrite filter_cons_True by auto. simpl. f_equal. apply IH.
Qed.

Section Shape.
Context `{PyRuntime}.

(** The rows of a source that no link has claimed, and the links, are as
    many as the rows of the source. *)
Lemma unlinked_rows_count base_rows rows max_minutes_diff min_similarity links :
  _match_records base_rows rows max_minutes_diff min_similarity = Ok links ->
  length (unlinked_rows (claimed links) 0 rows) + length links = length rows.
Proof.
  intros Hok%match_records_links_ok.
  rewrite unlinked_rows_length.
  pose proof (filter_split_length (fun k => k ∈ claimed links)
                (seq 0 (length rows))) as Hsplit.
  rewrite length_seq in Hsplit.
  assert (length (filter (fun k => k ∈ claimed links) (seq 0 (length rows)))
          = length links) as Hclaimed; [|lia].
  rewrite <- (length_fmap candidate_index links).
  apply Permutation_length, NoDup_Permutation.
  - apply NoDup_filter, NoDup_seq.
  - by eapply links_ok_candidate_NoDup.
  - intros k. rewrite list_elem_of_filter, elem_of_seq. unfold claimed.
    rewrite elem_of_list_to_set. split; [by intros [? _]|].
    intros Hk. split; [done|].
    apply list_elem_of_fmap in Hk as (l & -> & Hl).
    destruct (links_ok_in_range _ _ _ _ _ Hok l Hl). lia.
Qed.
End Shape.

(** *** The order of the sort keys *)

Lemma str_compare_eq a b : str_compare a b = Eq <-> a = b.
Proof.
  revert b. induction a as [|x a IH]; intros [|y b]; simpl; try done.
  destruct (N.compare_spec x y) as [->|Hlt|Hgt].
  - rewrite IH. split; [by intros ->|by intros [= ->]].
  - split; [done|]. intros [= -> _]. lia.
  - split; [done|]. intros [= -> _]. lia.
Qed.

Lemma str_compare_antisym a b : str_compare b a = CompOpp (str_compare a b).
Proof.
  revert b. induction a as [|x a IH]; intros [|y b]; simpl; try done.
  rewrite (N.compare_antisym x y), IH. by destruct (x ?= y)%N.
Qed.

Lemma str_compare_lt_trans a b c :
  str_compare a b = Lt -> str_compare b c = Lt -> str_compare a c = Lt.
Proof.
  revert b c. induction a as [|x a IH]; intros [|y b] [|z c]; simpl;
    try done.
  destruct (N.compare_spec x y) as [->|Hxy|Hxy]; [| |done].
  - destruct (N.compare_spec y z) as [->|Hyz|Hyz]; [|done..]. apply IH.
  - intros _. destruct (N.compare_spec y z) as [->|Hyz|Hyz]; [| |done].
    + intros _. by apply N.compare_lt_iff in Hxy as ->.
    + intros _. assert (x < z)%N as Hxz by lia.
      by apply N.compare_lt_iff in Hxz as ->.
Qed.

Lemma key_lt_compare k1 k2 : key_lt k1 k2 = true <-> key_compare k1 k2 = Lt.
Proof.
  destruct k1 as [[r1 s1] n1], k2 as [[r2 s2] n2]. simpl.
  destruct (r1 ?= r2)%Z; [|done..].
  destruct (str_compare s1 s2); [|done..].
  by destruct (str_compare n1 n2).
Qed.

Lemma key_compare_eq k1 k2 : key_compare k1 k2 = Eq <-> k1 = k2.
Proof.
  destruct k1 as [[r1 s1] n1], k2 as [[r2 s2] n2]. simpl. split.
  - destruct (Z.compare_spec r1 r2) as [->| |]; [|done..].
    destruct (str_compare s1 s2) eqn:Hs; [|done..].
    apply str_compare_eq in Hs as ->. by intros ->%str_compare_eq.
  - intros [= -> -> ->]. rewrite Z.compare_refl.
    by rewrite !(proj2 (str_compare_eq _ _) eq_refl).
Qed.

Lemma key_compare_antisym k1 k2 :
  key_compare k2 k1 = CompOpp (key_compare k1 k2).
Proof.
  destruct k1 as [[r1 s1] n1], k2 as [[r2 s2] n2]. simpl.
  rewrite (Z.compare_antisym r1 r2), (str_compare_antisym s1 s2),
    (str_compare_antisym n1 n2).
  destruct (r1 ?= r2)%Z; [|done..]. by destruct (str_compare s1 s2).
Qed.

Lemma key_compare_lt_trans k1 k2 k3 :
  key_compare k1 k2 = Lt -> key_compare k2 k3 = Lt -> key_compare k1 k3 = Lt.
Proof.
  destruct k1 as [[r1 s1] n1], k2 as [[r2 s2] n2], k3 as [[r3 s3] n3]. simpl.
  destruct (Z.compare_spec r1 r2) as [->|Hr12|Hr12]; [| |done].
  - destruct (Z.compare_spec r2 r3) as [->|Hr23|Hr23]; [|done..].
    destruct (str_compare s1 s2) eqn:Hs12; [| |done].
    + apply str_compare_eq in Hs12 as ->.
      destruct (str_compare s2 s3) eqn:Hs23; [|done..].
      apply str_compare_lt_trans.
    + intros _. destruct (str_compare s2 s3) eqn:Hs23; [| |done].
      * apply str_compare_eq in Hs23 as <-. by rewrite Hs12.
      * by rewrite (str_compare_lt_trans _ _ _ Hs12 Hs23).
  - intros _. destruct (Z.compare_spec r2 r3) as [->|Hr23|Hr23]; [| |done].
    + intros _. by apply Z.compare_lt_iff in Hr12 as ->.
    + intros _. assert (r1 < r3)%Z as Hr13 by lia.
      by apply Z.compare_lt_iff in Hr13 as ->.
Qed.

Lemma key_lt_asym k1 k2 : key_lt k1 k2 = true -> key_lt k2 k1 = false.
Proof.
  rewrite key_lt_compare. intros Hlt. apply not_true_is_false.
  rewrite key_lt_compare, key_compare_antisym, Hlt. done.
Qed.

Lemma key_le_trans k1 k2 k3 :
  key_lt k2 k1 = false -> key_lt k3 k2 = false -> key_lt k3 k1 = false.
Proof.
  intros H12%not_true_iff_false H23%not_true_iff_false.
  apply not_true_iff_false. intros H31.
  rewrite key_lt_compare in H12, H23, H31.
  destruct (key_compare k3 k2) eqn:H32.
  - apply key_compare_eq in H32 as ->. done.
  - done.
  - apply H12. apply (key_compare_lt_trans k2 k3 k1); [|done].
    by rewrite key_compare_antisym, H32.
Qed.

Section Sorted.
Context `{PyRuntime}.

Lemma insert_row_sorted row sorted :
  rows_sorted sorted -> rows_sorted (insert_row row sorted).
Proof.
  induction sorted as [|other rest IH]; cbn [insert_row rows_sorted].
  { intros _. by split; [constructor|]. }
  intros [Hall Hrest].
  destruct (key_lt (_sort_key other) (_sort_key row)) eqn:Hlt;
    cbn [rows_sorted].
  - split; [|by apply IH].
    rewrite insert_row_perm. constructor; [|done].
    by apply key_lt_asym.
  - split_and!; [|done..]. constructor; [done|].
    apply Forall_forall. intros x Hx.
    apply (key_le_trans _ (_sort_key other)); [done|].
    apply (proj1 (Forall_forall _ _) Hall x Hx).
Qed.

Lemma sort_rows_sorted rows : rows_sorted (sort_rows rows).
Proof.
  induction rows as [|row rows IH]; simpl; [done|].
  by apply insert_row_sorted.
Qed.

Lemma rows_sorted_lookup rows i j a b :
  rows_sorted rows -> i < j -> rows !! i = Some a -> rows !! j = Some b ->
  key_lt (_sort_key b) (_sort_key a) = false.
Proof.
  revert i j. induction rows as [|row rest IH]; intros i j; [done|].
  cbn [rows_sorted]. intros [Hall Hrest] Hlt Hi Hj.
  destruct j as [|j]; [lia|]. destruct i as [|i]; simpl in *.
  - simplify_eq. apply (proj1 (Forall_forall _ _) Hall b).
    by eapply list_elem_of_lookup_2.
  - apply (IH i j); [done|lia|done..].
Qed.

(** [merge_provider_matches] returns its rows in the order of their sort
    keys: no row has a key smaller than that of a row before it, the key being
    the negated priority of the status, then the start time, then the lower
    case of [home vs away], compared as Python compares tuples. So the rows
    come by decreasing priority of their status: live first, then finished,
    postponed, cancelled, scheduled, and the others. *)
Theorem merged_rows_sorted (goal_rows espn_rows streamed_rows : list Row)
    (sofa_rows : option (list Row)) :
  exists out,
    merge_provider_matches goal_rows espn_rows streamed_rows sofa_rows
    = Ok out ∧
    forall i j a b,
      i < j -> out !! i = Some a -> out !! j = Some b ->
      key_lt (_sort_key b) (_sort_key a) = false ∧
      key_compare (_sort_key a) (_sort_key b) ≠ Gt ∧
      (status_priority (observed_status b)
       <= status_priority (observed_status a))%Z.
Proof.
  destruct (traced_merge_total goal_rows espn_rows streamed_rows sofa_rows)
    as [traced Htraced].
  exists (sort_rows (traced.*1)).
  rewrite traced_merge_erase, Htraced. split; [done|].
  intros i j a b Hlt Hi Hj.
  pose proof (rows_sorted_lookup _ i j a b (sort_rows_sorted _) Hlt Hi Hj)
    as Hkey.
  split_and!; [done| |].
  - intros Hgt. apply not_true_iff_false in Hkey. apply Hkey.
    rewrite key_lt_compare, key_compare_antisym, Hgt. done.
  - unfold _sort_key, key_lt, observed_status in *.
    destruct (Z.compare_spec
                (- status_priority (str_or (status b) (ustr "unknown")))
                (- status_priority (str_or (status a) (ustr "unknown"))))
      as [Heq|Hlt'|Hgt]; [lia|done|lia].
Qed.

End Sorted.

(** *** Every input row is folded into one canonical row *)

Lemma alter_contributors (f : Traced -> Traced) (extra : list (pystr * Row))
    (m : list Traced) :
  (forall t, (f t).2 = t.2 ++ extra) ->
  forall i,
    i < length m ->
    concat ((alter f i m).*2) ≡ₚ concat (m.*2) ++ extra.
Proof.
  intros Hf. induction m as [|t m IH]; intros i Hi; simpl in Hi; [lia|].
  destruct i as [|i].
  - change (alter f 0 (t :: m)) with (f t :: m).
    rewrite !fmap_cons, !concat_cons, Hf, <- !(assoc_L (++)).
    f_equiv. apply Permutation_app_comm.
  - change (alter f (S i) (t :: m)) with (t :: alter f i m).
    rewrite !fmap_cons, !concat_cons, IH by lia. by rewrite (assoc_L (++)).
Qed.

Lemma fold_alter_contributors {L : Type} (idx : L -> nat)
    (g : L -> Traced -> Traced) (extra : L -> list (pystr * Row))
    (links : list L) :
  (forall l t, (g l t).2 = t.2 ++ extra l) ->
  forall m,
    Forall (fun l => idx l < length m) links ->
    concat ((fold_alter idx g links m).*2)
    ≡ₚ concat (m.*2) ++ concat (extra <$> links).
Proof.
  intros Hg. unfold fold_alter.
  induction links as [|l links IH]; intros m Hrange; simpl.
  { by rewrite app_nil_r. }
  apply Forall_cons_1 in Hrange as [Hl Hrange].
  rewrite IH by (eapply Forall_impl; [done|]; intros l'; by rewrite length_alter).
  rewrite (alter_contributors (g l) (extra l)) by done.
  by rewrite (assoc_L (++)).
Qed.

Lemma seeds_contributors source seed (rows : list Row) :
  concat ((traced_seed source seed <$> rows).*2)
  = (fun row => (ustr source, row)) <$> rows.
Proof.
  induction rows as [|row rows IH]; [done|].
  rewrite !fmap_cons, concat_cons, IH. done.
Qed.

(** What each loop appends to the contributors. *)
Lemma espn_contributors (rows : list Row) (links : list MatchLink) :
  concat
    ((fun l =>
        match rows !! candidate_index l with
        | Some e => [(ustr "espn", e)]
        | None => []
        end) <$> links)
  = (fun row => (ustr "espn", row))
    <$> omap (fun l => rows !! candidate_index l) links.
Proof.
  induction links as [|l links IH]; [done|].
  rewrite fmap_cons, concat_cons, IH. cbn [omap list_omap].
  by destruct (rows !! candidate_index l).
Qed.

Lemma sofa_contributors (rows : list Row) (links : list MatchLink) :
  concat
    ((fun l =>
        match rows !! candidate_index l with
        | Some e => [(ustr "sofascore", e)]
        | None => []
        end) <$> links)
  = (fun row => (ustr "sofascore", row))
    <$> omap (fun l => rows !! candidate_index l) links.
Proof.
  induction links as [|l links IH]; [done|].
  rewrite fmap_cons, concat_cons, IH. cbn [omap list_omap].
  by destruct (rows !! candidate_index l).
Qed.

Lemma stream_contributors (rows : list Row) (links : list MatchLink) :
  exists watched : list Row,
    concat
      ((fun l =>
          match rows !! candidate_index l with
          | Some e =>
              if truthy (streamed_watch_url e) then [(ustr "streamed", e)]
              else []
          | None => []
          end) <$> links)
    = (fun row => (ustr "streamed", row)) <$> watched.
Proof.
  induction links as [|l links [watched IH]]; [by exists []|].
  rewrite fmap_cons, concat_cons, IH.
  destruct (rows !! candidate_index l) as [e|]; [|by exists watched].
  destruct (truthy _); [by exists (e :: watched)|by exists watched].
Qed.

Lemma filter_tagged (source tag : pystr) (rows : list Row) :
  (filter (fun c : pystr * Row => c.1 = source)
     ((fun row => (tag, row)) <$> rows)).*2
  = if decide (tag = source) then rows else [].
Proof.
  induction rows as [|row rows IH]; [by case_decide|].
  rewrite fmap_cons. case_decide as Htag.
  - rewrite filter_cons_True, fmap_cons by done. by rewrite IH.
  - by rewrite filter_cons_False by done.
Qed.

(** The rows a list of indices selects. *)
Lemma omap_lookup_seq (pre rows : list Row) :
  omap (fun k => (pre ++ rows) !! k) (seq (length pre) (length rows)) = rows.
Proof.
  revert pre. induction rows as [|row rows IH]; intros pre; [done|].
  simpl. rewrite lookup_app_r, Nat.sub_diag by done. simpl. f_equal.
  specialize (IH (pre ++ [row])).
  rewrite length_app, Nat.add_1_r, <- (assoc_L (++)) in IH. exact IH.
Qed.

Lemma unlinked_rows_omap linked (pre rows : list Row) :
  unlinked_rows linked (length pre) rows
  = omap (fun k => (pre ++ rows) !! k)
      (filter (fun k => k ∉ linked) (seq (length pre) (length rows))).
Proof.
  revert pre. induction rows as [|row rows IH]; intros pre; [done|].
  specialize (IH (pre ++ [row])).
  rewrite length_app, Nat.add_1_r, <- (assoc_L (++)) in IH.
  simpl. case_bool_decide.
  - rewrite filter_cons_False by auto. exact IH.
  - rewrite filter_cons_True by auto. simpl.
    rewrite lookup_app_r, Nat.sub_diag by done. simpl. f_equal. exact IH.
Qed.

Section Partition.
Context `{PyRuntime}.

Lemma claimed_indices base_rows rows max_minutes_diff min_similarity links :
  links_ok base_rows rows max_minutes_diff min_similarity links ->
  candidate_index <$> links
  ≡ₚ filter (fun k => k ∈ claimed links) (seq 0 (length rows)).
Proof.
  intros Hok. apply NoDup_Permutation.
  - by eapply links_ok_candidate_NoDup.
  - apply NoDup_filter, NoDup_seq.
  - intros k. rewrite list_elem_of_filter, elem_of_seq. unfold claimed.
    rewrite elem_of_list_to_set. split; [|by intros [? _]].
    intros Hk. split; [done|].
    apply list_elem_of_fmap in Hk as (l & -> & Hl).
    destruct (links_ok_in_range _ _ _ _ _ Hok l Hl). lia.
Qed.

(** The rows the links take and the rows no link takes are the rows of the
    source, each once. *)
Lemma linked_and_unlinked base_rows rows max_minutes_diff min_similarity
    links :
  _match_records base_rows rows max_minutes_diff min_similarity = Ok links ->
  omap (fun l => rows !! candidate_index l) links
  ++ unlinked_rows (claimed links) 0 rows
  ≡ₚ rows.
Proof.
  intros Hok%match_records_links_ok.
  pose proof (unlinked_rows_omap (claimed links) [] rows) as Hunlinked.
  change (length (@nil Row)) with 0 in Hunlinked.
  change ([] ++ rows) with rows in Hunlinked. rewrite Hunlinked.
  assert (omap (fun l => rows !! candidate_index l) links
          = omap (fun k => rows !! k) (candidate_index <$> links)) as ->.
  { clear. induction links as [|l links IH]; [done|].
    rewrite fmap_cons. cbn [omap list_omap]. by rewrite IH. }
  rewrite (claimed_indices _ _ _ _ _ Hok), <- omap_app.
  rewrite filter_app_complement.
  pose proof (omap_lookup_seq [] rows) as Hall.
  change (length (@nil Row)) with 0 in Hall.
  change ([] ++ rows) with rows in Hall. by rewrite Hall.
Qed.

Lemma links_in_range (merged : list Traced) rows max_minutes_diff
    min_similarity links :
  _match_records (merged.*1) rows max_minutes_diff min_similarity = Ok links ->
  Forall (fun l => base_index l < length merged) links.
Proof.
  intros Hok%match_records_links_ok. apply Forall_forall. intros l Hl.
  destruct (links_ok_in_range _ _ _ _ _ Hok l Hl) as [Hb _].
  by rewrite length_fmap in Hb.
Qed.

(** The contributors of the traced merge, source by source. *)
Lemma traced_merge_contributors goal_rows espn_rows streamed_rows sofa_rows
    traced :
  traced_merge goal_rows espn_rows streamed_rows sofa_rows = Ok traced ->
  contributed "goal" traced ≡ₚ goal_rows ∧
  contributed "espn" traced ≡ₚ espn_rows ∧
  contributed "sofascore" traced ≡ₚ default [] sofa_rows.
Proof.
  unfold traced_merge.
  destruct (_match_records _ espn_rows _ _) as [links1|] eqn:Hlinks1; simpl;
    [|done].
  destruct (_match_records _ (default [] sofa_rows) _ _) as [links2|]
    eqn:Hlinks2; simpl; [|done].
  destruct (_match_records _ streamed_rows _ _) as [links3|] eqn:Hlinks3;
    simpl; [|done].
  intros [= <-].
  pose proof (linked_and_unlinked _ _ _ _ _ Hlinks1) as Hespn.
  pose proof (linked_and_unlinked _ _ _ _ _ Hlinks2) as Hsofa.
  apply links_in_range in Hlinks1, Hlinks2, Hlinks3.
  destruct (stream_contributors streamed_rows links3) as [watched Hwatched].
  assert (forall source,
             contributed source
               (fold_alter base_index (traced_stream_update streamed_rows)
                  links3
                  (fold_alter base_index
                     (traced_sofa_update (default [] sofa_rows)) links2
                     (fold_alter base_index (traced_espn_update espn_rows)
                        links1
                        (traced_seed "goal" seed_goal <$> goal_rows)
                      ++ (traced_seed "espn" seed_espn
                          <$> unlinked_rows (claimed links1) 0 espn_rows))
                   ++ (traced_seed "sofascore" seed_sofa
                       <$> unlinked_rows (claimed links2) 0
                             (default [] sofa_rows))))
             ≡ₚ (if decide (ustr "goal" = ustr source) then goal_rows else [])
                ++ (if decide (ustr "espn" = ustr source)
                    then omap (fun l => espn_rows !! candidate_index l) links1
                         ++ unlinked_rows (claimed links1) 0 espn_rows
                    else [])
                ++ (if decide (ustr "sofascore" = ustr source)
                    then omap
                           (fun l =>
                              default [] sofa_rows !! candidate_index l)
                           links2
                         ++ unlinked_rows (claimed links2) 0
                              (default [] sofa_rows)
                    else [])
                ++ (if decide (ustr "streamed" = ustr source) then watched
                    else [])) as Hall.
  { intros source. unfold contributed.
    rewrite (fold_alter_contributors base_index
               (traced_stream_update streamed_rows)
               (fun l =>
                  match streamed_rows !! candidate_index l with
                  | Some e =>
                      if truthy (streamed_watch_url e)
                      then [(ustr "streamed", e)] else []
                  | None => []
                  end)); [|
      intros l t; unfold traced_stream_update;
      destruct (streamed_rows !! _) as [e|]; simpl;
      [destruct (truthy _)|]; by rewrite ?app_nil_r |done].
    rewrite fmap_app, concat_app.
    rewrite (fold_alter_contributors base_index
               (traced_sofa_update (default [] sofa_rows))
               (fun l =>
                  match default [] sofa_rows !! candidate_index l with
                  | Some e => [(ustr "sofascore", e)]
                  | None => []
                  end)); [|
      intros l t; unfold traced_sofa_update;
      destruct (default [] sofa_rows !! _) as [e|]; simpl;
      by rewrite ?app_nil_r |done].
    rewrite fmap_app, concat_app.
    rewrite (fold_alter_contributors base_index
               (traced_espn_update espn_rows)
               (fun l =>
                  match espn_rows !! candidate_index l with
                  | Some e => [(ustr "espn", e)]
                  | None => []
                  end)); [|
      intros l t; unfold traced_espn_update;
      destruct (espn_rows !! _) as [e|]; simpl;
      by rewrite ?app_nil_r |done].
    rewrite !seeds_contributors, espn_contributors, sofa_contributors,
      Hwatched.
    rewrite !filter_app, !fmap_app, !filter_tagged.
    repeat case_decide; simpl; rewrite ?app_nil_r; simpl;
      rewrite <- ?(assoc_L (++)); try done.
    all: rewrite ?(assoc_L (++)); try done.
    all: f_equiv; try done; apply Permutation_app_comm. }
  split_and!.
  - rewrite (Hall "goal"%string). repeat case_decide; try done.
    by rewrite !app_nil_r.
  - rewrite (Hall "espn"%string). repeat case_decide; try done.
    simpl. by rewrite !app_nil_r.
  - rewrite (Hall "sofascore"%string). repeat case_decide; try done.
    simpl. by rewrite !app_nil_r.
Qed.

(** No row of the three sources that carry scores is lost, repeated or made
    up. The contributors of the rows that [merge_provider_matches] returns,
    taken source by source, are the rows of the anchor, of the second and of
    the third input, each row once; every canonical row is seeded by one of
    them; and so the rows returned and the links of the first two stages are
    together as many as the rows of the three inputs. The streamed source
    adds no row. *)
Theorem merged_rows_partition (goal_rows espn_rows streamed_rows : list Row)
    (sofa_rows : option (list Row)) (out : list Row) :
  merge_provider_matches goal_rows espn_rows streamed_rows sofa_rows = Ok out ->
  exists traced goal_espn_links merged_sofa_links,
    traced_merge goal_rows espn_rows streamed_rows sofa_rows = Ok traced ∧
    out ≡ₚ traced.*1 ∧
    contributed "goal" traced ≡ₚ goal_rows ∧
    contributed "espn" traced ≡ₚ espn_rows ∧
    contributed "sofascore" traced ≡ₚ default [] sofa_rows ∧
    Forall (seeded goal_rows espn_rows (default [] sofa_rows)) traced ∧
    _match_records (seed_goal <$> goal_rows) espn_rows 180 0.76
    = Ok goal_espn_links ∧
    _match_records
      (espn_stage (seed_goal <$> goal_rows) espn_rows goal_espn_links)
      (default [] sofa_rows) 180 0.78
    = Ok merged_sofa_links ∧
    length out + length goal_espn_links + length merged_sofa_links
    = length goal_rows + length espn_rows + length (default [] sofa_rows).
Proof.
  intros Hout.
  destruct (merge_out_traced _ _ _ _ _ Hout) as (traced & Htraced & Hperm).
  destruct (traced_merge_contributors _ _ _ _ _ Htraced)
    as (Hgoal & Hespn & Hsofa).
  pose proof (traced_merge_seeded _ _ _ _ _ Htraced) as Hseeded.
  revert Hout. unfold merge_provider_matches.
  destruct (_match_records (seed_goal <$> goal_rows) espn_rows 180 0.76)
    as [links1|] eqn:Hlinks1; simpl; [|done].
  destruct (_match_records
              (espn_stage (seed_goal <$> goal_rows) espn_rows links1)
              (default [] sofa_rows) 180 0.78)
    as [links2|] eqn:Hlinks2; simpl; [|done].
  destruct (_match_records _ streamed_rows 180 0.80) as [links3|]; simpl;
    [|done].
  intros [= <-].
  exists traced, links1, links2. split_and!; [done..|].
  rewrite (Permutation_length (sort_rows_perm _)).
  rewrite stream_fold, fold_alter_length.
  rewrite sofa_stage_eq, length_app, fold_alter_length,
    append_unlinked_nil, length_fmap.
  rewrite espn_stage_eq, length_app, fold_alter_length,
    append_unlinked_nil, !length_fmap.
  pose proof (unlinked_rows_count _ _ _ _ _ Hlinks1).
  pose proof (unlinked_rows_count _ _ _ _ _ Hlinks2).
  lia.
Qed.
End Partition.

Lemma merged_rows_partition_witness :
  exists traced goal_espn_links merged_sofa_links,
    @traced_merge samples.runtime [samples.goal_row 2 1]
      [samples.espn_row 2 1; gamma_row] [] None = Ok traced ∧
    merged_sample ≡ₚ traced.*1 ∧
    contributed "goal" traced ≡ₚ [samples.goal_row 2 1] ∧
    contributed "espn" traced ≡ₚ [samples.espn_row 2 1; gamma_row] ∧
    contributed "sofascore" traced ≡ₚ default [] None ∧
    Forall
      (seeded [samples.goal_row 2 1] [samples.espn_row 2 1; gamma_row]
         (default [] (@None (list Row))))
      traced ∧
    @_match_records samples.runtime (seed_goal <$> [samples.goal_row 2 1])
      [samples.espn_row 2 1; gamma_row] 180 0.76
    = Ok goal_espn_links ∧
    @_match_records samples.runtime
      (@espn_stage samples.runtime (seed_goal <$> [samples.goal_row 2 1])
         [samples.espn_row 2 1; gamma_row] goal_espn_links)
      (default [] (@None (list Row))) 180 0.78
    = Ok merged_sofa_links ∧
    length merged_sample + length goal_espn_links + length merged_sofa_links
    = length [samples.goal_row 2 1]
      + length [samples.espn_row 2 1; gamma_row] + length (default [] (@None (list Row))).
Proof.
  apply (@merged_rows_partition samples.runtime [samples.goal_row 2 1]
           [samples.espn_row 2 1; gamma_row] [] None merged_sample).
  vm_compute. reflexivity.
Defined.

(** * More on the quality gate, the filters and the query *)

Section GateMore.
Context `{PyRuntime}.
Variables (max_live_stale_seconds reference : Z).
Variables (include_stale include_conflicts : bool).

Local Abbreviation step :=
  (gate_step max_live_stale_seconds reference include_stale include_conflicts).
Local Abbreviation annotated :=
  (fun row => (annotate max_live_stale_seconds reference row).1).
Local Abbreviation as_stale :=
  (dropped_as_stale max_live_stale_seconds reference include_stale
     include_conflicts).
Local Abbreviation as_conflict := (dropped_as_conflict include_conflicts).

(** The loop is a partition of the rows. *)
Lemma gate_fold_partition rows :
  fold_left step rows ([], 0, 0)
  = (annotated
     <$> filter (fun row => as_conflict row = false ∧ as_stale row = false)
           rows,
     length (filter (fun row => as_stale row = true) rows),
     length (filter (fun row => as_conflict row = true) rows)).
Proof.
  induction rows as [|row rows IH]; [done|].
  cbn [fold_left]. rewrite gate_step_cases. cbv zeta.
  change (bool_decide (verification row = Some (ustr "score_conflict"))
          && negb include_conflicts) with (as_conflict row).
  destruct (as_conflict row) eqn:Hconflict.
  { assert (as_stale row = false) as Hstale
      by (unfold dropped_as_stale; by rewrite Hconflict).
    rewrite gate_fold_shift, IH.
    rewrite filter_cons_False by (rewrite Hconflict; by intros [? _]).
    rewrite filter_cons_False by (by rewrite Hstale).
    rewrite filter_cons_True by done.
    done. }
  assert (as_stale row
          = (annotate max_live_stale_seconds reference row).2
            && negb include_stale) as Hstale
    by (unfold dropped_as_stale; by rewrite Hconflict).
  rewrite <- Hstale.
  destruct (as_stale row) eqn:Hdrop.
  { rewrite gate_fold_shift, IH.
    rewrite filter_cons_False by (rewrite Hdrop; by intros [_ ?]).
    rewrite filter_cons_True by done.
    rewrite filter_cons_False by (by rewrite Hconflict).
    done. }
  rewrite gate_fold_shift, IH.
  rewrite filter_cons_True by (by rewrite Hconflict, Hdrop).
  rewrite filter_cons_False by (by rewrite Hdrop).
  rewrite filter_cons_False by (by rewrite Hconflict).
  done.
Qed.

Lemma gate_partition_length rows :
  length (filter (fun row => as_conflict row = false ∧ as_stale row = false)
            rows)
  + length (filter (fun row => as_stale row = true) rows)
  + length (filter (fun row => as_conflict row = true) rows)
  = length rows.
Proof.
  induction rows as [|row rows IH]; [done|].
  destruct (as_conflict row) eqn:Hconflict.
  { assert (as_stale row = false) as Hstale
      by (unfold dropped_as_stale; by rewrite Hconflict).
    rewrite filter_cons_False by (rewrite Hconflict; by intros [? _]).
    rewrite filter_cons_False by (by rewrite Hstale).
    rewrite filter_cons_True by done.
    simpl. lia. }
  destruct (as_stale row) eqn:Hdrop.
  { rewrite filter_cons_False by (rewrite Hdrop; by intros [_ ?]).
    rewrite filter_cons_True by done.
    rewrite filter_cons_False by (by rewrite Hconflict).
    simpl. lia. }
  rewrite filter_cons_True by (by rewrite Hconflict, Hdrop).
  rewrite filter_cons_False by (by rewrite Hdrop).
  rewrite filter_cons_False by (by rewrite Hconflict).
  simpl. lia.
Qed.
End GateMore.

Section GateTheorems.
Context `{PyRuntime}.

(** With a reference time the gate is a partition of its input. The rows it
    outputs are the annotated copies, in the order of the input, of the rows
    it drops neither as conflicts nor as stale; the two counters are the
    numbers of rows dropped each way; and kept and dropped rows are as many
    as the rows of the input. *)
Theorem quality_gate_partition (max_live_stale_seconds : Z)
    (utc_now_iso : pystr) (matches : list Row)
    (generated_at_utc : option pystr) (include_stale include_conflicts : bool)
    (reference : Z) :
  reference_time generated_at_utc utc_now_iso = Some reference ->
  let gate :=
    _apply_quality_gate max_live_stale_seconds utc_now_iso matches
      generated_at_utc include_stale include_conflicts in
  let as_stale :=
    dropped_as_stale max_live_stale_seconds reference include_stale
      include_conflicts in
  gate.1.1
  = (fun row => (annotate max_live_stale_seconds reference row).1)
    <$> filter
          (fun row =>
             dropped_as_conflict include_conflicts row = false
             ∧ as_stale row = false)
          matches ∧
  gate.1.2 = length (filter (fun row => as_stale row = true) matches) ∧
  gate.2
  = length
      (filter (fun row => dropped_as_conflict include_conflicts row = true)
         matches) ∧
  length gate.1.1 + gate.1.2 + gate.2 = length matches.
Proof.
  intros Href gate as_stale. unfold gate, as_stale.
  rewrite (apply_quality_gate_fold _ _ _ _ _ _ _ Href), gate_fold_partition.
  simpl. split_and!; [done..|].
  rewrite length_fmap. apply gate_partition_length.
Qed.

(** What the two flags promise of the output: unless stale rows are asked
    for, every row of the output is marked not stale, and unless conflicts
    are asked for, none has the verification [score_conflict]. *)
Theorem quality_gate_output_clean (max_live_stale_seconds : Z)
    (utc_now_iso : pystr) (matches : list Row)
    (generated_at_utc : option pystr) (include_stale include_conflicts : bool)
    (reference : Z) (candidate : Row) :
  reference_time generated_at_utc utc_now_iso = Some reference ->
  candidate
  ∈ (_apply_quality_gate max_live_stale_seconds utc_now_iso matches
       generated_at_utc include_stale include_conflicts).1.1 ->
  (include_stale = false -> is_stale candidate = Some false) ∧
  (include_conflicts = false ->
   verification candidate ≠ Some (ustr "score_conflict")).
Proof.
  intros Href.
  rewrite (apply_quality_gate_fold _ _ _ _ _ _ _ Href), gate_fold_partition.
  cbn [fst]. intros (row & -> & Hrow)%list_elem_of_fmap.
  apply list_elem_of_filter in Hrow as [[Hconflict Hstale] _].
  rewrite annotate_is_stale, annotate_verification.
  unfold dropped_as_stale in Hstale. rewrite Hconflict in Hstale.
  unfold dropped_as_conflict in Hconflict. split.
  - intros ->. cbn [negb andb] in Hstale. rewrite andb_true_r in Hstale.
    by rewrite Hstale.
  - intros ->. rewrite andb_true_r in Hconflict.
    by apply bool_decide_eq_false in Hconflict.
Qed.

Lemma annotate_frame max_live_stale_seconds reference row :
  let candidate := (annotate max_live_stale_seconds reference row).1 in
  candidate
  = set_staleness_reason (staleness_reason candidate)
      (set_is_stale (is_stale candidate)
         (set_last_update_age_seconds (last_update_age_seconds candidate)
            row)) ∧
  (is_stale candidate = Some true ->
   staleness_reason candidate
   = Some
       match row_age reference row with
       | None => ustr "missing_last_update"
       | Some _ =>
           ustr "older_than_" ++ str_of_int max_live_stale_seconds
           ++ ustr "_seconds"
       end) ∧
  (is_stale candidate = Some false ->
   staleness_reason candidate = staleness_reason row).
Proof.
  unfold annotate, row_age.
  destruct (normalize.parse_iso_utc _); cbn [fst];
    destruct (_ && _); destruct row; split_and!; done.
Qed.

(** Every row the gate outputs is an input row in which at most three keys
    differ: the age, the stale mark and the reason of staleness. A row marked
    stale carries [missing_last_update] when it has no age and
    [older_than_N_seconds], [N] the threshold, when it has one; a row marked
    not stale keeps the reason it came with. *)
Theorem quality_gate_annotation_frame (max_live_stale_seconds : Z)
    (utc_now_iso : pystr) (matches : list Row)
    (generated_at_utc : option pystr) (include_stale include_conflicts : bool)
    (reference : Z) (candidate : Row) :
  reference_time generated_at_utc utc_now_iso = Some reference ->
  candidate
  ∈ (_apply_quality_gate max_live_stale_seconds utc_now_iso matches
       generated_at_utc include_stale include_conflicts).1.1 ->
  exists row,
    row ∈ matches ∧
    candidate
    = set_staleness_reason (staleness_reason candidate)
        (set_is_stale (is_stale candidate)
           (set_last_update_age_seconds (last_update_age_seconds candidate)
              row)) ∧
    (is_stale candidate = Some true ->
     staleness_reason candidate
     = Some
         match row_age reference row with
         | None => ustr "missing_last_update"
         | Some _ =>
             ustr "older_than_" ++ str_of_int max_live_stale_seconds
             ++ ustr "_seconds"
         end) ∧
    (is_stale candidate = Some false ->
     staleness_reason candidate = staleness_reason row).
Proof.
  intros Href.
  rewrite (apply_quality_gate_fold _ _ _ _ _ _ _ Href).
  intros (row & Hrow & ->)%gate_fold_kept.
  exists row. split; [done|]. apply annotate_frame.
Qed.
End GateTheorems.

(** ** The filters and the query *)

Lemma cond_filter_spec {A} (b : bool) (P : A -> Prop)
    `{forall x, Decision (P x)} (rows : list A) :
  (if b then filter P rows else rows) `sublist_of` rows ∧
  forall row,
    row ∈ (if b then filter P rows else rows)
    <-> row ∈ rows ∧ (b = false ∨ P row).
Proof.
  destruct b.
  - split; [apply sublist_filter|]. intros row. rewrite list_elem_of_filter.
    split; [intros [? ?]; auto|]. by intros [? [?|?]].
  - split; [done|]. intros row. split; [auto|]. by intros [? _].
Qed.

Lemma filter_wanted_off (normalized : pystr) :
  bool_decide (normalized ≠ [])
  && negb (bool_decide (normalized ∈ [ustr "all"; ustr "*"])) = false
  <-> normalized = [] ∨ normalized = ustr "all" ∨ normalized = ustr "*".
Proof.
  rewrite andb_false_iff, negb_false_iff, bool_decide_eq_false,
    bool_decide_eq_true, !elem_of_cons, elem_of_nil.
  split.
  - intros [Hnil|[?|[?|?]]]; [|auto|auto|done].
    left. by destruct (decide (normalized = [])).
  - intros [-> | [-> | ->]]; auto.
Qed.

Section Filters.
Context `{PyRuntime}.

Lemma filter_matches_spec (matches : list Row)
    (status_arg source_arg league : option pystr) :
  _filter_matches matches status_arg source_arg league `sublist_of` matches ∧
  forall row,
    row ∈ _filter_matches matches status_arg source_arg league
    <-> row ∈ matches ∧ status_selected status_arg row
        ∧ source_selected source_arg row ∧ league_selected league row.
Proof.
  unfold _filter_matches, status_selected, source_selected, league_selected.
  cbv zeta.
  set (normalized_status := lower (strip (str_or status_arg (ustr "all")))).
  set (normalized_source := lower (strip (str_or source_arg (ustr "all")))).
  set (needle := lower (strip (default [] league))).
  set (status_on :=
         bool_decide (normalized_status ≠ [])
         && negb (bool_decide (normalized_status ∈ [ustr "all"; ustr "*"]))).
  set (source_on :=
         bool_decide (normalized_source ≠ [])
         && negb (bool_decide (normalized_source ∈ [ustr "all"; ustr "*"]))).
  set (wanted :=
         (fun entry => lower (strip entry))
         <$> filter (fun entry => strip entry ≠ [])
               (split_on 44%N normalized_status)).
  destruct (cond_filter_spec status_on
              (fun row => lower (str_or (status row) []) ∈ wanted) matches)
    as [Hsub1 Hin1].
  set (by_status :=
         if status_on
         then filter (fun row => lower (str_or (status row) []) ∈ wanted)
                matches
         else matches) in *.
  destruct (cond_filter_spec source_on
              (fun row => normalized_source ∈ lower <$> sources row)
              by_status) as [Hsub2 Hin2].
  set (by_source :=
         if source_on
         then filter (fun row => normalized_source ∈ lower <$> sources row)
                by_status
         else by_status) in *.
  assert (forall row,
             row ∈ by_source
             <-> row ∈ matches
                 ∧ (normalized_status = [] ∨ normalized_status = ustr "all"
                    ∨ normalized_status = ustr "*"
                    ∨ exists entry,
                        entry ∈ split_on 44%N normalized_status
                        ∧ strip entry ≠ []
                        ∧ lower (str_or (status row) [])
                          = lower (strip entry))
                 ∧ (normalized_source = [] ∨ normalized_source = ustr "all"
                    ∨ normalized_source = ustr "*"
                    ∨ exists src,
                        src ∈ sources row ∧ lower src = normalized_source))
    as Hin.
  { intros row. rewrite Hin2, Hin1. unfold status_on, source_on.
    rewrite !filter_wanted_off. unfold wanted.
    rewrite !list_elem_of_fmap.
    split.
    - intros [[Hrow Hst] Hso]. split; [done|]. split.
      + destruct Hst as [[?|[?|?]]|(entry & Heq & Hentry)]; auto.
        apply list_elem_of_filter in Hentry as [? ?].
        right. right. right. by exists entry.
      + destruct Hso as [[?|[?|?]]|(src & Heq & Hsrc)]; auto.
        right. right. right. by exists src.
    - intros (Hrow & Hst & Hso). split; [split; [done|]|].
      + destruct Hst as [?|[?|[?|(entry & Hentry & Hne & Heq)]]]; auto.
        right. exists entry. split; [done|]. by apply list_elem_of_filter.
      + destruct Hso as [?|[?|[?|(src & Hsrc & Heq)]]]; auto.
        right. by exists src. }
  assert (by_source `sublist_of` matches) as Hsub by (by etrans).
  destruct (truthy league) eqn:Hleague.
  2:{ split; [done|]. intros row. rewrite Hin. split.
      - intros (? & ? & ?). split_and!; auto.
      - intros (? & ? & ? & _). by split_and!. }
  destruct needle as [|c needle'] eqn:Hneedle.
  { split; [done|]. intros row. rewrite Hin. split.
    - intros (? & ? & ?). split_and!; auto.
    - intros (? & ? & ? & _). by split_and!. }
  split.
  - etrans; [apply sublist_filter|done].
  - intros row. rewrite list_elem_of_filter, Hin. split.
    + intros (? & ? & ? & ?). split_and!; auto.
    + intros (? & ? & ? & [?|[?|?]]); by split_and!.
Qed.

(** [_filter_matches] selects, in the order of the input, the rows that pass
    the three filters together. The status filter is off for an empty
    argument, [all] and [*], and otherwise asks the lower-cased status of the
    row to be one of the non-blank entries between the commas; the source
    filter is off in the same cases and otherwise asks the argument to be the
    lower case of one of the sources of the row; the league filter is off for
    an absent, empty or blank argument and otherwise asks the argument to
    occur in the lower-cased competition. Filtering again with the same
    arguments changes nothing. *)
Theorem filter_matches_selects (matches : list Row)
    (status_arg source_arg league : option pystr) :
  let selected := _filter_matches matches status_arg source_arg league in
  selected `sublist_of` matches ∧
  (forall row,
      row ∈ selected
      <-> row ∈ matches ∧ status_selected status_arg row
          ∧ source_selected source_arg row ∧ league_selected league row) ∧
  _filter_matches selected status_arg source_arg league = selected.
Proof.
  intros selected.
  destruct (filter_matches_spec matches status_arg source_arg league)
    as [Hsub Hin].
  split_and!; [done..|].
  unfold selected, _filter_matches. cbv zeta.
  repeat match goal with
    | |- context [if ?b then _ else _] => destruct b
    | |- context [match ?l with [] => _ | _ :: _ => _ end] => destruct l
    end;
    rewrite ?list_filter_filter;
    repeat (apply list_filter_iff; intros row); try done; try tauto.
Qed.
End Filters.

Section FilterDefaults.
Context `{AsciiStable}.

Lemma lower_all : lower (ustr "all") = ustr "all".
Proof. apply lower_kept. by repeat constructor. Qed.

(** With the Unicode tables as they are on ASCII, a status and a source
    argument that are absent, empty or [all], surrounded by blanks or not,
    and no league, select every row. *)
Theorem filter_matches_defaults (matches : list Row)
    (status_arg source_arg league : option pystr) :
  strip (str_or status_arg (ustr "all")) = ustr "all" ->
  strip (str_or source_arg (ustr "all")) = ustr "all" ->
  truthy league = false ->
  _filter_matches matches status_arg source_arg league = matches.
Proof.
  intros Hstatus Hsource Hleague. unfold _filter_matches. cbv zeta.
  rewrite Hstatus, Hsource, Hleague, lower_all.
  by rewrite (proj2 (filter_wanted_off (ustr "all"))) by auto.
Qed.
End FilterDefaults.

Section Query.
Context `{PyRuntime}.

(** The answer of [get_scores] from the snapshot on, with a reference time.
    Its count is the number of its rows; its rows and the two dropped
    counters add up to the rows of the snapshot that pass the filters, so
    that a row the filters leave out is not counted as dropped; the
    generation time and the providers block are those of the snapshot; and
    every row of the answer is the annotated copy of a row of the snapshot
    that passes the three filters. *)
Theorem get_scores_accounts (max_live_stale_seconds : Z) (utc_now_iso : pystr)
    (payload : Payload) (status_arg source_arg league : option pystr)
    (include_stale include_conflicts : bool) (reference : Z) :
  reference_time (generated_at_utc payload) utc_now_iso = Some reference ->
  let answer :=
    get_scores max_live_stale_seconds utc_now_iso payload status_arg
      source_arg league include_stale include_conflicts in
  let selected :=
    _filter_matches (matches payload) status_arg source_arg league in
  count (scores_payload answer) = length (matches (scores_payload answer)) ∧
  count (scores_payload answer) + dropped_stale_count answer
  + dropped_conflict_count answer
  = length selected ∧
  length selected ≤ length (matches payload) ∧
  generated_at_utc (scores_payload answer) = generated_at_utc payload ∧
  providers (scores_payload answer) = providers payload ∧
  forall candidate,
    candidate ∈ matches (scores_payload answer) ->
    exists row,
      row ∈ matches payload ∧ status_selected status_arg row
      ∧ source_selected source_arg row ∧ league_selected league row
      ∧ candidate = (annotate max_live_stale_seconds reference row).1.
Proof.
  intros Href answer selected. unfold answer, get_scores.
  rewrite (apply_quality_gate_fold _ _ _ _ _ _ _ Href), gate_fold_partition.
  fold selected.
  cbn [scores_payload matches count dropped_stale_count
       dropped_conflict_count generated_at_utc providers].
  destruct (filter_matches_spec (matches payload) status_arg source_arg
              league) as [Hsub Hin].
  split_and!; [done| | |done|done|].
  - rewrite length_fmap. apply gate_partition_length.
  - by apply sublist_length.
  - intros candidate (row & -> & Hrow)%list_elem_of_fmap.
    apply list_elem_of_filter in Hrow as [_ Hrow].
    apply Hin in Hrow as (? & ? & ? & ?). by exists row.
Qed.
End Query.

(** ** The properties on the sample rows *)

Lemma quality_gate_partition_witness :
  let gate :=
    @_apply_quality_gate samples.runtime 60 samples.noon
      [conflicted_stale_row; seed_goal (samples.goal_row 2 1)]
      (Some samples.noon) false false in
  let as_stale :=
    @dropped_as_stale samples.runtime 60 1714564800000000 false false in
  gate.1.1
  = (fun row => (@annotate samples.runtime 60 1714564800000000 row).1)
    <$> filter
          (fun row =>
             dropped_as_conflict false row = false ∧ as_stale row = false)
          [conflicted_stale_row; seed_goal (samples.goal_row 2 1)] ∧
  gate.1.2
  = length
      (filter (fun row => as_stale row = true)
         [conflicted_stale_row; seed_goal (samples.goal_row 2 1)]) ∧
  gate.2
  = length
      (filter (fun row => dropped_as_conflict false row = true)
         [conflicted_stale_row; seed_goal (samples.goal_row 2 1)]) ∧
  length gate.1.1 + gate.1.2 + gate.2
  = length [conflicted_stale_row; seed_goal (samples.goal_row 2 1)].
Proof.
  apply (@quality_gate_partition samples.runtime 60 samples.noon
           [conflicted_stale_row; seed_goal (samples.goal_row 2 1)]
           (Some samples.noon) false false 1714564800000000).
  vm_compute. reflexivity.
Defined.

Lemma quality_gate_output_clean_witness :
  let candidate :=
    (@annotate samples.runtime 60 1714564800000000
       (seed_goal (samples.goal_row 2 1))).1 in
  (false = false -> is_stale candidate = Some false) ∧
  (false = false -> verification candidate ≠ Some (ustr "score_conflict")).
Proof.
  apply (@quality_gate_output_clean samples.runtime 60 samples.noon
           [conflicted_stale_row; seed_goal (samples.goal_row 2 1)]
           (Some samples.noon) false false 1714564800000000).
  - vm_compute. reflexivity.
  - vm_compute. left.
Defined.

Lemma quality_gate_annotation_frame_witness :
  let candidate :=
    (@annotate samples.runtime 60 1714564800000000
       (seed_goal (samples.goal_row 2 1))).1 in
  exists row,
    row ∈ [conflicted_stale_row; seed_goal (samples.goal_row 2 1)] ∧
    candidate
    = set_staleness_reason (staleness_reason candidate)
        (set_is_stale (is_stale candidate)
           (set_last_update_age_seconds (last_update_age_seconds candidate)
              row)) ∧
    (is_stale candidate = Some true ->
     staleness_reason candidate
     = Some
         match @row_age samples.runtime 1714564800000000 row with
         | None => ustr "missing_last_update"
         | Some _ => ustr "older_than_" ++ str_of_int 60 ++ ustr "_seconds"
         end) ∧
    (is_stale candidate = Some false ->
     staleness_reason candidate = staleness_reason row).
Proof.
  apply (@quality_gate_annotation_frame samples.runtime 60 samples.noon
           [conflicted_stale_row; seed_goal (samples.goal_row 2 1)]
           (Some samples.noon) true false 1714564800000000).
  - vm_compute. reflexivity.
  - vm_compute. left.
Defined.

Lemma filter_matches_defaults_witness :
  @_filter_matches samples.runtime [samples.goal_row 2 1] None
    (Some (ustr " all ")) None
  = [samples.goal_row 2 1].
Proof.
  apply (@filter_matches_defaults samples.runtime ascii_runtime_stable
           [samples.goal_row 2 1] None (Some (ustr " all ")) None).
  - reflexivity.
  - reflexivity.
  - reflexivity.
Defined.

Lemma get_scores_accounts_witness :
  let payload :=
    {| generated_at_utc := Some samples.noon;
       matches := [conflicted_stale_row; seed_goal (samples.goal_row 2 1)];
       count := 2;
       providers := ∅ |} in
  let answer :=
    @get_scores samples.runtime 60 samples.noon payload
      (Some (ustr "live")) None None false false in
  let selected :=
    @_filter_matches samples.runtime (matches payload) (Some (ustr "live"))
      None None in
  count (scores_payload answer) = length (matches (scores_payload answer)) ∧
  count (scores_payload answer) + dropped_stale_count answer
  + dropped_conflict_count answer
  = length selected ∧
  length selected ≤ length (matches payload) ∧
  generated_at_utc (scores_payload answer) = generated_at_utc payload ∧
  providers (scores_payload answer) = providers payload ∧
  forall candidate,
    candidate ∈ matches (scores_payload answer) ->
    exists row,
      row ∈ matches payload
      ∧ @status_selected samples.runtime (Some (ustr "live")) row
      ∧ @source_selected samples.runtime None row
      ∧ @league_selected samples.runtime None row
      ∧ candidate = (@annotate samples.runtime 60 1714564800000000 row).1.
Proof.
  apply (@get_scores_accounts samples.runtime 60 samples.noon
           {| generated_at_utc := Some samples.noon;
              matches :=
                [conflicted_stale_row; seed_goal (samples.goal_row 2 1)];
              count := 2;
              providers := ∅ |}
           (Some (ustr "live")) None None false false 1714564800000000).
  vm_compute. reflexivity.
Defined.

(** ** The helpers at their edges *)

(** [_preferred_status] returns one of its two arguments, the first one
    unless the second has a strictly higher priority, so that the priority of
    the result is the greater of the two; and it is associative: folding the
    statuses of several sources gives the same status however they are
    grouped. *)
Theorem preferred_status_max (a b c : pystr) :
  (_preferred_status a b = a ∨ _preferred_status a b = b) ∧
  status_priority (_preferred_status a b)
  = Z.max (status_priority a) (status_priority b) ∧
  ((status_priority b <= status_priority a)%Z -> _preferred_status a b = a) ∧
  _preferred_status (_preferred_status a b) c
  = _preferred_status a (_preferred_status b c).
Proof.
  unfold _preferred_status. cbv zeta. split_and!.
  - destruct (_ >? _)%Z; auto.
  - destruct (Z.gtb_spec (status_priority b) (status_priority a)); lia.
  - intros Hle.
    destruct (Z.gtb_spec (status_priority b) (status_priority a)); [lia|done].
  - destruct (Z.gtb_spec (status_priority b) (status_priority a));
      destruct (Z.gtb_spec (status_priority c) (status_priority b));
      repeat match goal with
        | |- context [(?x >? ?y)%Z] => destruct (Z.gtb_spec x y)
        end;
      try done; lia.
Qed.

Section ZeroWindow.
Context `{PyRuntime}.



End ZeroWindow.

